(** * twinsights: crawl cursors, raw store and entity merge

    A shallow embedding of the crawler and merge code of the twinsights
    repository:

    - [twinsights/crawler/data.py]     (Query, QueryMetadata, CrawledObject,
                                        CrawledDataStore)
    - [twinsights/crawler/__init__.py] (Crawler.in_timeout)
    - [twinsights/crawler/twitter.py]  (TweepyCrawler, TwitterUserCrawler)
    - [twinsights/crawler/__main__.py] (CrawlerApp.crawl)
    - [twinsights/analytics/data.py]   (User.update, Post.update)
    - [twinsights/project.py]          (construction of the task queries)

    Python objects are records, dictionaries keyed by primary key are
    [gmap string _], and code that talks to the database, the clock or the
    Twitter API runs in a small state-and-exception monad over a [World]. *)

From stdpp Require Import base option list strings gmap fin_maps pretty.
From Stdlib Require Import ZArith Lia Ascii.

Local Open Scope Z_scope.
Local Open Scope string_scope.
Local Open Scope list_scope.

(** ** Python values and exceptions *)

(** The cursor fields of a query are annotated [str] but hold [None], a
    string (a sentinel or a numeral read back from the database) or, after a
    batch, a Python [int]. *)
Inductive pyval : Type :=
  | PyNone
  | PyStr (s : string)
  | PyInt (n : Z).

#[global] Instance pyval_eq_dec : EqDecision pyval.
Proof. solve_decision. Defined.

(** [v == s] for a string literal [s]. *)
Definition py_eq_str (v : pyval) (s : string) : bool :=
  match v with
  | PyStr s' => bool_decide (s' = s)
  | _ => false
  end.

(** [v is not None]. *)
Definition is_not_None (v : pyval) : bool :=
  match v with
  | PyNone => false
  | _ => true
  end.

(** A computation either returns or raises; an exception is represented by
    its message, which is what the handlers of the code inspect. *)
Inductive outcome (A : Type) : Type :=
  | Ok (a : A)
  | Raise (e : string).
Arguments Ok {A} a.
Arguments Raise {A} e.

#[global] Instance outcome_ret : MRet outcome := @Ok.
#[global] Instance outcome_bind : MBind outcome := fun A B f m =>
  match m with
  | Ok a => f a
  | Raise e => Raise e
  end.

(** Decimal numerals.  [int(s)] is modelled on strings made of an optional
    sign followed by ASCII digits, which is how the database returns a
    stored cursor; every other string raises [ValueError]. *)
Definition digit_of (a : ascii) : option Z :=
  let n := Z.of_nat (nat_of_ascii a) in
  if bool_decide (48 <= n <= 57) then Some (n - 48) else None.

Fixpoint digits_to_Z (acc : Z) (s : string) : option Z :=
  match s with
  | EmptyString => Some acc
  | String a r =>
      match digit_of a with
      | Some d => digits_to_Z (10 * acc + d) r
      | None => None
      end
  end.

Definition int_of_string (s : string) : option Z :=
  match s with
  | EmptyString => None
  | String "-"%char (String _ _ as r) => Z.opp <$> digits_to_Z 0 r
  | String "+"%char (String _ _ as r) => digits_to_Z 0 r
  | String "-"%char EmptyString | String "+"%char EmptyString => None
  | _ => digits_to_Z 0 s
  end.

(** [int(v)]. *)
Definition py_int (v : pyval) : outcome Z :=
  match v with
  | PyInt n => Ok n
  | PyStr s =>
      match int_of_string s with
      | Some n => Ok n
      | None => Raise "ValueError: invalid literal for int()"
      end
  | PyNone => Raise "TypeError: int() argument must be a string or a number"
  end.

(** [a < v] and [a > v] for an [int] [a]: ordering an [int] against [None]
    or a [str] raises [TypeError]. *)
Definition py_int_lt (a : Z) (v : pyval) : outcome bool :=
  match v with
  | PyInt n => Ok (bool_decide (a < n))
  | _ => Raise "TypeError: '<' not supported"
  end.

Definition py_int_gt (a : Z) (v : pyval) : outcome bool :=
  match v with
  | PyInt n => Ok (bool_decide (a > n))
  | _ => Raise "TypeError: '>' not supported"
  end.

(** ** twinsights/api.py *)

Inductive Api : Type := TwitterStatus | TwitterUser.

#[global] Instance Api_eq_dec : EqDecision Api.
Proof. solve_decision. Defined.

(** ** twinsights/crawler/data.py *)

Record Query : Type := mkQuery {
  q_id : string;
  q_text : string;
  q_since_id : pyval;
  q_max_id : pyval
}.

Definition set_since_id (v : pyval) (q : Query) : Query :=
  mkQuery (q_id q) (q_text q) v (q_max_id q).

Definition set_max_id (v : pyval) (q : Query) : Query :=
  mkQuery (q_id q) (q_text q) (q_since_id q) v.

Record QueryMetadata : Type := mkQueryMetadata {
  qm_id : string;
  qm_since_id : pyval;
  qm_max_id : pyval
}.

Definition to_metadata (q : Query) : QueryMetadata :=
  mkQueryMetadata (q_id q) (q_since_id q) (q_max_id q).

Record CrawlTask : Type := mkCrawlTask {
  t_language : option string;
  t_api : Api;
  t_name : string;
  t_timeout : Z;
  t_options : gmap string bool;
  t_queries : list Query
}.

Definition set_queries (qs : list Query) (t : CrawlTask) : CrawlTask :=
  mkCrawlTask (t_language t) (t_api t) (t_name t) (t_timeout t) (t_options t) qs.

(** The provider documents, reduced to the fields the crawler reads. *)
Record TwUser : Type := mkTwUser {
  u_id : Z;
  u_description : string;
  u_friends : option (list Z)
}.

Record Status : Type := mkStatus {
  s_id : Z;
  s_full_text : string;
  s_lang : string;
  s_user : TwUser
}.

Inductive Document : Type :=
  | DocStatus (s : Status)
  | DocUser (u : TwUser).

(** A [CrawledObject].  [expanded] and [user_id] are [None] when the
    constructor call leaves the attribute out. *)
Record CrawledObject : Type := mkCrawledObject {
  o_id : string;
  o_api : Api;
  o_expanded : option bool;
  o_document : Document;
  o_user_id : option string;
  o_detected_lang : string
}.

Definition set_expanded (e : option bool) (o : CrawledObject) : CrawledObject :=
  mkCrawledObject (o_id o) (o_api o) e (o_document o) (o_user_id o)
    (o_detected_lang o).

Definition set_document (d : Document) (o : CrawledObject) : CrawledObject :=
  mkCrawledObject (o_id o) (o_api o) (o_expanded o) d (o_user_id o)
    (o_detected_lang o).

(** The two tables of the crawl database, keyed by primary key. *)
Record Tables : Type := mkTables {
  data : gmap string CrawledObject;
  query_metadata : gmap string QueryMetadata
}.

(** The SQLAlchemy session of a [DataStore]: [view] is what queries and
    merges of the running process see, [durable] what the last commit wrote.
    Lookups see every earlier merge of the session, as they do once the
    merge has been flushed. *)
Record Session : Type := mkSession {
  view : Tables;
  durable : Tables
}.

Module CrawledDataStore.

Definition commit (s : Session) : Session :=
  mkSession (view s) (view s).

(** [session.close()]: work that was not committed is rolled back. *)
Definition close (s : Session) : Session :=
  mkSession (durable s) (durable s).

Definition find (id : string) (s : Session) : option CrawledObject :=
  data (view s) !! id.

Definition find_metadata (id : string) (s : Session) : option QueryMetadata :=
  query_metadata (view s) !! id.

(** [session.merge(obj)] on the [data] table: a new key is inserted, with
    the column default [False] for an [expanded] that was left out; on an
    existing key the attributes the incoming object carries replace those
    of the row and the others are kept. *)
Definition merge_object (obj : CrawledObject) (s : Session) : Session :=
  let row :=
    match data (view s) !! o_id obj with
    | None => set_expanded (Some (default false (o_expanded obj))) obj
    | Some cur =>
        mkCrawledObject (o_id obj) (o_api obj)
          (match o_expanded obj with Some b => Some b | None => o_expanded cur end)
          (o_document obj)
          (match o_user_id obj with Some u => Some u | None => o_user_id cur end)
          (o_detected_lang obj)
    end in
  mkSession (mkTables (<[o_id obj := row]> (data (view s)))
                      (query_metadata (view s)))
            (durable s).

(** [session.merge(qm)] and [session.add(qm)] on [query_metadata]: the
    constructor sets all three attributes, so the row is replaced. *)
Definition merge_metadata (qm : QueryMetadata) (s : Session) : Session :=
  mkSession (mkTables (data (view s))
                      (<[qm_id qm := qm]> (query_metadata (view s))))
            (durable s).

Definition update_query_metadata (qm : QueryMetadata) (s : Session) : Session :=
  merge_metadata qm s.

(** [add]: returns the object as the call leaves it and the session. *)
Definition add (obj : CrawledObject) (s : Session) : CrawledObject * Session :=
  let obj' :=
    if bool_decide (o_api obj = TwitterUser) then
      match find (o_id obj) s with
      | None => set_expanded (Some false) obj
      | Some current => set_expanded (o_expanded current) obj
      end
    else obj in
  (obj', merge_object obj' s).

(** The body of the loop of [restore_query_metadata] for one query. *)
Definition restore_query (q : Query) (s : Session) : Query * Session :=
  match find_metadata (qm_id (to_metadata q)) s with
  | Some qm =>
      let q1 :=
        if is_not_None (q_max_id q) && py_eq_str (q_max_id q) "undefined"
        then set_max_id (qm_max_id qm) q
        else set_max_id PyNone q in
      let q2 :=
        if is_not_None (q_max_id q1) && py_eq_str (q_since_id q1) "undefined"
        then set_since_id (qm_since_id qm) q1
        else set_max_id PyNone q1 in
      (q2, s)
  | None =>
      let q1 :=
        if py_eq_str (q_max_id q) "undefined" then set_max_id PyNone q else q in
      let q2 :=
        if py_eq_str (q_since_id q1) "undefined" then set_since_id PyNone q1
        else q1 in
      (q2, commit (merge_metadata (to_metadata q2) s))
  end.

Fixpoint restore_queries (qs : list Query) (s : Session) : list Query * Session :=
  match qs with
  | [] => ([], s)
  | q :: rest =>
      let '(q', s1) := restore_query q s in
      let '(rest', s2) := restore_queries rest s1 in
      (q' :: rest', s2)
  end.

Definition restore_query_metadata (task : CrawlTask) (s : Session)
  : CrawlTask * Session :=
  let '(qs, s') := restore_queries (t_queries task) s in
  (set_queries qs task, s').

End CrawledDataStore.

(** ** The queue of pending INSERTs

    [DataStore] makes its session with [autoflush=False].  A row that
    [session.merge] creates for a primary key that has no row yet waits in
    [session.new] until [commit] flushes it; until then neither a query
    nor another merge finds it.  [Session] holds the rows that are past
    that point, as [CrawledDataStore] above reads and writes them;
    [UnitOfWork] adds the queue, for the calls of [add] that no [commit]
    separates. *)
Record UnitOfWork : Type := mkUnitOfWork {
  flushed : Session;
  pending : list CrawledObject
}.

Module Pending.

(** [session.query(CrawledObject).filter(CrawledObject.id == id).first()]:
    the queue is not flushed for it and not looked at. *)
Definition find (id : string) (u : UnitOfWork) : option CrawledObject :=
  CrawledDataStore.find id (flushed u).

(** [session.merge(obj)]: onto the row of the key when there is one;
    otherwise a new object joins the queue. *)
Definition merge (obj : CrawledObject) (u : UnitOfWork) : UnitOfWork :=
  match find (o_id obj) u with
  | Some _ =>
      mkUnitOfWork (CrawledDataStore.merge_object obj (flushed u)) (pending u)
  | None => mkUnitOfWork (flushed u) (pending u ++ [obj])
  end.

(** [CrawledDataStore.add]. *)
Definition add (obj : CrawledObject) (u : UnitOfWork)
  : CrawledObject * UnitOfWork :=
  let obj' :=
    if bool_decide (o_api obj = TwitterUser) then
      match find (o_id obj) u with
      | None => set_expanded (Some false) obj
      | Some current => set_expanded (o_expanded current) obj
      end
    else obj in
  (obj', merge obj' u).

(** The flush of the queue: the INSERTs are issued in order, and one for a
    primary key that has a row by then fails. *)
Fixpoint flush (queue : list CrawledObject) (s : Session) : outcome Session :=
  match queue with
  | [] => Ok s
  | obj :: rest =>
      match CrawledDataStore.find (o_id obj) s with
      | Some _ => Raise "IntegrityError"
      | None => flush rest (CrawledDataStore.merge_object obj s)
      end
  end.

(** [CrawledDataStore.commit]: [session.commit()] flushes, then commits. *)
Definition commit (u : UnitOfWork) : outcome UnitOfWork :=
  s ← flush (pending u) (flushed u);
  mret (mkUnitOfWork (CrawledDataStore.commit s) []).

End Pending.


(** ** The world the crawler runs in *)

(** The call sites of [db.commit()]. *)
Inductive commit_site : Type :=
  | PerStatus   (* TweepyCrawler.__process_status *)
  | PerBatch    (* TweepyCrawler.crawl, after a non-empty batch *)
  | PerRound    (* CrawlerApp.crawl, end of a pass over the crawlers *)
  | PerUser.    (* TwitterUserCrawler.crawl *)

#[global] Instance commit_site_eq_dec : EqDecision commit_site.
Proof. solve_decision. Defined.

Record SearchOptions : Type := mkSearchOptions {
  so_q : string;
  so_count : Z;
  so_lang : option string;
  so_max_id : option Z;
  so_since_id : option Z
}.

(** What an observer of the process sees, in order. *)
Inductive event : Type :=
  | EvInvoke (task : string)
  | EvSearch (query_id : string) (opts : SearchOptions) (results : nat)
  | EvSearchFailed (query_id : string) (opts : SearchOptions) (e : string)
  | EvUpdateMeta (qm : QueryMetadata)
  | EvCommit (site : commit_site)
  | EvSleep (secs : Z)
  | EvTimeline (user_id : string)
  | EvFriends (user_id : string)
  | EvWarning (e : string)
  | EvClose
  | EvExit.

Record World : Type := mkWorld {
  db : Session;
  trace : list event;
  requests : nat;
  ticks : nat
}.

(** State and exceptions: a raised exception keeps the world it was raised
    in. *)
Definition M (A : Type) : Type := World -> outcome A * World.

#[global] Instance M_ret : MRet M := fun A a w => (Ok a, w).
#[global] Instance M_bind : MBind M := fun A B f m w =>
  match m w with
  | (Ok a, w') => f a w'
  | (Raise e, w') => (Raise e, w')
  end.

Definition lift {A : Type} (o : outcome A) : M A := fun w => (o, w).

Definition emit (e : event) : M unit := fun w =>
  (Ok tt, mkWorld (db w) (trace w ++ [e]) (requests w) (ticks w)).

Definition get_db : M Session := fun w => (Ok (db w), w).

Definition modify_db (f : Session -> Session) : M unit := fun w =>
  (Ok tt, mkWorld (f (db w)) (trace w) (requests w) (ticks w)).

Definition db_commit (site : commit_site) : M unit :=
  modify_db CrawledDataStore.commit ≫= fun _ => emit (EvCommit site).

Definition db_add (obj : CrawledObject) : M CrawledObject := fun w =>
  let '(obj', s) := CrawledDataStore.add obj (db w) in
  (Ok obj', mkWorld s (trace w) (requests w) (ticks w)).

Definition db_update_query_metadata (qm : QueryMetadata) : M unit :=
  modify_db (CrawledDataStore.update_query_metadata qm) ≫= fun _ =>
  emit (EvUpdateMeta qm).

Definition sleep (secs : Z) : M unit := emit (EvSleep secs).

(** [try: body finally: h] as used by the [with] block of the driver. *)
Definition finally {A : Type} (body : M A) (h : World -> World) : M A := fun w =>
  let '(r, w') := body w in (r, h w').

Definition is_commit_at (site : commit_site) (e : event) : bool :=
  match e with
  | EvCommit site' => bool_decide (site' = site)
  | _ => false
  end.

Definition is_commit (e : event) : bool :=
  match e with
  | EvCommit _ => true
  | _ => false
  end.

Definition commits_at (site : commit_site) (tr : list event) : nat :=
  length (List.filter (is_commit_at site) tr).

Definition commits (tr : list event) : nat :=
  length (List.filter is_commit tr).

(** ** twinsights/crawler/__init__.py and twinsights/crawler/twitter.py *)

Record Crawler : Type := mkCrawler {
  c_task : CrawlTask;
  c_last_run : option Z;
  c_historical : bool;
  c_ignore_retweets : bool
}.

Definition set_task (t : CrawlTask) (c : Crawler) : Crawler :=
  mkCrawler t (c_last_run c) (c_historical c) (c_ignore_retweets c).

Definition set_last_run (now : Z) (c : Crawler) : Crawler :=
  mkCrawler (c_task c) (Some now) (c_historical c) (c_ignore_retweets c).

Definition set_historical (h : bool) (c : Crawler) : Crawler :=
  mkCrawler (c_task c) (c_last_run c) h (c_ignore_retweets c).

Definition make_crawl_id (item_id : string) (is_status : bool) : string :=
  if is_status then "Twitter::status::" +:+ item_id
  else "Twitter::user::" +:+ item_id.

Module TweepyCrawler.

(** [TweepyCrawler(task)]. *)
Definition init (task : CrawlTask) : Crawler :=
  mkCrawler task None
    (default false (t_options task !! "historical"))
    (default false (t_options task !! "no-retweets")).

Definition _has_more (c : Crawler) (q : Query) : bool :=
  if c_historical c
  then negb (is_not_None (q_max_id q)) || negb (py_eq_str (q_max_id q) "finished")
  else true.

(** The keyword arguments [__next_results] builds; [tweet_mode],
    [include_entities] and [result_type] are constants and left out. *)
Definition search_options (c : Crawler) (q : Query) : outcome SearchOptions :=
  let tquery :=
    if c_ignore_retweets c then q_text q +:+ " -filter:retweets" else q_text q in
  let lang := t_language (c_task c) in
  if c_historical c then
    if is_not_None (q_max_id q) && negb (py_eq_str (q_max_id q) "undefined")
    then n ← py_int (q_max_id q);
         mret (mkSearchOptions tquery 500 lang (Some (n - 1)) None)
    else mret (mkSearchOptions tquery 500 lang None None)
  else
    if is_not_None (q_since_id q) && negb (py_eq_str (q_since_id q) "undefined")
    then n ← py_int (q_since_id q);
         mret (mkSearchOptions tquery 500 lang None (Some (n + 1)))
    else mret (mkSearchOptions tquery 500 lang None None).

Definition update_next_and_since (c : Crawler) (status : Status)
    (next_max_id next_since_id : pyval) : outcome (pyval * pyval) :=
  older ←
    (if c_historical c then
       if negb (is_not_None next_max_id) then mret true
       else py_int_lt (s_id status) next_max_id
     else mret false);
  let next_max_id := if older : bool then PyInt (s_id status) else next_max_id in
  newer ←
    (if negb (c_historical c) then
       if negb (is_not_None next_since_id) then mret true
       else py_int_gt (s_id status) next_since_id
     else mret false);
  let next_since_id := if newer : bool then PyInt (s_id status) else next_since_id in
  let next_max_id :=
    if is_not_None next_max_id then next_max_id else PyStr "finished" in
  let next_since_id :=
    if is_not_None next_since_id then next_since_id else PyStr "finished" in
  mret (next_max_id, next_since_id).

Section Environment.

(** The collaborators: the search endpoint (it may answer the [n]-th request
    of the process as it likes, or raise), [langdetect] behind
    [detect_language], and the clock. *)
Variable search_tweets : nat -> SearchOptions -> outcome (list Status).
Variable detect_language : string -> string.
Variable clock : nat -> Z.

Definition now : M Z := fun w =>
  (Ok (clock (ticks w)), mkWorld (db w) (trace w) (requests w) (S (ticks w))).

Definition api_search (query_id : string) (opts : SearchOptions)
  : M (list Status) := fun w =>
  match search_tweets (requests w) opts with
  | Ok results =>
      (Ok results,
       mkWorld (db w) (trace w ++ [EvSearch query_id opts (length results)])
               (S (requests w)) (ticks w))
  | Raise e =>
      (Raise e,
       mkWorld (db w) (trace w ++ [EvSearchFailed query_id opts e])
               (S (requests w)) (ticks w))
  end.

Definition next_results (c : Crawler) (q : Query) : M (list Status) :=
  opts ← lift (search_options c q);
  api_search (q_id q) opts.

(** The language test of [__process_status]: [true] when the status is
    skipped. *)
Definition skipped (c : Crawler) (lang : string) : bool :=
  match t_language (c_task c) with
  | Some l => negb (bool_decide (lang = l)) && negb (bool_decide (lang = "und"))
  | None => false
  end.

Definition status_lang (status : Status) : string :=
  let lang := detect_language (s_full_text status) in
  if bool_decide (lang = "und") then s_lang status else lang.

Definition process_status (c : Crawler) (status : Status) : M unit :=
  let lang := status_lang status in
  if skipped c lang then mret tt
  else
    _ ← db_add (mkCrawledObject
                  (make_crawl_id (pretty (s_id status)) true)
                  TwitterStatus None (DocStatus status) None lang);
    _ ← db_add (mkCrawledObject
                  (make_crawl_id (pretty (u_id (s_user status))) false)
                  TwitterUser None (DocUser (s_user status)) None
                  (detect_language (u_description (s_user status))));
    db_commit PerStatus.

(** The [for status in ...] loop of [crawl]. *)
Fixpoint process_results (c : Crawler) (results : list Status)
    (next_max_id next_since_id : pyval) : M (pyval * pyval) :=
  match results with
  | [] => mret (next_max_id, next_since_id)
  | status :: rest =>
      _ ← process_status c status;
      '(m, s) ← lift (update_next_and_since c status next_max_id next_since_id);
      process_results c rest m s
  end.

(** The body of the [for q in ...] loop of [crawl]: the query as the body
    leaves it, and whether it counted as processed. *)
Definition crawl_query (c : Crawler) (q : Query) : M (Query * bool) :=
  results ← next_results c q;
  if bool_decide (0 < length results)%nat then
    '(next_max_id, next_since_id) ← process_results c results PyNone PyNone;
    let q' :=
      if c_historical c then set_max_id next_max_id q
      else if negb (py_eq_str next_since_id "finished")
           then set_since_id next_since_id q
           else q in
    _ ← db_update_query_metadata (to_metadata q');
    _ ← db_commit PerBatch;
    _ ← sleep (t_timeout (c_task c));
    mret (q', true)
  else mret (set_max_id (PyStr "finished") q, false).

Fixpoint crawl_queries (c : Crawler) (qs : list Query) : M (list Query * nat) :=
  match qs with
  | [] => mret ([], 0%nat)
  | q :: rest =>
      if _has_more c q then
        '(q', processed) ← crawl_query c q;
        '(rest', n) ← crawl_queries c rest;
        mret (q' :: rest', if processed : bool then S n else n)
      else
        '(rest', n) ← crawl_queries c rest;
        mret (q :: rest', n)
  end.

(** [crawl]: the crawler with its queries as the call leaves them, and the
    returned flag. *)
Definition crawl (c : Crawler) : M (Crawler * bool) :=
  '(qs, num_processed) ← crawl_queries c (t_queries (c_task c));
  mret (set_task (set_queries qs (c_task c)) c,
        bool_decide (0 < num_processed)%nat).

(** [Crawler.in_timeout]; [.seconds] is the seconds component of the
    normalised [timedelta]. *)
Definition in_timeout (c : Crawler) : M bool :=
  match c_last_run c with
  | None => mret false
  | Some last_run =>
      current ← now;
      mret (bool_decide ((current - last_run) `mod` 86400 < t_timeout (c_task c)))
  end.

End Environment.

End TweepyCrawler.

(** ** twinsights/project.py *)

Module Project.

(** The queries of a task as [Project.__init__] builds them. *)
Definition make_queries (name : string) (queries : list string) : list Query :=
  map (fun q => mkQuery (name +:+ "::" +:+ q) q
                        (PyStr "undefined") (PyStr "undefined")) queries.

Fixpoint restore_tasks (tasks : list CrawlTask) (s : Session)
  : list CrawlTask * Session :=
  match tasks with
  | [] => ([], s)
  | task :: rest =>
      let '(task', s1) := CrawledDataStore.restore_query_metadata task s in
      let '(rest', s2) := restore_tasks rest s1 in
      (task' :: rest', s2)
  end.

(** The [crawl_db] property on first use: the store is opened and the
    cursors of every task are restored. *)
Definition crawl_db (tasks : list CrawlTask) : M (list CrawlTask) := fun w =>
  let '(tasks', s) := restore_tasks tasks (db w) in
  (Ok tasks', mkWorld s (trace w) (requests w) (ticks w)).

End Project.

(** A cursor column is a [String]: a value written as [int] is read back
    as its numeral by a later process. *)
Definition column_text (v : pyval) : pyval :=
  match v with
  | PyInt n => PyStr (pretty n)
  | _ => v
  end.

Definition reload_metadata (qm : QueryMetadata) : QueryMetadata :=
  mkQueryMetadata (qm_id qm) (column_text (qm_since_id qm))
                  (column_text (qm_max_id qm)).

(** The store as a new process opens it: only committed rows are there. *)
Definition reopen (s : Session) : Session :=
  let t := mkTables (data (durable s))
                    (reload_metadata <$> query_metadata (durable s)) in
  mkSession t t.

Definition restart (w : World) : World :=
  mkWorld (reopen (db w)) (trace w) (requests w) (ticks w).

(** ** twinsights/crawler/__main__.py *)

Module CrawlerApp.

(** [task.api.crawler(task)]: the class is looked up in [Config], which
    names a crawler for [TwitterStatus] only. *)
Definition Api_crawler (task : CrawlTask) : outcome Crawler :=
  match t_api task with
  | TwitterStatus => Ok (TweepyCrawler.init task)
  | TwitterUser => Raise "KeyError: 'Api.TwitterUser.Crawler'"
  end.

Fixpoint make_crawlers (tasks : list CrawlTask) : outcome (list Crawler) :=
  match tasks with
  | [] => mret []
  | task :: rest =>
      c ← Api_crawler task;
      cs ← make_crawlers rest;
      mret (c :: cs)
  end.

Section Environment.

Variable search_tweets : nat -> SearchOptions -> outcome (list Status).
Variable detect_language : string -> string.
Variable clock : nat -> Z.

(** One pass of [for crawler in crawlers]: returns [next_step]. *)
Fixpoint round (historical : bool) (crawlers : list Crawler) : M (list Crawler) :=
  match crawlers with
  | [] => mret []
  | crawler :: rest =>
      let crawler := set_historical historical crawler in
      waiting ← TweepyCrawler.in_timeout clock crawler;
      if waiting : bool then
        next_step ← round historical rest;
        mret (crawler :: next_step)
      else
        _ ← emit (EvInvoke (t_name (c_task crawler)));
        '(crawler', more) ←
          TweepyCrawler.crawl search_tweets detect_language crawler;
        if more : bool then
          current ← TweepyCrawler.now clock;
          next_step ← round historical rest;
          mret (set_last_run current crawler' :: next_step)
        else round historical rest
  end.

(** [while len(crawlers) > 0], cut off after [fuel] passes: [true] when the
    working set became empty. *)
Fixpoint loop (fuel : nat) (historical : bool) (crawlers : list Crawler) : M bool :=
  match crawlers with
  | [] => mret true
  | _ :: _ =>
      match fuel with
      | O => mret false
      | S fuel' =>
          next_step ← round historical crawlers;
          _ ← db_commit PerRound;
          loop fuel' historical next_step
      end
  end.

Definition close_db (w : World) : World :=
  mkWorld (CrawledDataStore.close (db w)) (trace w ++ [EvClose])
          (requests w) (ticks w).

(** The [tweets] command. *)
Definition crawl (fuel : nat) (historical : bool) (tasks : list CrawlTask)
  : M bool :=
  finally
    (tasks' ← Project.crawl_db tasks;
     crawlers ← lift (make_crawlers tasks');
     loop fuel historical crawlers)
    close_db.

End Environment.

End CrawlerApp.

(** ** TwitterUserCrawler (twinsights/crawler/twitter.py) *)

Module TwitterUserCrawler.

(** [needle in s]. *)
Fixpoint contains (needle s : string) : bool :=
  String.prefix needle s ||
  match s with
  | EmptyString => false
  | String _ r => contains needle r
  end.

(** [s[n:]]. *)
Fixpoint drop_string (n : nat) (s : string) : string :=
  match n, s with
  | O, _ => s
  | S n', String _ r => drop_string n' r
  | S _, EmptyString => EmptyString
  end.

(** The four branches of the [except Exception as e] handler. *)
Inductive failure : Type :=
  | AuthorizationError
  | NotFoundError
  | TransientTimeout
  | UnknownError.

Definition classify (e : string) : failure :=
  if contains "status code = 401" e || contains "Not authorized" e
  then AuthorizationError
  else if contains "status code = 404" e then NotFoundError
  else if contains "TimeoutError" e then TransientTimeout
  else UnknownError.

Definition try_except {A : Type} (body : M A) (handler : string -> M A) : M A :=
  fun w =>
    match body w with
    | (Ok a, w') => (Ok a, w')
    | (Raise e, w') => handler e w'
    end.

Definition set_friends (friends : list Z) (d : Document) : Document :=
  match d with
  | DocUser u => DocUser (mkTwUser (u_id u) (u_description u) (Some friends))
  | DocStatus s => DocStatus s
  end.

(** An assignment to an attribute of [user], an object the session holds:
    the row of the session changes with it. *)
Definition assign_row (row : CrawledObject) : M unit :=
  modify_db (fun s =>
    mkSession (mkTables (<[o_id row := row]> (data (view s)))
                        (query_metadata (view s)))
              (durable s)).

Section Environment.

(** The pages the two cursors yield for a user, each either a page or the
    exception its request raises. *)
Variable user_timeline : string -> list (outcome (list Status)).
Variable friends_of : string -> list (outcome (list Z)).
Variable detect_language : string -> string.
Variable language : string.

Fixpoint add_statuses (user_id : string) (page : list Status) (count : nat)
  : M nat :=
  match page with
  | [] => mret count
  | status :: rest =>
      let lang := detect_language (s_full_text status) in
      let lang := if bool_decide (lang = "und") then s_lang status else lang in
      let crawled_status :=
        mkCrawledObject (make_crawl_id (pretty (s_id status)) true)
          TwitterStatus None (DocStatus status) (Some user_id) lang in
      if bool_decide (lang = language) then
        _ ← db_add crawled_status;
        add_statuses user_id rest (S count)
      else add_statuses user_id rest count
  end.

Fixpoint timeline_pages (user_id : string)
    (pages : list (outcome (list Status))) (count : nat) : M unit :=
  match pages with
  | [] => mret tt
  | Raise e :: _ => lift (Raise e)
  | Ok page :: rest =>
      count' ← add_statuses user_id page count;
      if bool_decide (1000 <= count')%nat then mret tt
      else
        _ ← sleep 60;
        timeline_pages user_id rest count'
  end.

Fixpoint friends_pages (pages : list (outcome (list Z))) (friends : list Z)
  : M (list Z) :=
  match pages with
  | [] => mret friends
  | Raise e :: _ => lift (Raise e)
  | Ok page :: rest =>
      _ ← sleep 60;
      friends_pages rest (friends ++ page)
  end.

(** The [try] block for one user. *)
Definition expand_user (user : CrawledObject) (user_id : string) : M unit :=
  _ ← emit (EvTimeline user_id);
  _ ← timeline_pages user_id (user_timeline user_id) 0%nat;
  let user := set_expanded (Some true) user in
  _ ← assign_row user;
  _ ← emit (EvFriends user_id);
  friends ← friends_pages (friends_of (make_crawl_id user_id false)) [];
  let user := set_document (set_friends friends (o_document user)) user in
  _ ← assign_row user;
  _ ← db_add user;
  db_commit PerUser.

Definition handler (e : string) : M unit :=
  match classify e with
  | AuthorizationError => emit (EvWarning e)
  | NotFoundError => emit (EvWarning e)
  | TransientTimeout =>
      _ ← emit (EvWarning "Timeout Error: Sleeping");
      sleep (60 * 4)
  | UnknownError =>
      _ ← modify_db CrawledDataStore.close;
      _ ← emit EvClose;
      _ ← emit EvExit;
      lift (Raise "SystemExit")
  end.

(** The loop over the users the query returned; each is looked at as the
    session holds it when its turn comes. *)
Fixpoint crawl_users (ids : list string) : M unit :=
  match ids with
  | [] => mret tt
  | id :: rest =>
      s ← get_db;
      match CrawledDataStore.find id s with
      | None => crawl_users rest
      | Some user =>
          let user_id := drop_string 15 (o_id user) in
          if bool_decide (o_expanded user = Some true) then crawl_users rest
          else
            _ ← try_except (expand_user user user_id) handler;
            crawl_users rest
      end
  end.

Definition unexpanded_users (s : Session) : list string :=
  List.filter
    (fun id =>
       match data (view s) !! id with
       | Some o => bool_decide (o_api o = TwitterUser)
                   && bool_decide (o_expanded o = Some false)
       | None => false
       end)
    (map_to_list (data (view s))).*1.

Definition crawl : M unit :=
  s ← get_db;
  crawl_users (unexpanded_users s).

End Environment.

End TwitterUserCrawler.

(** ** twinsights/analytics/data.py *)

(** An annotated text ([twinsights.nlp.Document]): its content and tokens. *)
Record NlpDocument : Type := mkNlpDocument {
  content : string;
  tokens : list string
}.

(** [hash_tags] and [favorite_count] are always given by the ETL that
    builds a [Post]; [text] may be [None]. *)
Record Post : Type := mkPost {
  p_id : string;
  p_user_id : string;
  p_created_at : Z;
  p_text : option NlpDocument;
  p_hash_tags : list string;
  p_source : string;
  p_is_reply : bool;
  p_favorite_count : Z
}.

Record User : Type := mkUser {
  usr_id : string;
  usr_last_updated : Z;
  usr_name : string;
  usr_screen_name : string;
  usr_description : option NlpDocument;
  usr_user_metadata : option (gmap string string);
  usr_friends : option (list Z);
  usr_friend_count : option Z;
  usr_follower_count : option Z
}.

(** [Post.update]: [self] after the call.  [list(set(a).union(set(b)))]
    lists the union of the two sets once each, in an order of its own. *)
Definition Post_update (self other : Post) : Post :=
  let hash_tags :=
    elements ((list_to_set (p_hash_tags self) : gset string)
              ∪ list_to_set (p_hash_tags other)) in
  let text :=
    match p_text other with
    | Some t => Some t
    | None => p_text self
    end in
  mkPost (p_id self) (p_user_id self) (p_created_at self) text hash_tags
         (p_source self) (p_is_reply self)
         (Z.max (p_favorite_count self) (p_favorite_count other)).

(** [User.update] at time [current_timestamp]: [self] after the call. *)
Definition User_update (current_timestamp : Z) (self other : User) : User :=
  let merged_data : gmap string string := ∅ in
  let merged_data :=
    match usr_user_metadata self with
    | Some m => m ∪ merged_data
    | None => merged_data
    end in
  let merged_data :=
    match usr_user_metadata other with
    | Some m => m ∪ merged_data
    | None => merged_data
    end in
  let friends :=
    match usr_friends self with
    | None => usr_friends other
    | Some f => Some f
    end in
  let friend_count :=
    match usr_friend_count self with
    | None => usr_friend_count other
    | Some n =>
        if bool_decide (Some n ≠ usr_friend_count other)
        then usr_friend_count other else Some n
    end in
  let follower_count :=
    match usr_follower_count self with
    | None => usr_follower_count other
    | Some n =>
        if bool_decide (Some n ≠ usr_follower_count other)
        then usr_follower_count other else Some n
    end in
  mkUser (usr_id self) current_timestamp (usr_name self) (usr_screen_name self)
         (usr_description self) (Some merged_data) friends friend_count
         follower_count.

Record AnalyticStore : Type := mkAnalyticStore {
  users : gmap string User;
  posts : gmap string Post
}.

Module AnalyticDataStore.

(** [add_or_update] on a [Post]. *)
Definition add_or_update_post (obj : Post) (s : AnalyticStore) : AnalyticStore :=
  match posts s !! p_id obj with
  | None => mkAnalyticStore (users s) (<[p_id obj := obj]> (posts s))
  | Some post_o =>
      mkAnalyticStore (users s)
        (<[p_id post_o := Post_update post_o obj]> (posts s))
  end.

(** [add_or_update] on a [User]. *)
Definition add_or_update_user (current_timestamp : Z) (obj : User)
    (s : AnalyticStore) : AnalyticStore :=
  match users s !! usr_id obj with
  | None => mkAnalyticStore (<[usr_id obj := obj]> (users s)) (posts s)
  | Some user_o =>
      mkAnalyticStore
        (<[usr_id user_o := User_update current_timestamp user_o obj]> (users s))
        (posts s)
  end.

End AnalyticDataStore.

(** ** The queue of the analytic session

    [session.add(obj)] in [add_or_update] puts the new object in the queue
    of pending INSERTs.  The session is made with [autoflush=False]: the
    query of a later call does not find the object before a [commit]
    flushed it.  [saved] holds the rows that are past that point, as
    [AnalyticDataStore] above reads and writes them. *)
Record AnalyticWork : Type := mkAnalyticWork {
  saved : AnalyticStore;
  new_users : list User;
  new_posts : list Post
}.

Module AnalyticQueue.

(** [add_or_update] on a [Post]. *)
Definition add_or_update_post (obj : Post) (u : AnalyticWork) : AnalyticWork :=
  match posts (saved u) !! p_id obj with
  | None => mkAnalyticWork (saved u) (new_users u) (new_posts u ++ [obj])
  | Some _ =>
      mkAnalyticWork (AnalyticDataStore.add_or_update_post obj (saved u))
                     (new_users u) (new_posts u)
  end.

(** [add_or_update] on a [User]. *)
Definition add_or_update_user (current_timestamp : Z) (obj : User)
    (u : AnalyticWork) : AnalyticWork :=
  match users (saved u) !! usr_id obj with
  | None => mkAnalyticWork (saved u) (new_users u ++ [obj]) (new_posts u)
  | Some _ =>
      mkAnalyticWork
        (AnalyticDataStore.add_or_update_user current_timestamp obj (saved u))
        (new_users u) (new_posts u)
  end.

(** The flush of the queue: an INSERT for a primary key that has a row by
    then fails.  [posts] refers to [users], whose rows go first. *)
Fixpoint flush_users (queue : list User) (s : AnalyticStore)
  : outcome AnalyticStore :=
  match queue with
  | [] => Ok s
  | obj :: rest =>
      match users s !! usr_id obj with
      | Some _ => Raise "IntegrityError"
      | None =>
          flush_users rest
            (mkAnalyticStore (<[usr_id obj := obj]> (users s)) (posts s))
      end
  end.

Fixpoint flush_posts (queue : list Post) (s : AnalyticStore)
  : outcome AnalyticStore :=
  match queue with
  | [] => Ok s
  | obj :: rest =>
      match posts s !! p_id obj with
      | Some _ => Raise "IntegrityError"
      | None =>
          flush_posts rest
            (mkAnalyticStore (users s) (<[p_id obj := obj]> (posts s)))
      end
  end.

(** [AnalyticDataStore.commit]. *)
Definition commit (u : AnalyticWork) : outcome AnalyticWork :=
  s ← flush_users (new_users u) (saved u);
  s ← flush_posts (new_posts u) s;
  mret (mkAnalyticWork s [] []).

End AnalyticQueue.

(** ** Derived notions used by the statements *)

Module RawStoreDefs.
Import CrawledDataStore.

(** [db.add(obj); db.commit()], as the crawlers call them. *)
Definition add_commit (obj : CrawledObject) (u : UnitOfWork)
  : outcome (CrawledObject * UnitOfWork) :=
  let '(obj', u') := Pending.add obj u in
  u'' ← Pending.commit u';
  mret (obj', u'').

(** [add] and [commit], [n] times with the same object. *)
Fixpoint add_n (n : nat) (obj : CrawledObject) (u : UnitOfWork)
  : outcome (CrawledObject * UnitOfWork) :=
  match n with
  | O => Ok (obj, u)
  | S n' => '(obj', u') ← add_commit obj u; add_n n' obj' u'
  end.

(** [add] and [commit] of each object in turn. *)
Fixpoint add_all (objs : list CrawledObject) (u : UnitOfWork)
  : outcome UnitOfWork :=
  match objs with
  | [] => Ok u
  | obj :: rest => '(_, u') ← add_commit obj u; add_all rest u'
  end.

(** [add], [n] times with the same object and no [commit] in between. *)
Fixpoint add_only (n : nat) (obj : CrawledObject) (u : UnitOfWork)
  : CrawledObject * UnitOfWork :=
  match n with
  | O => (obj, u)
  | S n' => let '(obj', u') := Pending.add obj u in add_only n' obj' u'
  end.

(** ... and one [commit] at the end. *)
Definition add_then_commit (n : nat) (obj : CrawledObject) (u : UnitOfWork)
  : outcome UnitOfWork :=
  Pending.commit (add_only n obj u).2.

(** The row [session.merge(obj)] leaves under [obj.id]. *)
Definition merged_row (obj : CrawledObject) (s : Session) : CrawledObject :=
  match find (o_id obj) s with
  | None => set_expanded (Some (default false (o_expanded obj))) obj
  | Some cur =>
      mkCrawledObject (o_id obj) (o_api obj)
        (match o_expanded obj with
         | Some b => Some b
         | None => o_expanded cur
         end)
        (o_document obj)
        (match o_user_id obj with
         | Some u => Some u
         | None => o_user_id cur
         end)
        (o_detected_lang obj)
  end.

(** The object [add] hands to [session.merge]. *)
Definition incoming (obj : CrawledObject) (s : Session) : CrawledObject :=
  (add obj s).1.

End RawStoreDefs.
Export RawStoreDefs.

(** ** Concrete stores and objects *)

Definition ex_user : TwUser := mkTwUser 42 "bio" None.

Definition ex_status (id : Z) : Status := mkStatus id "hello" "en" ex_user.

Definition empty_tables : Tables := mkTables ∅ ∅.

(** A status row that is not expanded, and a later snapshot of it that
    carries [expanded = True]. *)
Definition ex_status_row : CrawledObject :=
  mkCrawledObject "Twitter::status::7" TwitterStatus (Some false)
    (DocStatus (ex_status 7)) None "en".

Definition ex_status_store : Session :=
  let t := mkTables {[ "Twitter::status::7" := ex_status_row ]} ∅ in
  mkSession t t.

Definition ex_status_expanded : CrawledObject :=
  set_expanded (Some true) ex_status_row.

(** A user object that carries [expanded = True], and an empty store. *)
Definition ex_user_expanded : CrawledObject :=
  mkCrawledObject "Twitter::user::42" TwitterUser (Some true)
    (DocUser ex_user) None "en".

Definition empty_store : Session := mkSession empty_tables empty_tables.

Definition empty_unit : UnitOfWork := mkUnitOfWork empty_store [].

(** Persisted cursor records for the query [t::q], and task-side queries. *)
Definition meta_store (since_id max_id : pyval) : Session :=
  let t := mkTables ∅ {[ "t::q" := mkQueryMetadata "t::q" since_id max_id ]} in
  mkSession t t.

Definition ex_query (since_id max_id : pyval) : Query :=
  mkQuery "t::q" "q" since_id max_id.

Definition ex_task (qs : list Query) : CrawlTask :=
  mkCrawlTask (Some "en") TwitterStatus "t" 60 ∅ qs.

(** Collaborators for the concrete runs: a search endpoint that has nothing
    to return, one that answers every request with the same two statuses,
    and a language detector that always answers ["en"]. *)
Definition no_results : nat -> SearchOptions -> outcome (list Status) :=
  fun _ _ => Ok [].

Definition two_results : nat -> SearchOptions -> outcome (list Status) :=
  fun _ _ => Ok [ex_status 9; ex_status 4].

Definition detect_en : string -> string := fun _ => "en".

Definition ex_crawler (historical : bool) (qs : list Query) : Crawler :=
  set_historical historical (TweepyCrawler.init (ex_task qs)).

Definition new_world (s : Session) : World := mkWorld s [] 0 0.

(** The number of [update_query_metadata] calls and of non-empty batches in
    a trace. *)
Definition is_update (e : event) : bool :=
  match e with
  | EvUpdateMeta _ => true
  | _ => false
  end.

Definition is_batch (e : event) : bool :=
  match e with
  | EvSearch _ _ (S _) => true
  | _ => false
  end.

Definition updates (tr : list event) : nat := length (List.filter is_update tr).

Definition batches (tr : list event) : nat := length (List.filter is_batch tr).

(** The world after the request of a historical crawler was answered with
    an empty batch. *)
Definition after_empty_batch : World :=
  (TweepyCrawler.next_results no_results (ex_crawler true [])
     (ex_query PyNone (PyStr "100"))
     (new_world (meta_store PyNone (PyStr "100")))).2.

(** Two runs of the [tweets] command in historical mode on a project with
    the task [t] and its query [q], from an empty store.  The endpoint
    returns the status 100 to the first request and nothing afterwards; the
    clock advances by 1000 seconds from one reading to the next. *)
Definition first_then_nothing : nat -> SearchOptions -> outcome (list Status) :=
  fun n _ => match n with O => Ok [ex_status 100] | S _ => Ok [] end.

Definition ticking : nat -> Z := fun n => 1000 * Z.of_nat n.

Definition ex_project_task : CrawlTask :=
  ex_task (Project.make_queries "t" ["q"]).

Definition first_run : outcome bool * World :=
  CrawlerApp.crawl first_then_nothing detect_en ticking 5 true
    [ex_project_task] (new_world empty_store).

Definition later_run : outcome bool * World :=
  CrawlerApp.crawl first_then_nothing detect_en ticking 5 true
    [ex_project_task] (restart first_run.2).

(** An incremental run of the same project from an empty store. *)
Definition incremental_run : outcome bool * World :=
  CrawlerApp.crawl first_then_nothing detect_en ticking 5 false
    [ex_project_task] (new_world empty_store).

(** [emits P m]: whatever [m] does, returning or raising, it only adds
    events that satisfy [P] to the trace. *)
Definition emits {A : Type} (P : event -> Prop) (m : M A) : Prop :=
  forall w, exists evs, trace (m w).2 = trace w ++ evs /\ Forall P evs.

Definition not_round_commit (e : event) : Prop :=
  is_commit_at PerRound e = false.

(** [adds Q m]: whatever [m] does, returning or raising, the events it
    adds to the trace satisfy [Q] taken together. *)
Definition adds {A : Type} (Q : list event -> Prop) (m : M A) : Prop :=
  forall w, exists evs, trace (m w).2 = trace w ++ evs /\ Q evs.

(** As many commits of [crawl] after a batch as non-empty batches. *)
Definition balanced (evs : list event) : Prop :=
  commits_at PerBatch evs = batches evs.

(** The statuses of a batch that [__process_status] stores: those that
    pass its language test. *)
Definition stored (detect_language : string -> string) (c : Crawler)
    (results : list Status) : list Status :=
  List.filter
    (fun st => negb (TweepyCrawler.skipped c
                       (TweepyCrawler.status_lang detect_language st)))
    results.

(** The world after the first pass of the driver over the crawler of the
    project, its cursors restored to [None], before the driver commits. *)
Definition after_first_round : World :=
  (CrawlerApp.round first_then_nothing detect_en ticking true
     [ex_crawler true [ex_query PyNone PyNone]]
     (new_world empty_store)).2.

Definition next_step_after_first_round : list Crawler :=
  [set_last_run 0
     (ex_crawler true [ex_query PyNone (PyInt 100)])].

(** Two tasks, and an endpoint that rejects every request as
    unauthorised. *)
Definition unauthorized : nat -> SearchOptions -> outcome (list Status) :=
  fun _ _ => Raise "Twitter error response: status code = 401".

Definition ex_task_named (name : string) : CrawlTask :=
  mkCrawlTask (Some "en") TwitterStatus name 60 ∅
    (Project.make_queries name ["q"]).

Definition unauthorized_run : outcome bool * World :=
  CrawlerApp.crawl unauthorized detect_en ticking 5 false
    [ex_task_named "t1"; ex_task_named "t2"] (new_world empty_store).

(** A store with two users that are not expanded, and collaborators of the
    user-timeline crawler: the timeline of every user is gone (404), or
    fails in a way the handler does not know. *)
Definition ex_user_row (id : Z) : CrawledObject :=
  mkCrawledObject (make_crawl_id (pretty id) false) TwitterUser (Some false)
    (DocUser (mkTwUser id "bio" None)) None "en".

Definition two_users_store : Session :=
  let t := mkTables {[ "Twitter::user::1" := ex_user_row 1;
                       "Twitter::user::2" := ex_user_row 2 ]} ∅ in
  mkSession t t.

Definition timeline_gone : string -> list (outcome (list Status)) :=
  fun _ => [Raise "Twitter error response: status code = 404"].

Definition timeline_broken : string -> list (outcome (list Status)) :=
  fun _ => [Raise "Connection reset by peer"].

Definition no_friends : string -> list (outcome (list Z)) := fun _ => [].

(** Posts and users for the merge examples. *)
Definition ex_post (text : option NlpDocument) (hash_tags : list string)
    (favorite_count : Z) : Post :=
  mkPost "Twitter::7" "Twitter::42" 0 text hash_tags "web" false favorite_count.

Definition ex_doc (content : string) : NlpDocument :=
  mkNlpDocument content [].

Definition ex_analytic_user (friends : option (list Z)) : User :=
  mkUser "Twitter::42" 0 "name" "screen" None None friends (Some 2) (Some 3).

Definition empty_analytic_store : AnalyticStore := mkAnalyticStore ∅ ∅.

Definition empty_analytic_work : AnalyticWork :=
  mkAnalyticWork empty_analytic_store [] [].

(** A string that [digits_to_Z] reads as [k] digits of value [v], after
    whatever was read before. *)
Definition reads_as (s : string) (k v : Z) : Prop :=
  0 <= k /\ forall acc, digits_to_Z acc s = Some (acc * 10 ^ k + v).

(** A query whose cursors were written to the cursor record and read
    back by a later process. *)
Definition reload_query (q : Query) : Query :=
  mkQuery (q_id q) (q_text q) (column_text (q_since_id q))
          (column_text (q_max_id q)).

(** The posts of the loop of the [etl] command:
    [analytic_db.add_or_update(post); analytic_db.commit()] for each
    snapshot, oldest first. *)
Fixpoint ingest_posts (snapshots : list Post) (u : AnalyticWork)
  : outcome AnalyticWork :=
  match snapshots with
  | [] => Ok u
  | p :: rest =>
      u' ← AnalyticQueue.commit (AnalyticQueue.add_or_update_post p u);
      ingest_posts rest u'
  end.

(** The same calls of [add_or_update] with one [commit] at the end. *)
Definition ingest_posts_uncommitted (snapshots : list Post) (u : AnalyticWork)
  : outcome AnalyticWork :=
  AnalyticQueue.commit
    (foldl (fun u p => AnalyticQueue.add_or_update_post p u) u snapshots).

(** The rows of the post table are filed under their own id. *)
Definition posts_keyed (s : AnalyticStore) : Prop :=
  forall id p, posts s !! id = Some p -> p_id p = id.

Definition tags (p : Post) : gset string := list_to_set (p_hash_tags p).


(** Every raw object of [t] has a row under the same id in [t'], with the
    same [expanded] flag, and every cursor record of [t] has a record under
    the same id in [t'].  The other columns may differ. *)
Definition keeps (t t' : Tables) : Prop :=
  (forall id row,
     data t !! id = Some row ->
     exists row', data t' !! id = Some row' /\
                  o_expanded row' = o_expanded row) /\
  dom (query_metadata t) ⊆ dom (query_metadata t').

(** The session sees every committed row, with the flag it was committed
    with: so it is when the store has just been opened. *)
Definition covered (s : Session) : Prop := keeps (durable s) (view s).

(** What is committed in [s] is kept in what is committed in [s']. *)
Definition keeps_rows (s s' : Session) : Prop := keeps (durable s) (durable s').

(** [durable_grows m]: whatever [m] does, returning or raising, no
    committed row is lost or has its flag changed, and the session still
    sees all of them. *)
Definition durable_grows {A : Type} (m : M A) : Prop :=
  forall w,
    covered (db w) ->
    covered (db (m w).2) /\ keeps_rows (db w) (db (m w).2).

(** [needle] occurs somewhere in [s]. *)
Definition occurs_in (needle s : string) : Prop :=
  exists before after, s = before +:+ needle +:+ after.

(** * Properties *)

(** ** The raw store *)

Section RawStore.

Import CrawledDataStore.

Lemma find_merge_object id obj s :
  id = o_id obj ->
  find id (merge_object obj s) = Some (merged_row obj s).
Proof.
  intros ->. unfold find, merge_object, merged_row; simpl.
  by rewrite lookup_insert_eq.
Qed.

Lemma find_merge_object_ne id obj s :
  id <> o_id obj ->
  find id (merge_object obj s) = find id s.
Proof.
  intros Hne. unfold find, merge_object; simpl.
  by rewrite lookup_insert_ne.
Qed.

Lemma add_id obj s : o_id (add obj s).1 = o_id obj.
Proof.
  unfold add; simpl. case_bool_decide; [|done].
  by destruct (find (o_id obj) s).
Qed.

Lemma add_api obj s : o_api (add obj s).1 = o_api obj.
Proof.
  unfold add; simpl. case_bool_decide; [|done].
  by destruct (find (o_id obj) s).
Qed.

Lemma merge_object_twice obj s :
  merge_object obj (merge_object obj s) = merge_object obj s.
Proof.
  unfold merge_object; simpl.
  rewrite lookup_insert_eq, insert_insert_eq.
  do 3 f_equal.
  destruct (data (view s) !! o_id obj) as [cur|]; destruct obj as [i a e d u l];
    simpl; destruct e, u; reflexivity.
Qed.

Lemma add_unfold obj s :
  add obj s = (incoming obj s, merge_object (incoming obj s) s).
Proof. reflexivity. Qed.

Lemma incoming_user obj s :
  o_api obj = TwitterUser ->
  incoming obj s =
  set_expanded (match find (o_id obj) s with
                | None => Some false
                | Some current => o_expanded current
                end) obj.
Proof.
  intros Hu. unfold incoming, add; simpl. rewrite bool_decide_true by done.
  by destruct (find (o_id obj) s).
Qed.

Lemma incoming_other obj s :
  o_api obj <> TwitterUser -> incoming obj s = obj.
Proof.
  intros Hu. unfold incoming, add; simpl. by rewrite bool_decide_false.
Qed.

Lemma incoming_twice obj s :
  incoming (incoming obj s) (merge_object (incoming obj s) s) = incoming obj s.
Proof.
  destruct (decide (o_api obj = TwitterUser)) as [Hu|Hu].
  - rewrite (incoming_user obj s Hu).
    set (e := match find (o_id obj) s with
              | None => Some false
              | Some current => o_expanded current
              end).
    rewrite incoming_user by done.
    rewrite find_merge_object by done.
    unfold merged_row; simpl. subst e.
    destruct (find (o_id obj) s) as [cur|]; simpl.
    + destruct obj; simpl; by destruct (o_expanded cur).
    + by destruct obj.
  - rewrite (incoming_other obj s Hu). by rewrite incoming_other.
Qed.

Lemma add_twice obj s :
  add (add obj s).1 (add obj s).2 = add obj s.
Proof.
  rewrite (add_unfold obj s); simpl.
  rewrite add_unfold, incoming_twice.
  by rewrite merge_object_twice.
Qed.

(** Adding a snapshot that leaves [expanded] out keeps the flag of the row
    it lands on. *)
Lemma add_omitted_keeps_flag obj s cur :
  o_expanded obj = None ->
  find (o_id obj) s = Some cur ->
  o_expanded <$> find (o_id obj) (add obj s).2 = Some (o_expanded cur).
Proof.
  intros Hnone Hcur. unfold add; simpl. case_bool_decide; rewrite ?Hcur.
  - rewrite find_merge_object by done. unfold merged_row; simpl.
    rewrite Hcur; simpl. by destruct (o_expanded cur).
  - rewrite find_merge_object by done. unfold merged_row.
    by rewrite Hcur, Hnone.
Qed.

(** C2, as the code has it.  For an object of api [TwitterUser], [add]
    stores [expanded = false] when no row exists for its id, whatever flag
    the caller supplied, and the flag of the existing row when one exists,
    whatever the incoming flag.  For every other api [add] leaves the flag
    to [session.merge]: a supplied flag is stored as it is, also over an
    existing row, and an omitted flag gives [false] on a new row and the
    existing flag on an existing one. *)
Theorem add_expanded_flag (obj : CrawledObject) (s : Session) :
  exists row,
    find (o_id obj) (add obj s).2 = Some row /\
    (o_api obj = TwitterUser ->
     o_expanded row =
     match find (o_id obj) s with
     | None => Some false
     | Some cur => o_expanded cur
     end) /\
    (o_api obj <> TwitterUser ->
     o_expanded row =
     match o_expanded obj, find (o_id obj) s with
     | Some b, _ => Some b
     | None, None => Some false
     | None, Some cur => o_expanded cur
     end).
Proof.
  rewrite add_unfold; simpl.
  eexists; split; [apply find_merge_object; apply eq_sym, add_id|].
  unfold merged_row. fold (incoming obj s). split; intros Hu.
  - rewrite (incoming_user obj s Hu); simpl.
    destruct (find (o_id obj) s) as [cur|]; simpl; [|done].
    by destruct (o_expanded cur).
  - rewrite (incoming_other obj s Hu).
    destruct (find (o_id obj) s) as [cur|], (o_expanded obj); done.
Qed.

(** C2 fails as stated: a [TwitterStatus] snapshot that carries
    [expanded = True] overwrites the [False] of the row it lands on, and a
    [TwitterUser] object supplied as already expanded is inserted with
    [expanded = False]. *)
Lemma add_expanded_flag_counterexample :
  (o_expanded <$> find "Twitter::status::7" ex_status_store = Some (Some false) /\
   o_expanded <$> find "Twitter::status::7" (add ex_status_expanded ex_status_store).2
   = Some (Some true)) /\
  (find "Twitter::user::42" empty_store = None /\
   o_expanded ex_user_expanded = Some true /\
   o_expanded <$> find "Twitter::user::42" (add ex_user_expanded empty_store).2
   = Some (Some false)).
Proof. vm_compute. done. Qed.

(** *** Calls of [add] with and without a [commit] in between *)

Lemma incoming_id obj s : o_id (incoming obj s) = o_id obj.
Proof. apply add_id. Qed.

Lemma incoming_commit obj s : incoming obj (commit s) = incoming obj s.
Proof. reflexivity. Qed.

Lemma commit_merge_commit obj s :
  commit (merge_object obj (commit s)) = commit (merge_object obj s).
Proof. reflexivity. Qed.

Lemma incoming_new_twice obj s :
  find (o_id obj) s = None -> incoming (incoming obj s) s = incoming obj s.
Proof.
  intros Hnew. destruct (decide (o_api obj = TwitterUser)) as [Hu|Hu].
  - rewrite (incoming_user obj s Hu), Hnew.
    rewrite incoming_user by done. simpl. by rewrite Hnew.
  - rewrite (incoming_other obj s Hu). by rewrite incoming_other.
Qed.

(** The columns of the row that [add] leaves under the id. *)
Lemma merged_row_incoming obj s :
  o_api (merged_row (incoming obj s) s) = o_api obj /\
  o_document (merged_row (incoming obj s) s) = o_document obj /\
  o_detected_lang (merged_row (incoming obj s) s) = o_detected_lang obj /\
  (o_api obj = TwitterUser ->
   o_expanded (merged_row (incoming obj s) s) =
   match find (o_id obj) s with
   | None => Some false
   | Some cur => o_expanded cur
   end) /\
  (o_api obj <> TwitterUser ->
   o_expanded (merged_row (incoming obj s) s) =
   match o_expanded obj, find (o_id obj) s with
   | Some b, _ => Some b
   | None, None => Some false
   | None, Some cur => o_expanded cur
   end).
Proof.
  destruct (decide (o_api obj = TwitterUser)) as [Hu|Hu].
  - rewrite (incoming_user obj s Hu). unfold merged_row; simpl.
    destruct (find (o_id obj) s) as [cur|]; simpl;
      repeat split; try done; intros _; by destruct (o_expanded cur).
  - rewrite (incoming_other obj s Hu). unfold merged_row.
    destruct (find (o_id obj) s) as [cur|]; simpl;
      repeat split; try done; intros _; by destruct (o_expanded obj).
Qed.

Lemma pending_add obj u :
  Pending.add obj u
  = (incoming obj (flushed u), Pending.merge (incoming obj (flushed u)) u).
Proof. reflexivity. Qed.

(** With nothing in the queue, [add] and [commit] leave what the merge
    into the flushed rows and its commit leave, whether the key had a row
    or not. *)
Lemma add_commit_flushed obj u :
  pending u = [] ->
  add_commit obj u
  = Ok (incoming obj (flushed u),
        mkUnitOfWork
          (commit (merge_object (incoming obj (flushed u)) (flushed u))) []).
Proof.
  intros Hq. unfold add_commit. rewrite pending_add.
  unfold Pending.merge, Pending.commit, Pending.find. rewrite Hq.
  destruct (find (o_id (incoming obj (flushed u))) (flushed u)) eqn:Hf;
    cbn [flushed pending Pending.flush app].
  - reflexivity.
  - by rewrite Hf.
Qed.

Lemma add_n_succ n obj u :
  pending u = [] -> add_n (S n) obj u = add_commit obj u.
Proof.
  revert obj u. induction n as [|n IH]; intros obj u Hq.
  - cbn [add_n]. by rewrite add_commit_flushed.
  - change (add_n (S (S n)) obj u)
      with ('(obj', u') ← add_commit obj u; add_n (S n) obj' u').
    rewrite add_commit_flushed by done.
    change (add_n (S n) (incoming obj (flushed u))
              (mkUnitOfWork
                 (commit (merge_object (incoming obj (flushed u)) (flushed u)))
                 [])
            = Ok (incoming obj (flushed u),
                  mkUnitOfWork
                    (commit (merge_object (incoming obj (flushed u))
                               (flushed u))) [])).
    rewrite IH by done. rewrite add_commit_flushed by done.
    cbn [flushed]. rewrite incoming_commit, commit_merge_commit.
    by rewrite incoming_twice, merge_object_twice.
Qed.

(** Snapshots that leave [expanded] out, each added and committed, keep
    the flag of the row they land on. *)
Lemma add_all_keeps_flag id later u row :
  pending u = [] ->
  durable (flushed u) = view (flushed u) ->
  Pending.find id u = Some row ->
  Forall (fun o' => o_id o' = id /\ o_expanded o' = None) later ->
  exists u2 row2,
    add_all later u = Ok u2 /\
    pending u2 = [] /\
    Pending.find id u2 = Some row2 /\
    data (durable (flushed u2)) !! id = Some row2 /\
    o_expanded row2 = o_expanded row.
Proof.
  intros Hq Hdur Hrow Hlater. revert u row Hq Hdur Hrow.
  induction Hlater as [|o' later [Hid Hnone] _ IH]; intros u row Hq Hdur Hrow.
  - exists u, row. split; [done|]. split; [done|]. split; [done|].
    split; [|done]. by rewrite Hdur.
  - cbn [add_all]. rewrite add_commit_flushed by done.
    subst id. unfold Pending.find in Hrow.
    pose proof (add_omitted_keeps_flag o' (flushed u) row Hnone Hrow) as Hflag.
    rewrite add_unfold in Hflag; cbn [snd] in Hflag.
    destruct (find (o_id o') (merge_object (incoming o' (flushed u)) (flushed u)))
      as [row'|] eqn:Hrow'; [|done].
    injection Hflag as Hflag.
    destruct (IH (mkUnitOfWork
                    (commit (merge_object (incoming o' (flushed u)) (flushed u)))
                    []) row' eq_refl eq_refl Hrow')
      as (u2 & row2 & Hall & Hq2 & Hfind2 & Hdur2 & Hflag2).
    exists u2, row2. split; [exact Hall|]. split; [done|]. split; [done|].
    split; [done|]. congruence.
Qed.

(** Without a commit, the calls on a key that has a row merge onto it ... *)
Lemma add_only_existing n obj u cur :
  pending u = [] ->
  Pending.find (o_id obj) u = Some cur ->
  add_only (S n) obj u
  = (incoming obj (flushed u),
     mkUnitOfWork (merge_object (incoming obj (flushed u)) (flushed u)) []).
Proof.
  revert obj u cur. induction n as [|n IH]; intros obj u cur Hq Hcur.
  - cbn [add_only]. rewrite pending_add.
    unfold Pending.merge, Pending.find in *.
    by rewrite incoming_id, Hcur, Hq.
  - change (add_only (S (S n)) obj u)
      with (let '(obj', u') := Pending.add obj u in add_only (S n) obj' u').
    rewrite pending_add.
    unfold Pending.merge, Pending.find in *. rewrite incoming_id, Hcur, Hq.
    erewrite IH; [|done|].
    2:{ unfold Pending.find. cbn [flushed]. by apply find_merge_object. }
    cbn [flushed]. by rewrite incoming_twice, merge_object_twice.
Qed.

(** ... and the calls on a key that has none queue one INSERT each. *)
Lemma add_only_new n obj u :
  Pending.find (o_id obj) u = None ->
  add_only (S n) obj u
  = (incoming obj (flushed u),
     mkUnitOfWork (flushed u)
       (pending u ++ repeat (incoming obj (flushed u)) (S n))).
Proof.
  revert obj u. induction n as [|n IH]; intros obj u Hnew.
  - cbn [add_only]. rewrite pending_add.
    unfold Pending.merge, Pending.find in *.
    by rewrite incoming_id, Hnew.
  - change (add_only (S (S n)) obj u)
      with (let '(obj', u') := Pending.add obj u in add_only (S n) obj' u').
    rewrite pending_add.
    unfold Pending.merge, Pending.find in *. rewrite incoming_id, Hnew.
    rewrite IH by (unfold Pending.find; cbn [flushed]; by rewrite incoming_id).
    cbn [flushed pending]. rewrite incoming_new_twice by done.
    by rewrite <- app_assoc.
Qed.

(** C7, as the code has it.  On a session with nothing in the queue,
    [add] and [commit] of a snapshot, [n >= 1] times, succeed and leave the
    store, and so the row, exactly as doing so once leaves them: nothing
    is queued, everything is committed, the row under the id has the api,
    document and language of the snapshot and the flag that [add] gives
    it, and no other row has changed.  Snapshots of the same id that come
    later and omit [expanded], each added and committed, leave the flag of
    that row as it is.  With one [commit] after [n] calls of [add] the
    row is the same when the id had a row before; when the id is new and
    [n >= 2], the calls queue one INSERT each for the same primary key and
    the [commit] raises [IntegrityError]. *)
Theorem add_idempotent (n : nat) (o : CrawledObject)
    (later : list CrawledObject) (u : UnitOfWork) :
  (1 <= n)%nat ->
  pending u = [] ->
  Forall (fun o' => o_id o' = o_id o /\ o_expanded o' = None) later ->
  exists o1 u1 row,
    add_n 1 o u = Ok (o1, u1) /\
    add_n n o u = Ok (o1, u1) /\
    pending u1 = [] /\
    durable (flushed u1) = view (flushed u1) /\
    Pending.find (o_id o) u1 = Some row /\
    o_api row = o_api o /\
    o_document row = o_document o /\
    o_detected_lang row = o_detected_lang o /\
    (o_api o = TwitterUser ->
     o_expanded row =
     match Pending.find (o_id o) u with
     | None => Some false
     | Some cur => o_expanded cur
     end) /\
    (o_api o <> TwitterUser ->
     o_expanded row =
     match o_expanded o, Pending.find (o_id o) u with
     | Some b, _ => Some b
     | None, None => Some false
     | None, Some cur => o_expanded cur
     end) /\
    (forall id, id <> o_id o -> Pending.find id u1 = Pending.find id u) /\
    (exists u2 row2,
       add_all later u1 = Ok u2 /\
       pending u2 = [] /\
       Pending.find (o_id o) u2 = Some row2 /\
       data (durable (flushed u2)) !! o_id o = Some row2 /\
       o_expanded row2 = o_expanded row) /\
    (is_Some (Pending.find (o_id o) u) -> add_then_commit n o u = Ok u1) /\
    (Pending.find (o_id o) u = None -> (2 <= n)%nat ->
     add_then_commit n o u = Raise "IntegrityError").
Proof.
  intros Hn Hq Hlater.
  set (s := flushed u). set (o1 := incoming o s).
  set (u1 := mkUnitOfWork (commit (merge_object o1 s)) []).
  assert (Hrow : Pending.find (o_id o) u1 = Some (merged_row o1 s)).
  { unfold Pending.find, u1; cbn [flushed].
    change (find (o_id o) (merge_object o1 s) = Some (merged_row o1 s)).
    apply find_merge_object. symmetry. apply incoming_id. }
  destruct (merged_row_incoming o s) as (Hapi & Hdoc & Hlang & Huser & Hother).
  exists o1, u1, (merged_row o1 s).
  split; [by rewrite add_n_succ, add_commit_flushed|].
  split; [destruct n as [|n]; [lia|]; by rewrite add_n_succ, add_commit_flushed|].
  split; [done|]. split; [done|]. split; [exact Hrow|].
  split; [exact Hapi|]. split; [exact Hdoc|]. split; [exact Hlang|].
  split; [exact Huser|]. split; [exact Hother|].
  split; [|split; [|split]].
  - intros id Hne. unfold Pending.find, u1; cbn [flushed].
    change (find id (merge_object o1 s) = find id s).
    apply find_merge_object_ne. unfold o1. by rewrite incoming_id.
  - by apply (add_all_keeps_flag (o_id o) later u1 (merged_row o1 s)).
  - intros [cur Hcur]. destruct n as [|n]; [lia|].
    unfold add_then_commit. by rewrite (add_only_existing n o u cur).
  - intros Hnew Hn2. destruct n as [|[|n]]; [lia|lia|].
    unfold add_then_commit. rewrite add_only_new by done. rewrite Hq.
    unfold Pending.commit, Pending.find in *.
    cbn [snd pending flushed app repeat Pending.flush].
    fold s. fold o1.
    assert (Hid : o_id o1 = o_id o) by apply incoming_id.
    change (find (o_id o) s = None) in Hnew. rewrite Hid, Hnew.
    by rewrite (find_merge_object (o_id o) o1 s (eq_sym Hid)).
Qed.

Lemma add_idempotent_witness :
  exists o1 u1 row,
    add_n 1 ex_user_expanded empty_unit = Ok (o1, u1) /\
    add_n 3 ex_user_expanded empty_unit = Ok (o1, u1) /\
    pending u1 = [] /\
    durable (flushed u1) = view (flushed u1) /\
    Pending.find (o_id ex_user_expanded) u1 = Some row /\
    o_api row = o_api ex_user_expanded /\
    o_document row = o_document ex_user_expanded /\
    o_detected_lang row = o_detected_lang ex_user_expanded /\
    (o_api ex_user_expanded = TwitterUser ->
     o_expanded row =
     match Pending.find (o_id ex_user_expanded) empty_unit with
     | None => Some false
     | Some cur => o_expanded cur
     end) /\
    (o_api ex_user_expanded <> TwitterUser ->
     o_expanded row =
     match o_expanded ex_user_expanded,
           Pending.find (o_id ex_user_expanded) empty_unit with
     | Some b, _ => Some b
     | None, None => Some false
     | None, Some cur => o_expanded cur
     end) /\
    (forall id, id <> o_id ex_user_expanded ->
                Pending.find id u1 = Pending.find id empty_unit) /\
    (exists u2 row2,
       add_all [set_expanded None ex_user_expanded] u1 = Ok u2 /\
       pending u2 = [] /\
       Pending.find (o_id ex_user_expanded) u2 = Some row2 /\
       data (durable (flushed u2)) !! o_id ex_user_expanded = Some row2 /\
       o_expanded row2 = o_expanded row) /\
    (is_Some (Pending.find (o_id ex_user_expanded) empty_unit) ->
     add_then_commit 3 ex_user_expanded empty_unit = Ok u1) /\
    (Pending.find (o_id ex_user_expanded) empty_unit = None -> (2 <= 3)%nat ->
     add_then_commit 3 ex_user_expanded empty_unit = Raise "IntegrityError").
Proof.
  apply (add_idempotent 3 ex_user_expanded [set_expanded None ex_user_expanded]
           empty_unit).
  - lia.
  - reflexivity.
  - repeat constructor.
Defined.

(** C7 fails as stated: two calls of [add] with a snapshot whose id is new
    leave two INSERTs for the same primary key in the queue, and the
    [commit] raises; nothing is stored.  One call and its [commit] store
    the row, and so do two calls with a [commit] after each. *)
Lemma add_idempotent_counterexample :
  Pending.find "Twitter::user::42" empty_unit = None /\
  pending (add_only 2 ex_user_expanded empty_unit).2
  = [set_expanded (Some false) ex_user_expanded;
     set_expanded (Some false) ex_user_expanded] /\
  add_then_commit 2 ex_user_expanded empty_unit = Raise "IntegrityError" /\
  (u1 ← add_then_commit 1 ex_user_expanded empty_unit;
   mret (Pending.find "Twitter::user::42" u1))
  = Ok (Some (set_expanded (Some false) ex_user_expanded)) /\
  ('(_, u1) ← add_n 2 ex_user_expanded empty_unit;
   mret (Pending.find "Twitter::user::42" u1))
  = Ok (Some (set_expanded (Some false) ex_user_expanded)).
Proof. vm_compute. done. Qed.

End RawStore.

(** ** Restoring the cursors *)

Section Restore.

Import CrawledDataStore.

Lemma restore_query_id q s : q_id (restore_query q s).1 = q_id q.
Proof.
  unfold restore_query; simpl.
  destruct (find_metadata (q_id q) s); simpl;
    repeat (match goal with |- context [if ?b then _ else _] => destruct b end);
    reflexivity.
Qed.

(** A record that exists is not touched by the restore of any query. *)
Lemma restore_query_keeps_record q s id qm :
  find_metadata id s = Some qm ->
  find_metadata id (restore_query q s).2 = Some qm.
Proof.
  intros Hqm. unfold restore_query; simpl.
  destruct (find_metadata (q_id q) s) eqn:Hq; simpl; [done|].
  unfold find_metadata, commit, merge_metadata; simpl.
  rewrite lookup_insert_ne; [done|].
  intros Heq. unfold find_metadata in *.
  repeat (match goal with
          | H : context [if ?b then _ else _] |- _ => destruct b
          end); simpl in *; congruence.
Qed.

Lemma restore_queries_cons q qs s :
  restore_queries (q :: qs) s =
  ((restore_query q s).1 :: (restore_queries qs (restore_query q s).2).1,
   (restore_queries qs (restore_query q s).2).2).
Proof.
  cbn [restore_queries].
  destruct (restore_query q s) as [q' s1]; cbn [fst snd].
  by destruct (restore_queries qs s1).
Qed.

Lemma restore_queries_keeps_record qs s id qm :
  find_metadata id s = Some qm ->
  find_metadata id (restore_queries qs s).2 = Some qm.
Proof.
  revert s. induction qs as [|q qs IH]; intros s Hqm; [done|].
  rewrite restore_queries_cons; cbn [snd].
  by apply IH, restore_query_keeps_record.
Qed.

Lemma restore_query_found q s qm :
  find_metadata (q_id q) s = Some qm -> (restore_query q s).2 = s.
Proof. intros Hqm. unfold restore_query; simpl. by rewrite Hqm. Qed.

(** The restored query depends on the store through its record only. *)
Lemma restore_query_same_record q s1 s2 qm :
  find_metadata (q_id q) s1 = Some qm ->
  find_metadata (q_id q) s2 = Some qm ->
  (restore_query q s1).1 = (restore_query q s2).1.
Proof. intros H1 H2. unfold restore_query; simpl. by rewrite H1, H2. Qed.

Lemma restore_queries_lookup qs s i q qm :
  qs !! i = Some q ->
  find_metadata (q_id q) s = Some qm ->
  (restore_queries qs s).1 !! i = Some (restore_query q s).1.
Proof.
  revert s i. induction qs as [|q0 qs IH]; intros s i Hi Hqm; [done|].
  rewrite restore_queries_cons; cbn [fst].
  destruct i as [|i].
  - injection Hi as ->. done.
  - change ((restore_queries qs (restore_query q0 s).2).1 !! i
            = Some (restore_query q s).1).
    pose proof (restore_query_keeps_record q0 s _ _ Hqm) as Hk.
    rewrite (IH _ i Hi Hk). f_equal.
    by apply restore_query_same_record with qm.
Qed.

(** What [restore_query] makes of a query whose record is [qm]. *)
Lemma restore_query_record q s qm :
  find_metadata (q_id q) s = Some qm ->
  (q_since_id q = PyStr "undefined" ->
   q_max_id q = PyStr "undefined" ->
   qm_max_id qm <> PyNone ->
   q_since_id (restore_query q s).1 = qm_since_id qm /\
   q_max_id (restore_query q s).1 = qm_max_id qm) /\
  (q_max_id q <> PyStr "undefined" -> q_max_id (restore_query q s).1 = PyNone).
Proof.
  intros Hqm. unfold restore_query; cbn [to_metadata qm_id].
  rewrite Hqm; cbn [fst]. destruct q as [id text since_id max_id]; simpl.
  split.
  - intros -> -> Hnn; simpl. destruct (qm_max_id qm); simpl; done.
  - intros Hne. destruct max_id as [|m|m]; simpl; try done.
    case_bool_decide as Hu; simpl; [congruence|done].
Qed.

(** What the restore does for a query of a task whose id has a persisted
    record [(S, M)]: the record stays as it is; with both task-supplied
    fields ['undefined'] and [M] not null the restored cursor is [(S, M)],
    so a persisted [max_id] of ['finished'] is restored as ['finished']; a
    task-supplied [max_id] other than ['undefined'] is reset to [None]. *)
Lemma restore_when_max_id_persisted (task : CrawlTask) (s : Session)
    (i : nat) (q : Query) (qm : QueryMetadata) :
  t_queries task !! i = Some q ->
  find_metadata (q_id q) s = Some qm ->
  exists q',
    t_queries (restore_query_metadata task s).1 !! i = Some q' /\
    find_metadata (q_id q) (restore_query_metadata task s).2 = Some qm /\
    (q_since_id q = PyStr "undefined" ->
     q_max_id q = PyStr "undefined" ->
     qm_max_id qm <> PyNone ->
     q_since_id q' = qm_since_id qm /\ q_max_id q' = qm_max_id qm) /\
    (q_since_id q = PyStr "undefined" ->
     q_max_id q = PyStr "undefined" ->
     qm_max_id qm = PyStr "finished" ->
     q_max_id q' = PyStr "finished") /\
    (q_max_id q <> PyStr "undefined" -> q_max_id q' = PyNone).
Proof.
  intros Hi Hqm.
  pose proof (restore_queries_lookup _ _ _ _ _ Hi Hqm) as Hl.
  pose proof (restore_queries_keeps_record (t_queries task) _ _ _ Hqm) as Hf.
  destruct (restore_query_record q s qm Hqm) as [Hboth Hexplicit].
  unfold restore_query_metadata.
  destruct (restore_queries (t_queries task) s) as [qs' s'] eqn:Hr;
    cbn [fst snd t_queries set_queries] in *.
  exists (restore_query q s).1. split; [done|]. split; [done|].
  split; [done|]. split; [|done].
  intros Hs Hm Hfin. destruct (Hboth Hs Hm) as [_ ->]; [|done].
  by rewrite Hfin.
Qed.

Lemma restore_when_max_id_persisted_example :
  exists q',
    t_queries (restore_query_metadata
                 (ex_task [ex_query (PyStr "undefined") (PyStr "undefined")])
                 (meta_store (PyStr "5") (PyStr "finished"))).1 !! 0%nat
    = Some q' /\
    find_metadata "t::q"
      (restore_query_metadata
         (ex_task [ex_query (PyStr "undefined") (PyStr "undefined")])
         (meta_store (PyStr "5") (PyStr "finished"))).2
    = Some (mkQueryMetadata "t::q" (PyStr "5") (PyStr "finished")) /\
    (PyStr "undefined" = PyStr "undefined" ->
     PyStr "undefined" = PyStr "undefined" ->
     PyStr "finished" <> PyNone ->
     q_since_id q' = PyStr "5" /\ q_max_id q' = PyStr "finished") /\
    (PyStr "undefined" = PyStr "undefined" ->
     PyStr "undefined" = PyStr "undefined" ->
     PyStr "finished" = PyStr "finished" ->
     q_max_id q' = PyStr "finished") /\
    (PyStr "undefined" <> PyStr "undefined" -> q_max_id q' = PyNone).
Proof.
  apply (restore_when_max_id_persisted
           (ex_task [ex_query (PyStr "undefined") (PyStr "undefined")])
           (meta_store (PyStr "5") (PyStr "finished")) 0
           (ex_query (PyStr "undefined") (PyStr "undefined"))
           (mkQueryMetadata "t::q" (PyStr "5") (PyStr "finished"))).
  - reflexivity.
  - vm_compute. reflexivity.
Defined.

(** C1 does not hold of the code.  With the record [("5", null)] that an
    incremental crawl leaves and both task fields ['undefined'], as the
    project builds them, the restored cursor is [('undefined', None)], not
    [("5", null)]: the persisted [since_id] is lost.  With a record
    [("5", "50")], a task-supplied [max_id] of ["100"] does not override it:
    the restored [max_id] is [None].  With a record whose [max_id] is
    ['finished'] and a task-supplied [since_id] of ["7"], the restored
    [max_id] is [None].  And an incremental run from an empty store commits
    the record [("100", null)], from which the next process restores
    [('undefined', None)]. *)
Theorem restore_loses_persisted_cursor :
  t_queries (restore_query_metadata
               (ex_task [ex_query (PyStr "undefined") (PyStr "undefined")])
               (meta_store (PyStr "5") PyNone)).1
  = [ex_query (PyStr "undefined") PyNone] /\
  t_queries (restore_query_metadata
               (ex_task [ex_query (PyStr "undefined") (PyStr "100")])
               (meta_store (PyStr "5") (PyStr "50"))).1
  = [ex_query (PyStr "undefined") PyNone] /\
  t_queries (restore_query_metadata
               (ex_task [ex_query (PyStr "7") (PyStr "undefined")])
               (meta_store (PyStr "5") (PyStr "finished"))).1
  = [ex_query (PyStr "7") PyNone] /\
  query_metadata (view (reopen (db incremental_run.2))) !! "t::q"
  = Some (mkQueryMetadata "t::q" (PyStr "100") PyNone) /\
  t_queries (restore_query_metadata ex_project_task
               (reopen (db incremental_run.2))).1
  = [ex_query (PyStr "undefined") PyNone].
Proof. vm_compute. done. Qed.

End Restore.

(** ** Running computations *)

Lemma bind_ok {A B : Type} (m : M A) (f : A -> M B) w a w1 :
  m w = (Ok a, w1) -> (m ≫= f) w = f a w1.
Proof. intros H. unfold mbind, M_bind. by rewrite H. Qed.

Lemma bind_raise {A B : Type} (m : M A) (f : A -> M B) w e w1 :
  m w = (Raise e, w1) -> (m ≫= f) w = (Raise e, w1).
Proof. intros H. unfold mbind, M_bind. by rewrite H. Qed.

(** ** Events of a computation *)

Section Emits.

Context {P : event -> Prop}.

Lemma emits_ret {A : Type} (a : A) : emits P (mret a).
Proof. intros w. exists []. by rewrite app_nil_r. Qed.

Lemma emits_lift {A : Type} (o : outcome A) : emits P (lift o).
Proof. intros w. exists []. by rewrite app_nil_r. Qed.

Lemma emits_bind {A B : Type} (m : M A) (f : A -> M B) :
  emits P m -> (forall a, emits P (f a)) -> emits P (m ≫= f).
Proof.
  intros Hm Hf w. destruct (Hm w) as (evs & Htr & Hevs).
  unfold mbind, M_bind. destruct (m w) as [[a|e] w1]; simpl in *.
  - destruct (Hf a w1) as (evs' & Htr' & Hevs').
    exists (evs ++ evs'). rewrite Htr', Htr, app_assoc.
    split; [done|]. by apply Forall_app.
  - by exists evs.
Qed.

Lemma emits_emit e : P e -> emits P (emit e).
Proof. intros He w. exists [e]. split; [done|]. by constructor. Qed.

Lemma emits_modify_db f : emits P (modify_db f).
Proof. intros w. exists []. by rewrite app_nil_r. Qed.

Lemma emits_get_db : emits P get_db.
Proof. intros w. exists []. by rewrite app_nil_r. Qed.

Lemma emits_db_add obj : emits P (db_add obj).
Proof.
  intros w. exists []. unfold db_add.
  destruct (CrawledDataStore.add obj (db w)). by rewrite app_nil_r.
Qed.

Lemma emits_db_commit site : P (EvCommit site) -> emits P (db_commit site).
Proof.
  intros He. apply emits_bind; [apply emits_modify_db|].
  intros _. by apply emits_emit.
Qed.

End Emits.

(** ** Least and greatest id of a batch *)

Lemma foldl_min_spec (n : Z) (l : list Z) :
  foldl Z.min n l ∈ n :: l /\ (forall i, i ∈ n :: l -> foldl Z.min n l <= i).
Proof.
  revert n. induction l as [|x l IH]; intros n; simpl.
  - split; [apply elem_of_cons; by left|].
    intros i Hi. apply list_elem_of_singleton in Hi. lia.
  - destruct (IH (Z.min n x)) as [Hin Hle]. split.
    + apply elem_of_cons in Hin as [Heq|Hin].
      * rewrite Heq. destruct (Z.min_spec n x) as [[_ ->]|[_ ->]].
        { apply elem_of_cons; by left. }
        { apply elem_of_cons; right; apply elem_of_cons; by left. }
      * do 2 (apply elem_of_cons; right). done.
    + intros i Hi.
      assert (foldl Z.min (Z.min n x) l <= Z.min n x)
        by (apply Hle, elem_of_cons; by left).
      apply elem_of_cons in Hi as [->|Hi]; [lia|].
      apply elem_of_cons in Hi as [->|Hi]; [lia|].
      apply Hle, elem_of_cons. by right.
Qed.

Lemma foldl_max_spec (n : Z) (l : list Z) :
  foldl Z.max n l ∈ n :: l /\ (forall i, i ∈ n :: l -> i <= foldl Z.max n l).
Proof.
  revert n. induction l as [|x l IH]; intros n; simpl.
  - split; [apply elem_of_cons; by left|].
    intros i Hi. apply list_elem_of_singleton in Hi. lia.
  - destruct (IH (Z.max n x)) as [Hin Hle]. split.
    + apply elem_of_cons in Hin as [Heq|Hin].
      * rewrite Heq. destruct (Z.max_spec n x) as [[_ ->]|[_ ->]].
        { apply elem_of_cons; right; apply elem_of_cons; by left. }
        { apply elem_of_cons; by left. }
      * do 2 (apply elem_of_cons; right). done.
    + intros i Hi.
      assert (Z.max n x <= foldl Z.max (Z.max n x) l)
        by (apply Hle, elem_of_cons; by left).
      apply elem_of_cons in Hi as [->|Hi]; [lia|].
      apply elem_of_cons in Hi as [->|Hi]; [lia|].
      apply Hle, elem_of_cons. by right.
Qed.

(** ** The paginated fetcher *)

Section Fetcher.

Import TweepyCrawler.

Variable search_tweets : nat -> SearchOptions -> outcome (list Status).
Variable detect_language : string -> string.

Abbreviation process_status := (process_status detect_language).
Abbreviation process_results := (process_results detect_language).
Abbreviation next_results := (next_results search_tweets).
Abbreviation crawl_query := (crawl_query search_tweets detect_language).
Abbreviation crawl_queries := (crawl_queries search_tweets detect_language).

Lemma db_add_ok obj w :
  db_add obj w =
  (Ok (CrawledDataStore.add obj (db w)).1,
   mkWorld (CrawledDataStore.add obj (db w)).2 (trace w) (requests w) (ticks w)).
Proof. unfold db_add. by destruct (CrawledDataStore.add obj (db w)). Qed.

(** [__process_status] returns, touches no cursor record of the session
    and, unless the status is skipped, ends in a commit. *)
Lemma process_status_ok c status w :
  exists w',
    process_status c status w = (Ok tt, w') /\
    query_metadata (view (db w')) = query_metadata (view (db w)) /\
    requests w' = requests w /\ ticks w' = ticks w /\
    trace w' = trace w ++
      (if skipped c (status_lang detect_language status) then []
       else [EvCommit PerStatus]).
Proof.
  unfold TweepyCrawler.process_status.
  destruct (skipped c _).
  - eexists; split; [reflexivity|]. by rewrite app_nil_r.
  - erewrite bind_ok by apply db_add_ok.
    erewrite bind_ok by apply db_add_ok.
    eexists; split; [reflexivity|]. done.
Qed.

Lemma emits_process_status (P : event -> Prop) c st :
  P (EvCommit PerStatus) -> emits P (process_status c st).
Proof.
  intros HP. unfold TweepyCrawler.process_status.
  destruct (skipped c _); [apply emits_ret|].
  apply emits_bind; [apply emits_db_add|]; intros _.
  apply emits_bind; [apply emits_db_add|]; intros _.
  by apply emits_db_commit.
Qed.

Lemma emits_process_results (P : event -> Prop) c results m s :
  P (EvCommit PerStatus) -> emits P (process_results c results m s).
Proof.
  intros HP. revert m s. induction results as [|st rest IH]; intros m s.
  - apply emits_ret.
  - cbn [TweepyCrawler.process_results].
    apply emits_bind; [by apply emits_process_status|]; intros _.
    apply emits_bind; [apply emits_lift|]; intros [m' s']. apply IH.
Qed.

(** The events of the batch loop are commits of [__process_status]. *)
Lemma process_results_trace c results m s w :
  exists evs,
    trace (process_results c results m s w).2 = trace w ++ evs /\
    updates evs = 0%nat /\ batches evs = 0%nat.
Proof.
  destruct (emits_process_results (fun e => e = EvCommit PerStatus)
              c results m s eq_refl w) as (evs & Htr & Hevs).
  exists evs. split; [done|]. clear Htr.
  induction Hevs as [|e evs -> _ [IHu IHb]]; [done|].
  split; assumption.
Qed.

Lemma updates_app tr1 tr2 : updates (tr1 ++ tr2) = (updates tr1 + updates tr2)%nat.
Proof. unfold updates. by rewrite List.filter_app, length_app. Qed.

Lemma batches_app tr1 tr2 : batches (tr1 ++ tr2) = (batches tr1 + batches tr2)%nat.
Proof. unfold batches. by rewrite List.filter_app, length_app. Qed.

Lemma update_historical c status n :
  c_historical c = true ->
  update_next_and_since c status (PyInt n) (PyStr "finished") =
  Ok (PyInt (Z.min n (s_id status)), PyStr "finished").
Proof.
  intros Hh. unfold update_next_and_since. rewrite Hh; simpl.
  case_bool_decide; simpl; do 3 f_equal; lia.
Qed.

Lemma update_incremental c status n :
  c_historical c = false ->
  update_next_and_since c status (PyStr "finished") (PyInt n) =
  Ok (PyStr "finished", PyInt (Z.max n (s_id status))).
Proof.
  intros Hh. unfold update_next_and_since. rewrite Hh; simpl.
  case_bool_decide; simpl; do 3 f_equal; lia.
Qed.

Lemma update_first c status :
  update_next_and_since c status PyNone PyNone =
  Ok (if c_historical c
      then (PyInt (s_id status), PyStr "finished")
      else (PyStr "finished", PyInt (s_id status))).
Proof. unfold update_next_and_since. by destruct (c_historical c). Qed.

Lemma process_results_historical c results n w :
  c_historical c = true ->
  exists w',
    process_results c results (PyInt n) (PyStr "finished") w =
    (Ok (PyInt (foldl Z.min n (s_id <$> results)), PyStr "finished"), w') /\
    requests w' = requests w.
Proof.
  intros Hh. revert n w. induction results as [|st rest IH]; intros n w.
  - eexists; split; reflexivity.
  - destruct (process_status_ok c st w) as (w1 & Hps & _ & Hreq & _).
    cbn [TweepyCrawler.process_results].
    erewrite bind_ok by exact Hps.
    unfold lift at 1. erewrite bind_ok
      by (rewrite update_historical by done; reflexivity).
    destruct (IH (Z.min n (s_id st)) w1) as (w' & -> & Hreq').
    eexists; split; [reflexivity|]. congruence.
Qed.

Lemma process_results_incremental c results n w :
  c_historical c = false ->
  exists w',
    process_results c results (PyStr "finished") (PyInt n) w =
    (Ok (PyStr "finished", PyInt (foldl Z.max n (s_id <$> results))), w') /\
    requests w' = requests w.
Proof.
  intros Hh. revert n w. induction results as [|st rest IH]; intros n w.
  - eexists; split; reflexivity.
  - destruct (process_status_ok c st w) as (w1 & Hps & _ & Hreq & _).
    cbn [TweepyCrawler.process_results].
    erewrite bind_ok by exact Hps.
    unfold lift at 1. erewrite bind_ok
      by (rewrite update_incremental by done; reflexivity).
    destruct (IH (Z.max n (s_id st)) w1) as (w' & -> & Hreq').
    eexists; split; [reflexivity|]. congruence.
Qed.

(** The batch loop never raises: it returns the least id of the batch when
    crawling historically and the greatest otherwise. *)
Lemma process_results_first c st rest w :
  exists w',
    process_results c (st :: rest) PyNone PyNone w =
    (Ok (if c_historical c
         then (PyInt (foldl Z.min (s_id st) (s_id <$> rest)), PyStr "finished")
         else (PyStr "finished", PyInt (foldl Z.max (s_id st) (s_id <$> rest)))),
     w') /\
    requests w' = requests w.
Proof.
  destruct (process_status_ok c st w) as (w1 & Hps & _ & Hreq & _).
  cbn [TweepyCrawler.process_results].
  erewrite bind_ok by exact Hps.
  unfold lift at 1.
  erewrite bind_ok by (rewrite update_first; reflexivity).
  destruct (c_historical c) eqn:Hh.
  - destruct (process_results_historical c rest (s_id st) w1 Hh)
      as (w' & -> & Hreq').
    eexists; split; [reflexivity|]. congruence.
  - destruct (process_results_incremental c rest (s_id st) w1 Hh)
      as (w' & -> & Hreq').
    eexists; split; [reflexivity|]. congruence.
Qed.

Lemma next_results_trace c q w :
  exists evs,
    trace (next_results c q w).2 = trace w ++ evs /\
    updates evs = 0%nat /\
    batches evs = match (next_results c q w).1 with
                  | Ok (_ :: _) => 1%nat
                  | _ => 0%nat
                  end.
Proof.
  unfold TweepyCrawler.next_results, mbind, M_bind, lift.
  destruct (search_options c q) as [opts|e];
    [|by exists []; rewrite app_nil_r].
  unfold api_search.
  destruct (search_tweets (requests w) opts) as [[|st rest]|e].
  - by exists [EvSearch (q_id q) opts 0].
  - by exists [EvSearch (q_id q) opts (length (st :: rest))].
  - by exists [EvSearchFailed (q_id q) opts e].
Qed.

(** The loop body calls [update_query_metadata] once when the batch is not
    empty and not at all otherwise, also when the request raises. *)
Lemma crawl_query_updates c q w :
  exists evs,
    trace (crawl_query c q w).2 = trace w ++ evs /\
    updates evs = batches evs.
Proof.
  destruct (next_results_trace c q w) as (evs0 & Htr0 & Hu0 & Hb0).
  unfold TweepyCrawler.crawl_query.
  destruct (next_results c q w) as [[[|st rest]|e] w1] eqn:Hnext;
    simpl in Htr0, Hb0.
  - erewrite bind_ok by exact Hnext.
    rewrite bool_decide_false by (simpl; lia).
    exists evs0. split; [done|]. lia.
  - erewrite bind_ok by exact Hnext.
    rewrite bool_decide_true by (simpl; lia).
    destruct (process_results_first c st rest w1) as (w2 & Hpr & _).
    destruct (process_results_trace c (st :: rest) PyNone PyNone w1)
      as (evs & Htr & Hu & Hb).
    rewrite Hpr in Htr; simpl in Htr.
    erewrite bind_ok by exact Hpr.
    exists (evs0 ++ evs
            ++ [EvUpdateMeta
                  (to_metadata
                     (if c_historical c
                      then set_max_id
                             (PyInt (foldl Z.min (s_id st) (s_id <$> rest))) q
                      else set_since_id
                             (PyInt (foldl Z.max (s_id st) (s_id <$> rest))) q));
                EvCommit PerBatch; EvSleep (t_timeout (c_task c))]).
    split.
    + destruct (c_historical c); simpl; rewrite Htr, Htr0;
        by rewrite <- !app_assoc.
    + rewrite !updates_app, !batches_app, Hu, Hb, Hu0, Hb0. done.
  - erewrite bind_raise by exact Hnext.
    exists evs0. split; [done|]. lia.
Qed.

Lemma crawl_queries_updates c qs w :
  exists evs,
    trace (crawl_queries c qs w).2 = trace w ++ evs /\
    updates evs = batches evs.
Proof.
  revert w. induction qs as [|q rest IH]; intros w.
  - exists []. by rewrite app_nil_r.
  - cbn [TweepyCrawler.crawl_queries]. destruct (_has_more c q).
    + destruct (crawl_query_updates c q w) as (evs1 & Htr1 & H1).
      unfold mbind at 1, M_bind at 1.
      destruct (crawl_query c q w) as [[[q' b]|e] w1]; simpl in Htr1;
        [|by exists evs1].
      destruct (IH w1) as (evs2 & Htr2 & H2).
      unfold mbind, M_bind.
      destruct (crawl_queries c rest w1) as [[[rest' n]|e] w2]; simpl in *;
        exists (evs1 ++ evs2); rewrite Htr2, Htr1, <- app_assoc;
        (split; [done|]); rewrite updates_app, batches_app; lia.
    + destruct (IH w) as (evs & Htr & H).
      unfold mbind, M_bind.
      destruct (crawl_queries c rest w) as [[[rest' n]|e] w2]; simpl in *;
        by exists evs.
Qed.

(** C3, as the code has it.  After a non-empty batch the cursor of the
    crawled direction is the least id of the batch when crawling
    historically ([max_id]) and the greatest when crawling incrementally
    ([since_id]), the other cursor being left alone.  A batch with no
    result sets [max_id] to ['finished'] when crawling historically, and
    leaves [since_id] as it was in either direction. *)
Theorem next_cursor (c : Crawler) (q : Query) (w w1 : World)
    (results : list Status) :
  next_results c q w = (Ok results, w1) ->
  exists q' processed w2,
    crawl_query c q w = (Ok (q', processed), w2) /\
    (results <> [] ->
     if c_historical c then
       (exists m, q_max_id q' = PyInt m /\ m ∈ s_id <$> results /\
                  forall i, i ∈ s_id <$> results -> m <= i) /\
       q_since_id q' = q_since_id q
     else
       (exists m, q_since_id q' = PyInt m /\ m ∈ s_id <$> results /\
                  forall i, i ∈ s_id <$> results -> i <= m) /\
       q_max_id q' = q_max_id q) /\
    (results = [] ->
     (c_historical c = true -> q_max_id q' = PyStr "finished") /\
     q_since_id q' = q_since_id q).
Proof.
  intros Hnext. unfold TweepyCrawler.crawl_query.
  erewrite bind_ok by exact Hnext.
  destruct results as [|st rest].
  - rewrite bool_decide_false by (simpl; lia).
    do 3 eexists; split; [reflexivity|]. split; [done|].
    intros _. by destruct q.
  - rewrite bool_decide_true by (simpl; lia).
    destruct (process_results_first c st rest w1) as (w2 & Hpr & _).
    erewrite bind_ok by exact Hpr.
    destruct (c_historical c); simpl.
    + do 3 eexists; split.
      { unfold db_update_query_metadata, db_commit, sleep, emit, modify_db,
          mbind, M_bind, mret, M_ret. reflexivity. }
      split; [|done]. intros _. split; [|by destruct q].
      exists (foldl Z.min (s_id st) (s_id <$> rest)).
      split; [by destruct q|]. apply foldl_min_spec.
    + do 3 eexists; split.
      { unfold db_update_query_metadata, db_commit, sleep, emit, modify_db,
          mbind, M_bind, mret, M_ret. reflexivity. }
      split; [|done]. intros _. split; [|by destruct q].
      exists (foldl Z.max (s_id st) (s_id <$> rest)).
      split; [by destruct q|]. apply foldl_max_spec.
Qed.

(** C10.  When the fetch of a query returns an empty batch, the loop body
    only marks the in-memory query ['finished']: the session and what is
    committed stay as they were, the only event is the request, and a
    process started afterwards opens the same store.  Over a whole pass of
    [crawl] on the queries, [update_query_metadata] is called as many times
    as there were non-empty batches. *)
Theorem empty_batch_not_persisted (c : Crawler) (q : Query) (w w1 : World) :
  next_results c q w = (Ok [], w1) ->
  crawl_query c q w = (Ok (set_max_id (PyStr "finished") q, false), w1) /\
  db w1 = db w /\
  (exists opts, trace w1 = trace w ++ [EvSearch (q_id q) opts 0]) /\
  updates (trace w1) = updates (trace w) /\
  reopen (db w1) = reopen (db w) /\
  (forall qs w0,
     exists evs,
       trace (crawl_queries c qs w0).2 = trace w0 ++ evs /\
       updates evs = batches evs).
Proof.
  intros Hnext. split.
  { unfold TweepyCrawler.crawl_query. erewrite bind_ok by exact Hnext.
    reflexivity. }
  unfold TweepyCrawler.next_results, lift, mbind, M_bind in Hnext.
  destruct (search_options c q) as [opts|e]; [|done].
  unfold api_search in Hnext.
  destruct (search_tweets (requests w) opts) as [results|e] eqn:Hs; [|done].
  injection Hnext as -> <-; simpl.
  split; [done|]. split; [by exists opts|]. split; [|split; [done|]].
  - rewrite updates_app. unfold updates at 2. simpl. lia.
  - intros qs w0. apply crawl_queries_updates.
Qed.

End Fetcher.

Lemma next_cursor_witness :
  exists q' processed w2,
    TweepyCrawler.crawl_query two_results detect_en
      (ex_crawler true []) (ex_query (PyStr "undefined") (PyStr "undefined"))
      (new_world empty_store)
    = (Ok (q', processed), w2) /\
    ([ex_status 9; ex_status 4] <> [] ->
     (exists m, q_max_id q' = PyInt m /\ m ∈ [9; 4] /\
                forall i, i ∈ [9; 4] -> m <= i) /\
     q_since_id q' = PyStr "undefined") /\
    ([ex_status 9; ex_status 4] = [] ->
     (true = true -> q_max_id q' = PyStr "finished") /\
     q_since_id q' = PyStr "undefined").
Proof.
  apply (next_cursor two_results detect_en (ex_crawler true [])
           (ex_query (PyStr "undefined") (PyStr "undefined"))
           (new_world empty_store)
           (TweepyCrawler.next_results two_results (ex_crawler true [])
              (ex_query (PyStr "undefined") (PyStr "undefined"))
              (new_world empty_store)).2
           [ex_status 9; ex_status 4]).
  reflexivity.
Defined.

(** C3 fails as stated: crawling incrementally from [since_id = "5"], a
    batch with no result leaves [since_id] at ["5"]; the cursor of the
    crawled direction is not set to ['finished']. *)
Lemma next_cursor_counterexample :
  c_historical (ex_crawler false []) = false /\
  TweepyCrawler.next_results no_results (ex_crawler false [])
    (ex_query (PyStr "5") PyNone) (new_world empty_store)
  = (Ok [],
     mkWorld empty_store
       [EvSearch "t::q" (mkSearchOptions "q" 500 (Some "en") None (Some 6)) 0]
       1 0) /\
  (TweepyCrawler.crawl_query no_results detect_en (ex_crawler false [])
     (ex_query (PyStr "5") PyNone) (new_world empty_store)).1
  = Ok (ex_query (PyStr "5") (PyStr "finished"), false) /\
  q_since_id (ex_query (PyStr "5") (PyStr "finished")) <> PyStr "finished".
Proof. vm_compute. done. Qed.

Lemma empty_batch_not_persisted_witness :
  TweepyCrawler.crawl_query no_results detect_en (ex_crawler true [])
    (ex_query PyNone (PyStr "100")) (new_world (meta_store PyNone (PyStr "100")))
  = (Ok (set_max_id (PyStr "finished") (ex_query PyNone (PyStr "100")), false),
     after_empty_batch) /\
  db after_empty_batch = db (new_world (meta_store PyNone (PyStr "100"))) /\
  (exists opts,
     trace after_empty_batch =
     trace (new_world (meta_store PyNone (PyStr "100")))
     ++ [EvSearch (q_id (ex_query PyNone (PyStr "100"))) opts 0]) /\
  updates (trace after_empty_batch)
  = updates (trace (new_world (meta_store PyNone (PyStr "100")))) /\
  reopen (db after_empty_batch)
  = reopen (db (new_world (meta_store PyNone (PyStr "100")))) /\
  (forall qs w0,
     exists evs,
       trace (TweepyCrawler.crawl_queries no_results detect_en
                (ex_crawler true []) qs w0).2 = trace w0 ++ evs /\
       updates evs = batches evs).
Proof.
  apply (empty_batch_not_persisted no_results detect_en (ex_crawler true [])
           (ex_query PyNone (PyStr "100"))
           (new_world (meta_store PyNone (PyStr "100"))) after_empty_batch).
  reflexivity.
Defined.


(** ** The terminal cursor *)

Section Terminal.

Import TweepyCrawler.

Variable search_tweets : nat -> SearchOptions -> outcome (list Status).
Variable detect_language : string -> string.

(** Within a process, a historical crawl skips a query whose [max_id] is
    ['finished']: no request is issued for it and it stays as it is. *)
Lemma finished_not_fetched c q rest w :
  c_historical c = true ->
  q_max_id q = PyStr "finished" ->
  crawl_queries search_tweets detect_language c (q :: rest) w =
  ('(rest', n) ← crawl_queries search_tweets detect_language c rest;
   mret (q :: rest', n)) w.
Proof.
  intros Hh Hfin. cbn [crawl_queries].
  unfold _has_more. by rewrite Hh, Hfin.
Qed.

End Terminal.

(** C6 does not hold of the code.  In the first historical run the query
    receives one status and then an empty page, which marks it ['finished']
    in memory; what is committed is the cursor [100].  The run after a
    restart restores that cursor and issues the request with [max_id = 99]
    for the query again. *)
Theorem finished_reopened_by_later_run :
  first_run.1 = Ok true /\
  trace first_run.2 =
    [EvInvoke "t";
     EvSearch "t::q" (mkSearchOptions "q" 500 (Some "en") None None) 1;
     EvCommit PerStatus;
     EvUpdateMeta (mkQueryMetadata "t::q" PyNone (PyInt 100));
     EvCommit PerBatch; EvSleep 60; EvCommit PerRound;
     EvInvoke "t";
     EvSearch "t::q" (mkSearchOptions "q" 500 (Some "en") (Some 99) None) 0;
     EvCommit PerRound; EvClose] /\
  query_metadata (durable (db first_run.2)) !! "t::q"
  = Some (mkQueryMetadata "t::q" PyNone (PyInt 100)) /\
  later_run.1 = Ok true /\
  trace later_run.2 =
    trace first_run.2 ++
    [EvInvoke "t";
     EvSearch "t::q" (mkSearchOptions "q" 500 (Some "en") (Some 99) None) 0;
     EvCommit PerRound; EvClose].
Proof. vm_compute. done. Qed.


(** ** The driver loop *)

Section Driver.

Import TweepyCrawler.

Variable search_tweets : nat -> SearchOptions -> outcome (list Status).
Variable detect_language : string -> string.
Variable clock : nat -> Z.

Lemma emits_now : emits not_round_commit (now clock).
Proof. intros w. exists []. by rewrite app_nil_r. Qed.

Lemma emits_api_search qid opts :
  emits not_round_commit (api_search search_tweets qid opts).
Proof.
  intros w. unfold api_search.
  destruct (search_tweets (requests w) opts); eexists; split; try done;
    by constructor.
Qed.

Lemma emits_crawl_query c q :
  emits not_round_commit (crawl_query search_tweets detect_language c q).
Proof.
  unfold crawl_query.
  apply emits_bind.
  { unfold next_results. apply emits_bind; [apply emits_lift|].
    intros opts. apply emits_api_search. }
  intros results. case_bool_decide; [|apply emits_ret].
  apply emits_bind; [by apply emits_process_results|]; intros [m s].
  apply emits_bind.
  { unfold db_update_query_metadata.
    apply emits_bind; [apply emits_modify_db|]; intros _.
    by apply emits_emit. }
  intros _. apply emits_bind; [by apply emits_db_commit|]; intros _.
  apply emits_bind; [by apply emits_emit|]; intros _. apply emits_ret.
Qed.

Lemma emits_crawl_queries c qs :
  emits not_round_commit (crawl_queries search_tweets detect_language c qs).
Proof.
  induction qs as [|q rest IH]; [apply emits_ret|].
  cbn [crawl_queries]. destruct (_has_more c q).
  - apply emits_bind; [apply emits_crawl_query|]; intros [q' b].
    apply emits_bind; [apply IH|]; intros [rest' n]. apply emits_ret.
  - apply emits_bind; [apply IH|]; intros [rest' n]. apply emits_ret.
Qed.

Lemma emits_crawl c :
  emits not_round_commit (crawl search_tweets detect_language c).
Proof.
  unfold crawl. apply emits_bind; [apply emits_crawl_queries|].
  intros [qs n]. apply emits_ret.
Qed.

Lemma emits_in_timeout c : emits not_round_commit (in_timeout clock c).
Proof.
  unfold in_timeout. destruct (c_last_run c); [|apply emits_ret].
  apply emits_bind; [apply emits_now|]; intros current. apply emits_ret.
Qed.

(** A pass over the crawlers issues no commit of the driver's own. *)
Lemma emits_round historical crawlers :
  emits not_round_commit
    (CrawlerApp.round search_tweets detect_language clock historical crawlers).
Proof.
  induction crawlers as [|c rest IH]; [apply emits_ret|].
  cbn [CrawlerApp.round].
  apply emits_bind; [apply emits_in_timeout|]; intros [|].
  - apply emits_bind; [apply IH|]; intros next. apply emits_ret.
  - apply emits_bind; [by apply emits_emit|]; intros _.
    apply emits_bind; [apply emits_crawl|]; intros [c' [|]]; [|apply IH].
    apply emits_bind; [apply emits_now|]; intros current.
    apply emits_bind; [apply IH|]; intros next. apply emits_ret.
Qed.

Lemma commits_at_none evs :
  Forall not_round_commit evs -> commits_at PerRound evs = 0%nat.
Proof.
  induction 1 as [|e evs He _ IH]; [done|].
  unfold commits_at in *. simpl. unfold not_round_commit in He.
  by rewrite He.
Qed.

Lemma commits_at_app site tr1 tr2 :
  commits_at site (tr1 ++ tr2)
  = (commits_at site tr1 + commits_at site tr2)%nat.
Proof. unfold commits_at. by rewrite List.filter_app, length_app. Qed.

Lemma status_commits_balanced n : balanced (repeat (EvCommit PerStatus) n).
Proof. unfold balanced, commits_at, batches. by induction n. Qed.

Lemma balanced_app evs1 evs2 :
  balanced evs1 -> balanced evs2 -> balanced (evs1 ++ evs2).
Proof.
  unfold balanced. intros H1 H2. rewrite commits_at_app, batches_app. lia.
Qed.

Lemma adds_unchanged {A : Type} (m : M A) :
  (forall w, trace (m w).2 = trace w) -> adds balanced m.
Proof. intros Htr w. exists []. by rewrite Htr, app_nil_r. Qed.

Lemma adds_bind {A B : Type} (m : M A) (f : A -> M B) :
  adds balanced m -> (forall a, adds balanced (f a)) -> adds balanced (m ≫= f).
Proof.
  intros Hm Hf w. destruct (Hm w) as (evs & Htr & Hevs).
  unfold mbind, M_bind. destruct (m w) as [[a|e] w1]; simpl in *.
  - destruct (Hf a w1) as (evs' & Htr' & Hevs').
    exists (evs ++ evs'). rewrite Htr', Htr, app_assoc.
    split; [done|]. by apply balanced_app.
  - by exists evs.
Qed.

(** The batch loop, when it returns, has committed once for each status
    it stored and has added nothing else to the trace. *)
Lemma process_results_commits c results m s w r w' :
  process_results detect_language c results m s w = (Ok r, w') ->
  trace w' = trace w ++ repeat (EvCommit PerStatus)
                          (length (stored detect_language c results)).
Proof.
  revert m s w. induction results as [|st rest IH]; intros m s w Hrun.
  - injection Hrun as _ <-. simpl. by rewrite app_nil_r.
  - cbn [TweepyCrawler.process_results] in Hrun.
    destruct (process_status_ok detect_language c st w)
      as (w1 & Hps & _ & _ & _ & Htr1).
    erewrite bind_ok in Hrun by exact Hps.
    unfold lift at 1 in Hrun.
    destruct (update_next_and_since c st m s) as [[m' s']|e] eqn:Hup.
    2:{ erewrite bind_raise in Hrun by reflexivity. done. }
    erewrite bind_ok in Hrun by reflexivity.
    rewrite (IH _ _ _ Hrun), Htr1. unfold stored; simpl.
    destruct (skipped c (status_lang detect_language st)); simpl.
    + by rewrite app_nil_r.
    + by rewrite <- app_assoc.
Qed.

(** The body of the query loop on a non-empty batch: the commits of
    [__process_status], one for each stored status, then the update of the
    cursor record, the commit of [crawl] and the pause. *)
Lemma crawl_query_commits c q w w1 st rest :
  next_results search_tweets c q w = (Ok (st :: rest), w1) ->
  exists q' w',
    crawl_query search_tweets detect_language c q w = (Ok (q', true), w') /\
    trace w' = trace w1
               ++ repeat (EvCommit PerStatus)
                    (length (stored detect_language c (st :: rest)))
               ++ [EvUpdateMeta (to_metadata q'); EvCommit PerBatch;
                   EvSleep (t_timeout (c_task c))] /\
    durable (db w') = view (db w').
Proof.
  intros Hnext. unfold TweepyCrawler.crawl_query.
  erewrite bind_ok by exact Hnext.
  rewrite bool_decide_true by (simpl; lia).
  destruct (process_results_first detect_language c st rest w1)
    as (w2 & Hpr & _).
  pose proof (process_results_commits _ _ _ _ _ _ _ Hpr) as Htr.
  erewrite bind_ok by exact Hpr.
  destruct (c_historical c); simpl.
  - do 2 eexists. split.
    { unfold db_update_query_metadata, db_commit, sleep, emit, modify_db,
        mbind, M_bind, mret, M_ret. reflexivity. }
    simpl. split; [|done]. rewrite Htr. by rewrite <- !app_assoc.
  - do 2 eexists. split.
    { unfold db_update_query_metadata, db_commit, sleep, emit, modify_db,
        mbind, M_bind, mret, M_ret. reflexivity. }
    simpl. split; [|done]. rewrite Htr. by rewrite <- !app_assoc.
Qed.

Lemma adds_crawl_query c q :
  adds balanced (crawl_query search_tweets detect_language c q).
Proof.
  intros w.
  destruct (next_results search_tweets c q w) as [[[|st rest]|e] w1] eqn:Hnext.
  - unfold TweepyCrawler.crawl_query. erewrite bind_ok by exact Hnext.
    rewrite bool_decide_false by (simpl; lia). simpl.
    unfold TweepyCrawler.next_results, lift, mbind, M_bind in Hnext.
    destruct (search_options c q) as [opts|e]; [|done].
    unfold api_search in Hnext.
    destruct (search_tweets (requests w) opts) as [results|e]; [|done].
    injection Hnext as -> <-. by eexists.
  - destruct (crawl_query_commits c q w w1 st rest Hnext)
      as (q' & w' & -> & Htr & _). simpl.
    unfold TweepyCrawler.next_results, lift, mbind, M_bind in Hnext.
    destruct (search_options c q) as [opts|e]; [|done].
    unfold api_search in Hnext.
    destruct (search_tweets (requests w) opts) as [results|e] eqn:Hs; [|done].
    injection Hnext as -> <-. simpl in Htr.
    eexists. split; [by rewrite Htr, <- app_assoc|].
    pose proof status_commits_balanced as Hb.
    unfold balanced in *. rewrite !commits_at_app, !batches_app, Hb. done.
  - unfold TweepyCrawler.crawl_query. erewrite bind_raise by exact Hnext.
    simpl.
    unfold TweepyCrawler.next_results, lift, mbind, M_bind in Hnext.
    destruct (search_options c q) as [opts|e'].
    + unfold api_search in Hnext.
      destruct (search_tweets (requests w) opts) as [results|e'']; [done|].
      injection Hnext as _ <-. by eexists.
    + injection Hnext as _ <-. exists []. by rewrite app_nil_r.
Qed.

Lemma adds_crawl_queries c qs :
  adds balanced (crawl_queries search_tweets detect_language c qs).
Proof.
  induction qs as [|q rest IH]; [by apply adds_unchanged|].
  cbn [TweepyCrawler.crawl_queries]. destruct (_has_more c q).
  - apply adds_bind; [apply adds_crawl_query|]; intros [q' b].
    apply adds_bind; [apply IH|]; intros [rest' n]. by apply adds_unchanged.
  - apply adds_bind; [apply IH|]; intros [rest' n]. by apply adds_unchanged.
Qed.

Lemma adds_in_timeout c : adds balanced (in_timeout clock c).
Proof.
  apply adds_unchanged. intros w. unfold in_timeout.
  by destruct (c_last_run c).
Qed.

(** In a pass over the crawlers, [crawl] commits once after each non-empty
    batch and never otherwise. *)
Lemma adds_round historical crawlers :
  adds balanced
    (CrawlerApp.round search_tweets detect_language clock historical crawlers).
Proof.
  induction crawlers as [|c rest IH]; [by apply adds_unchanged|].
  cbn [CrawlerApp.round].
  apply adds_bind; [apply adds_in_timeout|]; intros [|].
  - apply adds_bind; [apply IH|]; intros next. by apply adds_unchanged.
  - apply adds_bind; [intros w; by exists [EvInvoke (t_name (c_task c))]|].
    intros _. apply adds_bind.
    { unfold crawl. apply adds_bind; [apply adds_crawl_queries|].
      intros [qs n]. by apply adds_unchanged. }
    intros [c' [|]]; [|apply IH].
    apply adds_bind; [by apply adds_unchanged|]; intros current.
    apply adds_bind; [apply IH|]; intros next. by apply adds_unchanged.
Qed.

(** C5, as the code has it.  A completed pass over a non-empty working set
    is followed by exactly one commit of the driver, issued after the pass
    and not inside it.  Inside the pass the crawlers commit as well:
    [__process_status] commits the store each time it stores a fetched
    status, so that everything it added is durable at once, and [crawl]
    commits once more after every non-empty batch, right after it updated
    the cursor record; so the pass holds as many commits of [crawl] as
    non-empty batches, and the events of a non-empty batch are one commit
    for each status stored, the update, the commit of [crawl] and the
    pause. *)
Theorem commits_of_a_round (fuel : nat) (historical : bool)
    (crawler : Crawler) (crawlers next_step : list Crawler) (w w1 : World) :
  CrawlerApp.round search_tweets detect_language clock historical
    (crawler :: crawlers) w = (Ok next_step, w1) ->
  (exists evs,
     trace w1 = trace w ++ evs /\
     commits_at PerRound evs = 0%nat /\
     commits_at PerBatch evs = batches evs) /\
  CrawlerApp.loop search_tweets detect_language clock (S fuel) historical
    (crawler :: crawlers) w
  = CrawlerApp.loop search_tweets detect_language clock fuel historical
      next_step
      (mkWorld (CrawledDataStore.commit (db w1))
               (trace w1 ++ [EvCommit PerRound]) (requests w1) (ticks w1)) /\
  (forall c status w0,
     skipped c (status_lang detect_language status) = false ->
     exists w',
       process_status detect_language c status w0 = (Ok tt, w') /\
       trace w' = trace w0 ++ [EvCommit PerStatus] /\
       durable (db w') = view (db w')) /\
  (forall c q w0 w2 st rest,
     next_results search_tweets c q w0 = (Ok (st :: rest), w2) ->
     exists q' w',
       crawl_query search_tweets detect_language c q w0 = (Ok (q', true), w') /\
       trace w' = trace w2
                  ++ repeat (EvCommit PerStatus)
                       (length (stored detect_language c (st :: rest)))
                  ++ [EvUpdateMeta (to_metadata q'); EvCommit PerBatch;
                      EvSleep (t_timeout (c_task c))] /\
       durable (db w') = view (db w')).
Proof.
  intros Hround. split; [|split; [|split]].
  - destruct (emits_round historical (crawler :: crawlers) w) as (evs & Htr & Hevs).
    destruct (adds_round historical (crawler :: crawlers) w) as (evs' & Htr' & Hb).
    rewrite Hround in Htr, Htr'. simpl in Htr, Htr'.
    assert (evs' = evs) as -> by (apply (app_inv_head (trace w)); congruence).
    exists evs. split; [done|]. split; [|done].
    by apply commits_at_none.
  - cbn [CrawlerApp.loop]. erewrite bind_ok by exact Hround.
    reflexivity.
  - intros c status w0 Hskip. unfold process_status. rewrite Hskip.
    erewrite bind_ok by apply db_add_ok.
    erewrite bind_ok by apply db_add_ok.
    eexists; split; [reflexivity|]. done.
  - intros c q w0 w2 st rest Hnext. by apply crawl_query_commits.
Qed.

End Driver.

Lemma commits_of_a_round_witness :
  (exists evs,
     trace after_first_round = trace (new_world empty_store) ++ evs /\
     commits_at PerRound evs = 0%nat /\
     commits_at PerBatch evs = batches evs) /\
  CrawlerApp.loop first_then_nothing detect_en ticking 5 true
    [ex_crawler true [ex_query PyNone PyNone]] (new_world empty_store)
  = CrawlerApp.loop first_then_nothing detect_en ticking 4 true
      next_step_after_first_round
      (mkWorld (CrawledDataStore.commit (db after_first_round))
               (trace after_first_round ++ [EvCommit PerRound])
               (requests after_first_round) (ticks after_first_round)) /\
  (forall c status w0,
     TweepyCrawler.skipped c (TweepyCrawler.status_lang detect_en status) = false ->
     exists w',
       TweepyCrawler.process_status detect_en c status w0 = (Ok tt, w') /\
       trace w' = trace w0 ++ [EvCommit PerStatus] /\
       durable (db w') = view (db w')) /\
  (forall c q w0 w2 st rest,
     TweepyCrawler.next_results first_then_nothing c q w0
     = (Ok (st :: rest), w2) ->
     exists q' w',
       TweepyCrawler.crawl_query first_then_nothing detect_en c q w0
       = (Ok (q', true), w') /\
       trace w' = trace w2
                  ++ repeat (EvCommit PerStatus)
                       (length (stored detect_en c (st :: rest)))
                  ++ [EvUpdateMeta (to_metadata q'); EvCommit PerBatch;
                      EvSleep (t_timeout (c_task c))] /\
       durable (db w') = view (db w')).
Proof.
  apply (commits_of_a_round first_then_nothing detect_en ticking 4 true
           (ex_crawler true [ex_query PyNone PyNone]) []
           next_step_after_first_round (new_world empty_store)
           after_first_round).
  vm_compute. reflexivity.
Defined.

(** C5 fails as stated: in the first pass of the historical run, which
    fetches one status, the store is committed three times, once by
    [__process_status] for the fetched status, once after the batch and
    once by the driver. *)
Lemma commits_of_a_round_counterexample :
  trace after_first_round =
    [EvInvoke "t";
     EvSearch "t::q" (mkSearchOptions "q" 500 (Some "en") None None) 1;
     EvCommit PerStatus;
     EvUpdateMeta (mkQueryMetadata "t::q" PyNone (PyInt 100));
     EvCommit PerBatch; EvSleep 60] /\
  commits (trace after_first_round ++ [EvCommit PerRound]) = 3%nat /\
  commits_at PerStatus (trace after_first_round) = 1%nat.
Proof. vm_compute. done. Qed.

(** ** The user-timeline crawler *)

Section UserCrawler.

Import TwitterUserCrawler.

Variable user_timeline : string -> list (outcome (list Status)).
Variable friends_of : string -> list (outcome (list Z)).
Variable detect_language : string -> string.
Variable language : string.

Abbreviation add_statuses := (add_statuses detect_language language).
Abbreviation timeline_pages := (timeline_pages detect_language language).
Abbreviation expand_user :=
  (expand_user user_timeline friends_of detect_language language).
Abbreviation crawl_users :=
  (crawl_users user_timeline friends_of detect_language language).

Lemma add_statuses_ok user_id page count w :
  exists count' w',
    add_statuses user_id page count w = (Ok count', w') /\
    trace w' = trace w.
Proof.
  revert count w. induction page as [|st rest IH]; intros count w.
  - by do 2 eexists.
  - cbn [TwitterUserCrawler.add_statuses]. case_bool_decide; [|apply IH].
    erewrite bind_ok by apply db_add_ok.
    destruct (IH (S count)
      (mkWorld (CrawledDataStore.add
                  (mkCrawledObject (make_crawl_id (pretty (s_id st)) true)
                     TwitterStatus None (DocStatus st) (Some user_id)
                     (if bool_decide (detect_language (s_full_text st) = "und")
                      then s_lang st
                      else detect_language (s_full_text st))) (db w)).2
               (trace w) (requests w) (ticks w)))
      as (count' & w' & -> & Htr).
    by do 2 eexists.
Qed.

(** The page loops raise nothing but what a page request raised. *)
Lemma timeline_pages_outcome user_id pages count w :
  exists r w' evs,
    timeline_pages user_id pages count w = (r, w') /\
    trace w' = trace w ++ evs /\
    (r = Ok tt \/ exists e, r = Raise e /\ Raise e ∈ pages).
Proof.
  revert count w. induction pages as [|[page|e] rest IH]; intros count w.
  - exists (Ok tt), w, []. rewrite app_nil_r. split; [done|]. split; [done|].
    by left.
  - cbn [TwitterUserCrawler.timeline_pages].
    destruct (add_statuses_ok user_id page count w) as (count' & w1 & Hadd & Htr1).
    erewrite bind_ok by exact Hadd.
    case_bool_decide.
    + exists (Ok tt), w1, []. rewrite app_nil_r. split; [done|].
      split; [done|]. by left.
    + unfold sleep. erewrite bind_ok by reflexivity.
      destruct (IH count' (mkWorld (db w1) (trace w1 ++ [EvSleep 60])
                             (requests w1) (ticks w1)))
        as (r & w' & evs & Hrun & Htr & Hres).
      exists r, w', (EvSleep 60 :: evs). split; [done|]. split.
      { rewrite Htr; simpl. rewrite Htr1, <- app_assoc. done. }
      destruct Hres as [Hok|(e & He & Hin)]; [by left|].
      right. exists e. split; [done|]. by apply elem_of_cons; right.
  - exists (Raise e), w, []. rewrite app_nil_r. split; [done|].
    split; [done|]. right. exists e. split; [done|].
    by apply elem_of_cons; left.
Qed.

Lemma friends_pages_outcome pages friends w :
  exists r w' evs,
    friends_pages pages friends w = (r, w') /\
    trace w' = trace w ++ evs /\
    ((exists all, r = Ok all) \/ exists e, r = Raise e /\ Raise e ∈ pages).
Proof.
  revert friends w. induction pages as [|[page|e] rest IH]; intros friends w.
  - exists (Ok friends), w, []. rewrite app_nil_r. split; [done|].
    split; [done|]. left. by eexists.
  - cbn [friends_pages]. unfold sleep. erewrite bind_ok by reflexivity.
    destruct (IH (friends ++ page)
                (mkWorld (db w) (trace w ++ [EvSleep 60]) (requests w) (ticks w)))
      as (r & w' & evs & Hrun & Htr & Hres).
    exists r, w', (EvSleep 60 :: evs). split; [done|]. split.
    { rewrite Htr; simpl. by rewrite <- app_assoc. }
    destruct Hres as [Hok|(e & He & Hin)]; [by left|].
    right. exists e. split; [done|]. by apply elem_of_cons; right.
  - exists (Raise e), w, []. rewrite app_nil_r. split; [done|].
    split; [done|]. right. exists e. split; [done|].
    by apply elem_of_cons; left.
Qed.

(** The [try] block for a user returns, or raises what one of its page
    requests raised; its first event is the timeline request. *)
Lemma expand_user_outcome user user_id w :
  exists r w' evs,
    expand_user user user_id w = (r, w') /\
    trace w' = trace w ++ EvTimeline user_id :: evs /\
    (r = Ok tt \/
     exists e, r = Raise e /\
               (Raise e ∈ user_timeline user_id \/
                Raise e ∈ friends_of (make_crawl_id user_id false))).
Proof.
  unfold TwitterUserCrawler.expand_user.
  erewrite bind_ok by reflexivity.
  destruct (timeline_pages_outcome user_id (user_timeline user_id) 0
              (mkWorld (db w) (trace w ++ [EvTimeline user_id])
                       (requests w) (ticks w)))
    as (r1 & w1 & evs1 & Hrun1 & Htr1 & [->|(e & -> & Hin)]); simpl in Htr1.
  2:{ erewrite bind_raise by exact Hrun1.
      exists (Raise e), w1, evs1. split; [done|].
      split; [by rewrite Htr1, <- app_assoc|].
      right. exists e. split; [done|]. by left. }
  erewrite bind_ok by exact Hrun1.
  unfold assign_row at 1. erewrite bind_ok by reflexivity.
  erewrite bind_ok by reflexivity.
  cbn [db trace requests ticks].
  match goal with
  | |- context [(friends_pages ?ps ?fs ≫= _) ?w0] =>
      destruct (friends_pages_outcome ps fs w0)
        as (r2 & w2 & evs2 & Hrun2 & Htr2 & [[all ->]|(e & -> & Hin)])
  end; simpl in Htr2.
  2:{ erewrite bind_raise by exact Hrun2.
      exists (Raise e), w2, (evs1 ++ EvFriends user_id :: evs2).
      split; [done|]. split.
      { rewrite Htr2, Htr1. by rewrite <- !app_assoc. }
      right. exists e. split; [done|]. by right. }
  erewrite bind_ok by exact Hrun2.
  unfold assign_row. erewrite bind_ok by reflexivity.
  erewrite bind_ok by apply db_add_ok.
  eexists (Ok tt), _, (evs1 ++ EvFriends user_id :: evs2 ++ [EvCommit PerUser]).
  split; [reflexivity|]. split; [|by left].
  simpl. rewrite Htr2, Htr1. by rewrite <- !app_assoc.
Qed.


Lemma handler_exits e w :
  classify e = UnknownError ->
  handler e w =
  (Raise "SystemExit",
   mkWorld (CrawledDataStore.close (db w)) (trace w ++ [EvClose; EvExit])
           (requests w) (ticks w)).
Proof.
  intros Hk. unfold handler. rewrite Hk.
  unfold mbind, M_bind, modify_db, emit, lift; simpl.
  by rewrite <- app_assoc.
Qed.

(** C9, as the code has it.  When the turn of a user that is not expanded
    comes in the loop of the user-timeline crawler, the [try] block for it
    starts with its timeline request and either returns, and the loop goes
    on with the users that remain; or raises what a page request raised.
    A failure classified as authorization or not-found is then logged as a
    warning, and nothing else happens; one classified as timeout logs the
    warning ["Timeout Error: Sleeping"] and sleeps four minutes; in both
    cases the store is left as the [try] block left it and the loop goes on
    with the users that remain.  An unclassified failure closes the store
    and exits the process.  The driver loop over the task crawlers has no
    handler: what the [crawl] of a task raises leaves the loop as it is, in
    the world it was raised in, and no later crawler is invoked. *)
Theorem user_failure_is_contained (id : string) (rest : list string)
    (user : CrawledObject) (w : World) :
  CrawledDataStore.find id (db w) = Some user ->
  o_expanded user <> Some true ->
  (exists r w1 evs,
     expand_user user (drop_string 15 (o_id user)) w = (r, w1) /\
     trace w1 = trace w ++ EvTimeline (drop_string 15 (o_id user)) :: evs /\
     match r with
     | Ok _ => crawl_users (id :: rest) w = crawl_users rest w1
     | Raise e =>
         (Raise e ∈ user_timeline (drop_string 15 (o_id user)) \/
          Raise e ∈ friends_of
                      (make_crawl_id (drop_string 15 (o_id user)) false)) /\
         match classify e with
         | UnknownError =>
             crawl_users (id :: rest) w =
             (Raise "SystemExit",
              mkWorld (CrawledDataStore.close (db w1))
                      (trace w1 ++ [EvClose; EvExit]) (requests w1) (ticks w1))
         | TransientTimeout =>
             handler e w1 =
             (Ok tt,
              mkWorld (db w1)
                      (trace w1 ++ [EvWarning "Timeout Error: Sleeping";
                                    EvSleep 240])
                      (requests w1) (ticks w1)) /\
             crawl_users (id :: rest) w =
             crawl_users rest
               (mkWorld (db w1)
                        (trace w1 ++ [EvWarning "Timeout Error: Sleeping";
                                      EvSleep 240])
                        (requests w1) (ticks w1))
         | _ =>
             handler e w1 =
             (Ok tt,
              mkWorld (db w1) (trace w1 ++ [EvWarning e])
                      (requests w1) (ticks w1)) /\
             crawl_users (id :: rest) w =
             crawl_users rest
               (mkWorld (db w1) (trace w1 ++ [EvWarning e])
                        (requests w1) (ticks w1))
         end
     end) /\
  (forall (search_tweets : nat -> SearchOptions -> outcome (list Status))
          (clock : nat -> Z) (fuel : nat) (historical : bool)
          (crawler : Crawler) (crawlers : list Crawler) (e : string)
          (w0 w1 w2 : World),
     TweepyCrawler.in_timeout clock (set_historical historical crawler) w0
     = (Ok false, w1) ->
     TweepyCrawler.crawl search_tweets detect_language
       (set_historical historical crawler)
       (mkWorld (db w1) (trace w1 ++ [EvInvoke (t_name (c_task crawler))])
                (requests w1) (ticks w1))
     = (Raise e, w2) ->
     CrawlerApp.loop search_tweets detect_language clock (S fuel) historical
       (crawler :: crawlers) w0 = (Raise e, w2)).
Proof.
  intros Hfind Hexp. split.
  2:{ intros search_tweets clock fuel historical crawler crawlers e w0 w1 w2
        Hwait Hcrawl.
      cbn [CrawlerApp.loop CrawlerApp.round].
      erewrite bind_raise; [reflexivity|].
      erewrite bind_ok by exact Hwait. cbv beta iota.
      erewrite bind_ok by reflexivity.
      erewrite bind_raise; [reflexivity|]. exact Hcrawl. }
  destruct (expand_user_outcome user (drop_string 15 (o_id user)) w)
    as (r & w1 & evs & Hrun & Htr & Hres).
  exists r, w1, evs. split; [done|]. split; [done|].
  assert (Hstep : crawl_users (id :: rest) w =
                  (try_except (expand_user user (drop_string 15 (o_id user)))
                              handler ≫= fun _ => crawl_users rest) w).
  { cbn [TwitterUserCrawler.crawl_users].
    erewrite bind_ok by reflexivity. cbn [db]. rewrite Hfind.
    by rewrite bool_decide_false. }
  destruct Hres as [->|(e & -> & Hin)].
  - rewrite Hstep. erewrite bind_ok; [reflexivity|].
    unfold try_except. by rewrite Hrun.
  - split; [done|].
    destruct (classify e) eqn:Hk.
    4:{ rewrite Hstep. erewrite bind_raise; [reflexivity|].
        unfold try_except. rewrite Hrun. by apply handler_exits. }
    1-2: assert (Hh : handler e w1 =
                      (Ok tt, mkWorld (db w1) (trace w1 ++ [EvWarning e])
                                      (requests w1) (ticks w1)))
           by (unfold handler; by rewrite Hk);
         split; [exact Hh|];
         rewrite Hstep; erewrite bind_ok; [reflexivity|];
         unfold try_except; by rewrite Hrun.
    assert (Hh : handler e w1 =
                 (Ok tt,
                  mkWorld (db w1)
                          (trace w1 ++ [EvWarning "Timeout Error: Sleeping";
                                        EvSleep 240])
                          (requests w1) (ticks w1))).
    { unfold handler. rewrite Hk.
      unfold sleep, emit, mbind, M_bind; simpl. by rewrite <- app_assoc. }
    split; [exact Hh|].
    rewrite Hstep. erewrite bind_ok; [reflexivity|].
    unfold try_except. by rewrite Hrun.
Qed.

End UserCrawler.

Lemma user_failure_is_contained_witness :
  (exists r w1 evs,
     TwitterUserCrawler.expand_user timeline_gone no_friends detect_en "en"
       (ex_user_row 1) (TwitterUserCrawler.drop_string 15 (o_id (ex_user_row 1)))
       (new_world two_users_store) = (r, w1) /\
     trace w1 =
       trace (new_world two_users_store)
       ++ EvTimeline (TwitterUserCrawler.drop_string 15 (o_id (ex_user_row 1)))
          :: evs /\
     match r with
     | Ok _ =>
         TwitterUserCrawler.crawl_users timeline_gone no_friends detect_en "en"
           ["Twitter::user::1"; "Twitter::user::2"] (new_world two_users_store)
         = TwitterUserCrawler.crawl_users timeline_gone no_friends detect_en "en"
             ["Twitter::user::2"] w1
     | Raise e =>
         (Raise e ∈ timeline_gone
                      (TwitterUserCrawler.drop_string 15 (o_id (ex_user_row 1))) \/
          Raise e ∈ no_friends
                      (make_crawl_id
                         (TwitterUserCrawler.drop_string 15 (o_id (ex_user_row 1)))
                         false)) /\
         match TwitterUserCrawler.classify e with
         | TwitterUserCrawler.UnknownError =>
             TwitterUserCrawler.crawl_users timeline_gone no_friends detect_en
               "en" ["Twitter::user::1"; "Twitter::user::2"]
               (new_world two_users_store) =
             (Raise "SystemExit",
              mkWorld (CrawledDataStore.close (db w1))
                      (trace w1 ++ [EvClose; EvExit]) (requests w1) (ticks w1))
         | TwitterUserCrawler.TransientTimeout =>
             TwitterUserCrawler.handler e w1 =
             (Ok tt,
              mkWorld (db w1)
                      (trace w1 ++ [EvWarning "Timeout Error: Sleeping";
                                    EvSleep 240])
                      (requests w1) (ticks w1)) /\
             TwitterUserCrawler.crawl_users timeline_gone no_friends detect_en
               "en" ["Twitter::user::1"; "Twitter::user::2"]
               (new_world two_users_store) =
             TwitterUserCrawler.crawl_users timeline_gone no_friends detect_en
               "en" ["Twitter::user::2"]
               (mkWorld (db w1)
                        (trace w1 ++ [EvWarning "Timeout Error: Sleeping";
                                      EvSleep 240])
                        (requests w1) (ticks w1))
         | _ =>
             TwitterUserCrawler.handler e w1 =
             (Ok tt,
              mkWorld (db w1) (trace w1 ++ [EvWarning e])
                      (requests w1) (ticks w1)) /\
             TwitterUserCrawler.crawl_users timeline_gone no_friends detect_en
               "en" ["Twitter::user::1"; "Twitter::user::2"]
               (new_world two_users_store) =
             TwitterUserCrawler.crawl_users timeline_gone no_friends detect_en
               "en" ["Twitter::user::2"]
               (mkWorld (db w1) (trace w1 ++ [EvWarning e])
                        (requests w1) (ticks w1))
         end
     end) /\
  (forall (search_tweets : nat -> SearchOptions -> outcome (list Status))
          (clock : nat -> Z) (fuel : nat) (historical : bool)
          (crawler : Crawler) (crawlers : list Crawler) (e : string)
          (w0 w1 w2 : World),
     TweepyCrawler.in_timeout clock (set_historical historical crawler) w0
     = (Ok false, w1) ->
     TweepyCrawler.crawl search_tweets detect_en
       (set_historical historical crawler)
       (mkWorld (db w1) (trace w1 ++ [EvInvoke (t_name (c_task crawler))])
                (requests w1) (ticks w1))
     = (Raise e, w2) ->
     CrawlerApp.loop search_tweets detect_en clock (S fuel) historical
       (crawler :: crawlers) w0 = (Raise e, w2)).
Proof.
  apply (user_failure_is_contained timeline_gone no_friends detect_en "en"
           "Twitter::user::1" ["Twitter::user::2"] (ex_user_row 1)
           (new_world two_users_store)).
  - vm_compute. reflexivity.
  - vm_compute. discriminate.
Defined.

(** The two kinds of failure at work on a store with two users: a timeline
    that is gone is logged and the second user is still asked for; an
    unclassified failure of the first user exits before the second. *)
Lemma user_crawl_examples :
  (TwitterUserCrawler.crawl timeline_gone no_friends detect_en "en"
     (new_world two_users_store)).1 = Ok tt /\
  trace (TwitterUserCrawler.crawl timeline_gone no_friends detect_en "en"
           (new_world two_users_store)).2 =
    [EvTimeline "1"; EvWarning "Twitter error response: status code = 404";
     EvTimeline "2"; EvWarning "Twitter error response: status code = 404"] /\
  (TwitterUserCrawler.crawl timeline_broken no_friends detect_en "en"
     (new_world two_users_store)).1 = Raise "SystemExit" /\
  trace (TwitterUserCrawler.crawl timeline_broken no_friends detect_en "en"
           (new_world two_users_store)).2 =
    [EvTimeline "1"; EvClose; EvExit].
Proof. vm_compute. done. Qed.

(** C9 fails as stated: in the driver loop over the tasks [t1] and [t2], a
    request of [t1] that is rejected as unauthorised ends the whole run;
    the crawler of [t2] is never invoked. *)
Lemma task_failure_counterexample :
  TwitterUserCrawler.classify "Twitter error response: status code = 401"
  = TwitterUserCrawler.AuthorizationError /\
  unauthorized_run.1 = Raise "Twitter error response: status code = 401" /\
  trace unauthorized_run.2 =
    [EvInvoke "t1";
     EvSearchFailed "t1::q" (mkSearchOptions "q" 500 (Some "en") None None)
       "Twitter error response: status code = 401";
     EvClose] /\
  EvInvoke "t2" ∉ trace unauthorized_run.2.
Proof.
  split; [by vm_compute|]. split; [by vm_compute|].
  assert (Htr : trace unauthorized_run.2 =
    [EvInvoke "t1";
     EvSearchFailed "t1::q" (mkSearchOptions "q" 500 (Some "en") None None)
       "Twitter error response: status code = 401";
     EvClose]) by (by vm_compute).
  split; [done|]. rewrite Htr.
  intros Hin. repeat (apply elem_of_cons in Hin as [Hin|Hin]; [done|]).
  by apply elem_of_nil in Hin.
Qed.

(** ** Merging entities *)

Section Merge.

Import AnalyticDataStore.

(** C4, as the code has it.  [Post.update] leaves the union of the two
    hashtag sets, each tag once; the incoming text when it is not [None],
    also when its content is empty, and the existing text otherwise; and
    the greater of the two favourite counts.  Ingesting a post with count
    5 and tags [{a, b}] and then a snapshot with count 3 and tags [{b, c}]
    stores count 5 and tags [{a, b, c}]. *)
Theorem Post_update_merge (self other : Post) :
  (list_to_set (p_hash_tags (Post_update self other)) : gset string)
  = list_to_set (p_hash_tags self) ∪ list_to_set (p_hash_tags other) /\
  NoDup (p_hash_tags (Post_update self other)) /\
  p_text (Post_update self other)
  = match p_text other with
    | Some t => Some t
    | None => p_text self
    end /\
  p_favorite_count (Post_update self other)
  = Z.max (p_favorite_count self) (p_favorite_count other) /\
  exists stored,
    posts (add_or_update_post (ex_post (Some (ex_doc "p")) ["b"; "c"] 3)
             (add_or_update_post (ex_post (Some (ex_doc "p")) ["a"; "b"] 5)
                empty_analytic_store)) !! "Twitter::7" = Some stored /\
    p_favorite_count stored = 5 /\
    (list_to_set (p_hash_tags stored) : gset string) = {[ "a"; "b"; "c" ]}.
Proof.
  split; [|split; [|split; [|split]]].
  - unfold Post_update; simpl. apply list_to_set_elements_L.
  - unfold Post_update; simpl. apply NoDup_elements.
  - done.
  - done.
  - unfold add_or_update_post at 2; simpl. rewrite lookup_empty.
    unfold add_or_update_post; simpl. rewrite lookup_insert_eq; simpl.
    rewrite lookup_insert_eq.
    eexists; split; [reflexivity|]. split; [done|].
    unfold Post_update; simpl. rewrite list_to_set_elements_L.
    apply set_eq. intros x.
    rewrite !elem_of_union, !elem_of_singleton.
    pose proof (not_elem_of_empty (C:=gset string) x). tauto.
Qed.

(** C4 fails as stated: an incoming text that is there but empty replaces
    the existing text. *)
Lemma Post_update_counterexample :
  content (ex_doc "") = "" /\
  p_text (Post_update (ex_post (Some (ex_doc "hello")) [] 0)
                      (ex_post (Some (ex_doc "")) [] 0))
  = Some (ex_doc "") /\
  p_text (Post_update (ex_post (Some (ex_doc "hello")) [] 0)
                      (ex_post (Some (ex_doc "")) [] 0))
  <> p_text (ex_post (Some (ex_doc "hello")) [] 0).
Proof. split; [done|]. split; [done|]. discriminate. Qed.

(** C8, as the code has it.  [User.update] keeps the existing friends list
    whenever it is not [None], also when it is the empty list, and takes
    the incoming one only when the existing one is [None]; so a populated
    list is left unchanged by a snapshot without the field. *)
Theorem User_update_friends (current_timestamp : Z) (self other : User) :
  usr_friends (User_update current_timestamp self other)
  = match usr_friends self with
    | Some friends => Some friends
    | None => usr_friends other
    end /\
  (forall friends,
     usr_friends self = Some friends -> friends <> [] ->
     usr_friends other = None ->
     usr_friends (User_update current_timestamp self other) = Some friends).
Proof.
  split.
  - unfold User_update; simpl. by destruct (usr_friends self).
  - intros friends Hself _ _. unfold User_update; simpl. by rewrite Hself.
Qed.

(** C8 fails as stated: an existing friends list that is empty is kept, the
    incoming list is not taken. *)
Lemma User_update_counterexample :
  usr_friends (User_update 1 (ex_analytic_user (Some []))
                             (ex_analytic_user (Some [1; 2])))
  = Some [] /\
  usr_friends (User_update 1 (ex_analytic_user (Some []))
                             (ex_analytic_user (Some [1; 2])))
  <> usr_friends (ex_analytic_user (Some [1; 2])).
Proof. split; [done|]. discriminate. Qed.

End Merge.

(** * Further properties of the code *)

(** ** Cursors as text *)

Section Numerals.

Lemma digit_of_pretty_N_char (d : N) :
  (d < 10)%N -> digit_of (pretty_N_char d) = Some (Z.of_N d).
Proof.
  intros Hd.
  assert (d = 0 \/ d = 1 \/ d = 2 \/ d = 3 \/ d = 4 \/ d = 5 \/ d = 6 \/ d = 7
          \/ d = 8 \/ d = 9)%N as Hcases by lia.
  repeat (destruct Hcases as [->|Hcases]; [reflexivity|]).
  by subst.
Qed.

Lemma reads_as_pretty_N_go (x : N) (s : string) (k v : Z) :
  reads_as s k v ->
  exists k', reads_as (pretty_N_go x s) k' (Z.of_N x * 10 ^ k + v).
Proof.
  revert s k v. induction (N.lt_wf_0 x) as [x _ IH]; intros s k v [Hk Hs].
  assert (x = 0 \/ 0 < x)%N as [->|Hpos] by lia.
  - exists k. rewrite pretty_N_go_0. split; [done|].
    intros acc. by rewrite Hs.
  - rewrite pretty_N_go_step by done.
    destruct (IH (x `div` 10)%N (N.div_lt x 10 Hpos eq_refl)
                (String (pretty_N_char (x `mod` 10)) s) (k + 1)
                (Z.of_N (x `mod` 10) * 10 ^ k + v)) as (k' & Hk' & Hread).
    { split; [lia|]. intros acc. cbn [digits_to_Z].
      rewrite digit_of_pretty_N_char by (apply N.mod_lt; lia).
      rewrite Hs. f_equal. rewrite Z.pow_add_r by lia. lia. }
    exists k'. split; [done|]. intros acc. rewrite Hread. f_equal.
    rewrite Z.pow_add_r by lia.
    rewrite (N.div_mod x 10) at 3 by lia.
    rewrite N2Z.inj_add, N2Z.inj_mul. simpl (Z.of_N 10). lia.
Qed.

Lemma digits_to_Z_pretty_N_go (x : N) :
  digits_to_Z 0 (pretty_N_go x "") = Some (Z.of_N x).
Proof.
  destruct (reads_as_pretty_N_go x "" 0 0) as (k' & _ & Hread).
  { split; [done|]. intros acc. simpl. f_equal. lia. }
  rewrite Hread. f_equal. lia.
Qed.

(** An unsigned numeral is read by [int_of_string] as [digits_to_Z] reads
    it. *)
Lemma int_of_string_digits (s : string) (v : Z) :
  s <> "" -> digits_to_Z 0 s = Some v -> int_of_string s = Some v.
Proof.
  destruct s as [|a r]; [done|]. intros _ Hd.
  cbn [digits_to_Z] in Hd.
  destruct (digit_of a) as [d|] eqn:Ha; [|done].
  assert (int_of_string (String a r) = digits_to_Z 0 (String a r)) as ->.
  { unfold digit_of in Ha. case_bool_decide as Hrange; [|done].
    destruct a as [[] [] [] [] [] [] [] []]; try reflexivity;
      vm_compute in Hrange; exfalso; destruct Hrange as [H1 H2];
      try (by apply H1); by apply H2. }
  cbn [digits_to_Z]. by rewrite Ha.
Qed.

Lemma pretty_positive_digits (p : positive) :
  pretty p <> "" /\ digits_to_Z 0 (pretty p) = Some (Z.pos p).
Proof.
  assert (Hd : digits_to_Z 0 (pretty p) = Some (Z.pos p)).
  { unfold pretty, pretty_positive, pretty, pretty_N.
    rewrite decide_False by done. apply digits_to_Z_pretty_N_go. }
  split; [|done]. intros Hempty. rewrite Hempty in Hd. done.
Qed.

End Numerals.

Lemma int_of_string_pretty (n : Z) : int_of_string (pretty n) = Some n.
Proof.
  destruct n as [|p|p].
  - reflexivity.
  - destruct (pretty_positive_digits p) as [Hne Hd].
    by apply int_of_string_digits.
  - destruct (pretty_positive_digits p) as [Hne Hd].
    change (pretty (Z.neg p)) with (String "-" (pretty p)).
    destruct (pretty p) as [|a r]; [done|].
    cbn [int_of_string]. by rewrite Hd.
Qed.

Lemma pretty_not_sentinel (n : Z) (s : string) :
  int_of_string s = None -> py_eq_str (column_text (PyInt n)) s = false.
Proof.
  intros Hs. simpl. apply bool_decide_false. intros Heq.
  rewrite <- Heq, int_of_string_pretty in Hs. done.
Qed.

(** X1.  A cursor that was written as an [int] comes back from the text
    column as a numeral that [int()] reads as the same number; so the
    request built from the reloaded query, and the decision whether to
    fetch it at all, are those of the query before the reload. *)
Theorem cursor_text_round_trip (c : Crawler) (q : Query) (n : Z) :
  py_int (column_text (PyInt n)) = Ok n /\
  TweepyCrawler.search_options c (reload_query q)
  = TweepyCrawler.search_options c q /\
  TweepyCrawler._has_more c (reload_query q) = TweepyCrawler._has_more c q.
Proof.
  split; [|split].
  - simpl. by rewrite int_of_string_pretty.
  - unfold TweepyCrawler.search_options, reload_query; simpl.
    destruct (c_historical c).
    + destruct (q_max_id q) as [|m|m]; try done.
      rewrite pretty_not_sentinel by done. simpl.
      by rewrite int_of_string_pretty.
    + destruct (q_since_id q) as [|m|m]; try done.
      rewrite pretty_not_sentinel by done. simpl.
      by rewrite int_of_string_pretty.
  - unfold TweepyCrawler._has_more, reload_query; simpl.
    destruct (c_historical c); [|done].
    destruct (q_max_id q) as [|m|m]; try done.
    by rewrite pretty_not_sentinel.
Qed.

(** ** Raw object ids *)

Lemma make_crawl_id_kinds (a b : string) :
  make_crawl_id a true <> make_crawl_id b false.
Proof. unfold make_crawl_id. cbn. intros Heq. by simplify_eq. Qed.

(** X2.  [make_crawl_id] is injective: two ids are equal only for the same
    native id and the same kind, so a status and a user never share a row;
    and the slice [user.id[len('Twitter::user::'):]] of the user crawler
    gives back the native id of a user row. *)
Theorem make_crawl_id_inj (a b : string) (kind_a kind_b : bool) :
  make_crawl_id a kind_a = make_crawl_id b kind_b ->
  a = b /\ kind_a = kind_b /\
  TwitterUserCrawler.drop_string 15 (make_crawl_id a false) = a.
Proof.
  intros Heq. split; [|split; [|reflexivity]].
  - destruct kind_a, kind_b; unfold make_crawl_id in Heq; cbn in Heq;
      by simplify_eq.
  - destruct kind_a, kind_b; unfold make_crawl_id in Heq; cbn in Heq;
      by simplify_eq.
Qed.

Lemma make_crawl_id_inj_witness :
  "7" = "7" /\ true = true /\
  TwitterUserCrawler.drop_string 15 (make_crawl_id "7" false) = "7".
Proof. apply (make_crawl_id_inj "7" "7" true true). reflexivity. Defined.

(** ** Restoring a project *)

Section RestoreProject.

Import CrawledDataStore.

(** X3.  For a query whose id has no cursor record, the restore turns the
    sentinel ['undefined'] into [None] in each field on its own and keeps
    any other value, adds a record holding exactly these two values, and
    commits: the whole view of the session is durable afterwards.  No
    other record and no raw object is touched. *)
Theorem restore_unseen_query (q : Query) (s : Session) :
  find_metadata (q_id q) s = None ->
  q_max_id (restore_query q s).1
  = (if py_eq_str (q_max_id q) "undefined" then PyNone else q_max_id q) /\
  q_since_id (restore_query q s).1
  = (if py_eq_str (q_since_id q) "undefined" then PyNone else q_since_id q) /\
  find_metadata (q_id q) (restore_query q s).2
  = Some (to_metadata (restore_query q s).1) /\
  durable (restore_query q s).2 = view (restore_query q s).2 /\
  data (view (restore_query q s).2) = data (view s) /\
  (forall id, id <> q_id q ->
     find_metadata id (restore_query q s).2 = find_metadata id s).
Proof.
  intros Hnone. unfold restore_query; cbn [to_metadata qm_id].
  rewrite Hnone; cbn [fst snd].
  destruct q as [id text since_id max_id]; simpl in *.
  destruct (py_eq_str max_id "undefined"); simpl;
    destruct (py_eq_str since_id "undefined");
    unfold find_metadata, commit, merge_metadata; simpl;
    (split; [done|]); (split; [done|]);
    (split; [by rewrite lookup_insert_eq|]);
    (split; [done|]); (split; [done|]);
    intros id' Hne; by rewrite lookup_insert_ne.
Qed.

Lemma restore_unseen_query_witness :
  q_max_id (restore_query (ex_query (PyStr "undefined") (PyStr "100"))
              empty_store).1
  = PyStr "100" /\
  q_since_id (restore_query (ex_query (PyStr "undefined") (PyStr "100"))
                empty_store).1
  = PyNone /\
  find_metadata "t::q"
    (restore_query (ex_query (PyStr "undefined") (PyStr "100")) empty_store).2
  = Some (to_metadata
            (restore_query (ex_query (PyStr "undefined") (PyStr "100"))
               empty_store).1) /\
  durable (restore_query (ex_query (PyStr "undefined") (PyStr "100"))
             empty_store).2
  = view (restore_query (ex_query (PyStr "undefined") (PyStr "100"))
            empty_store).2 /\
  data (view (restore_query (ex_query (PyStr "undefined") (PyStr "100"))
                empty_store).2)
  = data (view empty_store) /\
  (forall id, id <> "t::q" ->
     find_metadata id
       (restore_query (ex_query (PyStr "undefined") (PyStr "100"))
          empty_store).2
     = find_metadata id empty_store).
Proof.
  apply (restore_unseen_query (ex_query (PyStr "undefined") (PyStr "100"))
           empty_store).
  reflexivity.
Defined.

Lemma restore_query_data q s :
  data (view (restore_query q s).2) = data (view s).
Proof.
  unfold restore_query. by destruct (find_metadata _ s).
Qed.

Lemma restore_query_has_record q s :
  is_Some (find_metadata (q_id q) (restore_query q s).2).
Proof.
  destruct (find_metadata (q_id q) s) as [qm|] eqn:Hqm.
  - rewrite (restore_query_found q s qm Hqm), Hqm. by eexists.
  - pose proof (restore_query_id q s) as Hid.
    unfold restore_query in *; cbn [to_metadata qm_id] in *.
    rewrite Hqm in *; cbn [fst snd] in *.
    unfold find_metadata, commit, merge_metadata; cbn [view query_metadata].
    cbn [to_metadata qm_id]. rewrite Hid, lookup_insert_eq. by eexists.
Qed.

Lemma restore_queries_data qs s :
  data (view (restore_queries qs s).2) = data (view s).
Proof.
  revert s. induction qs as [|q qs IH]; intros s; [done|].
  rewrite restore_queries_cons; cbn [snd].
  by rewrite IH, restore_query_data.
Qed.

Lemma restore_queries_have_records qs s q :
  q ∈ qs -> is_Some (find_metadata (q_id q) (restore_queries qs s).2).
Proof.
  revert s. induction qs as [|q0 qs IH]; intros s Hin.
  { by apply elem_of_nil in Hin. }
  rewrite restore_queries_cons; cbn [snd].
  apply elem_of_cons in Hin as [->|Hin]; [|by apply IH].
  destruct (restore_query_has_record q0 s) as [qm Hqm].
  exists qm. by apply restore_queries_keeps_record.
Qed.

Lemma restore_tasks_cons task tasks s :
  Project.restore_tasks (task :: tasks) s =
  ((restore_query_metadata task s).1
   :: (Project.restore_tasks tasks (restore_query_metadata task s).2).1,
   (Project.restore_tasks tasks (restore_query_metadata task s).2).2).
Proof.
  cbn [Project.restore_tasks].
  destruct (restore_query_metadata task s) as [task' s1]; cbn [fst snd].
  by destruct (Project.restore_tasks tasks s1).
Qed.

Lemma restore_query_metadata_session task s :
  (restore_query_metadata task s).2 = (restore_queries (t_queries task) s).2.
Proof.
  unfold restore_query_metadata.
  by destruct (restore_queries (t_queries task) s).
Qed.

Lemma restore_tasks_keeps_record tasks s id qm :
  find_metadata id s = Some qm ->
  find_metadata id (Project.restore_tasks tasks s).2 = Some qm.
Proof.
  revert s. induction tasks as [|task tasks IH]; intros s Hqm; [done|].
  rewrite restore_tasks_cons; cbn [snd]. apply IH.
  rewrite restore_query_metadata_session.
  by apply restore_queries_keeps_record.
Qed.

(** X4.  Opening the crawl store of a project restores every task: no raw
    object is touched, a cursor record that existed is left exactly as it
    was, and afterwards every query of every task has a cursor record. *)
Theorem restore_tasks_records (tasks : list CrawlTask) (s : Session) :
  data (view (Project.restore_tasks tasks s).2) = data (view s) /\
  (forall id qm,
     find_metadata id s = Some qm ->
     find_metadata id (Project.restore_tasks tasks s).2 = Some qm) /\
  (forall task q,
     task ∈ tasks -> q ∈ t_queries task ->
     is_Some (find_metadata (q_id q) (Project.restore_tasks tasks s).2)).
Proof.
  split; [|split].
  - revert s. induction tasks as [|task tasks IH]; intros s; [done|].
    rewrite restore_tasks_cons; cbn [snd].
    by rewrite IH, restore_query_metadata_session, restore_queries_data.
  - intros id qm. apply restore_tasks_keeps_record.
  - revert s. induction tasks as [|task0 tasks IH]; intros s task q Htask Hq.
    { by apply elem_of_nil in Htask. }
    rewrite restore_tasks_cons; cbn [snd].
    apply elem_of_cons in Htask as [->|Htask]; [|by eapply IH].
    destruct (restore_queries_have_records (t_queries task0) s q Hq)
      as [qm Hqm].
    exists qm. apply restore_tasks_keeps_record.
    by rewrite restore_query_metadata_session.
Qed.

End RestoreProject.

(** ** Cool-down *)

(** X5.  [in_timeout] of a crawler that ran at [last_run] reads the clock
    once and compares the seconds component of the elapsed time with the
    task timeout: whole days are ignored, so [k] days and [r] seconds after
    the last run the crawler is waiting exactly when [r] is below the
    timeout, and with a timeout of a day or more it is waiting whenever
    it is asked. *)
Theorem in_timeout_seconds (clock : nat -> Z) (c : Crawler) (w : World)
    (last_run : Z) :
  c_last_run c = Some last_run ->
  exists waiting,
    TweepyCrawler.in_timeout clock c w
    = (Ok waiting, mkWorld (db w) (trace w) (requests w) (S (ticks w))) /\
    (forall k r,
       clock (ticks w) - last_run = 86400 * k + r -> 0 <= r < 86400 ->
       (waiting = true <-> r < t_timeout (c_task c))) /\
    (86400 <= t_timeout (c_task c) -> waiting = true).
Proof.
  intros Hlast. unfold TweepyCrawler.in_timeout. rewrite Hlast.
  eexists. split; [reflexivity|]. split.
  - intros k r Helapsed Hr. rewrite bool_decide_eq_true.
    replace ((clock (ticks w) - last_run) `mod` 86400) with r; [done|].
    rewrite Helapsed. apply Z.mod_unique_pos with k; lia.
  - intros Hday. apply bool_decide_eq_true.
    pose proof (Z.mod_pos_bound (clock (ticks w) - last_run) 86400). lia.
Qed.

Lemma in_timeout_seconds_witness :
  exists waiting,
    TweepyCrawler.in_timeout (fun _ => 86430) (set_last_run 0 (ex_crawler true []))
      (new_world empty_store)
    = (Ok waiting, mkWorld empty_store [] 0 1) /\
    (forall k r,
       86430 - 0 = 86400 * k + r -> 0 <= r < 86400 ->
       (waiting = true <-> r < 60)) /\
    (86400 <= 60 -> waiting = true).
Proof.
  apply (in_timeout_seconds (fun _ => 86430) (set_last_run 0 (ex_crawler true []))
           (new_world empty_store) 0).
  reflexivity.
Defined.

(** ** Storing a status *)

Section StoreStatus.

Import CrawledDataStore TweepyCrawler.

Variable detect_language : string -> string.

Abbreviation status_key status := (make_crawl_id (pretty (s_id status)) true).
Abbreviation author_key status :=
  (make_crawl_id (pretty (u_id (s_user status))) false).

(** X6.  A status that passes the language test is stored together with
    its author and committed at once: afterwards the session holds the
    status row with the status as document and the detected language, and
    the author row with the embedded user as document, whose [expanded]
    flag is the one the author had before ([False] for a new author); both
    are durable and no other row has changed.  A status that fails the
    test leaves the world as it was. *)
Theorem process_status_stores (c : Crawler) (status : Status) (w : World) :
  (skipped c (status_lang detect_language status) = true ->
   process_status detect_language c status w = (Ok tt, w)) /\
  (skipped c (status_lang detect_language status) = false ->
   exists w' row author,
     process_status detect_language c status w = (Ok tt, w') /\
     find (status_key status) (db w') = Some row /\
     o_api row = TwitterStatus /\
     o_document row = DocStatus status /\
     o_detected_lang row = status_lang detect_language status /\
     find (author_key status) (db w') = Some author /\
     o_api author = TwitterUser /\
     o_document author = DocUser (s_user status) /\
     o_expanded author
     = match find (author_key status) (db w) with
       | Some current => o_expanded current
       | None => Some false
       end /\
     durable (db w') = view (db w') /\
     (forall id, id <> status_key status -> id <> author_key status ->
        find id (db w') = find id (db w))).
Proof.
  split; intros Hskip; unfold process_status; rewrite Hskip; [done|].
  erewrite bind_ok by apply db_add_ok.
  erewrite bind_ok by apply db_add_ok.
  set (obj_s := mkCrawledObject (status_key status) TwitterStatus None
                  (DocStatus status) None (status_lang detect_language status)).
  set (obj_u := mkCrawledObject (author_key status) TwitterUser None
                  (DocUser (s_user status)) None
                  (detect_language (u_description (s_user status)))).
  cbn [db].
  assert (Hne : status_key status <> author_key status).
  { apply make_crawl_id_kinds. }
  rewrite (add_unfold obj_s (db w)); cbn [snd].
  rewrite (incoming_other obj_s) by done.
  set (s1 := merge_object obj_s (db w)).
  rewrite (add_unfold obj_u s1); cbn [snd].
  assert (Hcur : find (author_key status) s1 = find (author_key status) (db w)).
  { unfold s1. by rewrite find_merge_object_ne. }
  rewrite (incoming_user obj_u s1) by done. cbn [o_id obj_u].
  rewrite Hcur.
  set (obj_u' := set_expanded _ obj_u).
  do 3 eexists. split; [reflexivity|]. cbn [db].
  unfold commit; cbn [view durable].
  assert (Hrow : find (status_key status)
            (mkSession (view (merge_object obj_u' s1))
                       (view (merge_object obj_u' s1)))
          = Some (merged_row obj_s (db w))).
  { change (find (status_key status) (merge_object obj_u' s1)
            = Some (merged_row obj_s (db w))).
    rewrite find_merge_object_ne by done.
    unfold s1. by rewrite find_merge_object. }
  assert (Hauthor : find (author_key status)
            (mkSession (view (merge_object obj_u' s1))
                       (view (merge_object obj_u' s1)))
          = Some (merged_row obj_u' s1)).
  { change (find (author_key status) (merge_object obj_u' s1)
            = Some (merged_row obj_u' s1)).
    by rewrite find_merge_object. }
  split; [exact Hrow|].
  split; [unfold merged_row; destruct (find (o_id obj_s) (db w)); reflexivity|].
  split; [unfold merged_row; destruct (find (o_id obj_s) (db w)); reflexivity|].
  split; [unfold merged_row; destruct (find (o_id obj_s) (db w)); reflexivity|].
  split; [exact Hauthor|].
  assert (Hu : find (o_id obj_u') s1 = find (author_key status) (db w))
    by exact Hcur.
  split; [unfold merged_row; rewrite Hu;
          destruct (find (author_key status) (db w)); reflexivity|].
  split; [unfold merged_row; rewrite Hu;
          destruct (find (author_key status) (db w)); reflexivity|].
  split.
  { unfold merged_row; rewrite Hu. unfold obj_u'.
    destruct (find (author_key status) (db w)) as [cur|]; [|reflexivity].
    cbn. by destruct (o_expanded cur). }
  split; [done|].
  intros id Hs Hu'.
  change (find id (merge_object obj_u' s1) = find id (db w)).
  rewrite find_merge_object_ne by done.
  unfold s1. by rewrite find_merge_object_ne.
Qed.

End StoreStatus.

(** ** What a crawl returns *)

Section CrawlResult.

Import TweepyCrawler.

Variable search_tweets : nat -> SearchOptions -> outcome (list Status).
Variable detect_language : string -> string.

Abbreviation crawl_query := (crawl_query search_tweets detect_language).
Abbreviation crawl_queries := (crawl_queries search_tweets detect_language).
Abbreviation crawl := (crawl search_tweets detect_language).

Lemma crawl_query_shape c q w q' processed w' :
  crawl_query c q w = (Ok (q', processed), w') ->
  q_id q' = q_id q /\ q_text q' = q_text q /\
  exists evs,
    trace w' = trace w ++ evs /\
    batches evs = (if processed then 1 else 0)%nat /\
    updates evs = batches evs.
Proof.
  intros Hrun.
  destruct (next_results_trace search_tweets c q w) as (evs0 & Htr0 & Hu0 & Hb0).
  unfold TweepyCrawler.crawl_query in Hrun.
  destruct (TweepyCrawler.next_results search_tweets c q w)
    as [[[|st rest]|e] w1] eqn:Hnext; simpl in Htr0, Hb0.
  - erewrite bind_ok in Hrun by exact Hnext.
    rewrite bool_decide_false in Hrun by (simpl; lia).
    injection Hrun as <- <- <-.
    split; [done|]. split; [done|]. exists evs0. split; [done|]. lia.
  - erewrite bind_ok in Hrun by exact Hnext.
    rewrite bool_decide_true in Hrun by (simpl; lia).
    destruct (process_results_first detect_language c st rest w1)
      as (w2 & Hpr & _).
    destruct (process_results_trace detect_language c (st :: rest)
                PyNone PyNone w1) as (evs & Htr & Hu & Hb).
    rewrite Hpr in Htr; simpl in Htr.
    erewrite bind_ok in Hrun by exact Hpr.
    destruct (c_historical c); simpl in Hrun;
      unfold db_update_query_metadata, db_commit, sleep, emit, modify_db,
        mbind, M_bind, mret, M_ret in Hrun; simpl in Hrun;
      injection Hrun as <- <- <-; simpl;
      (split; [done|]); (split; [done|]);
      eexists (evs0 ++ evs ++ [EvUpdateMeta _; EvCommit PerBatch; EvSleep _]);
      (split; [rewrite Htr, Htr0; by rewrite <- !app_assoc|]);
      rewrite !updates_app, !batches_app, Hu, Hb, Hu0, Hb0; done.
  - erewrite bind_raise in Hrun by exact Hnext. done.
Qed.

Lemma crawl_queries_shape c qs w qs' n w' :
  crawl_queries c qs w = (Ok (qs', n), w') ->
  q_id <$> qs' = q_id <$> qs /\ q_text <$> qs' = q_text <$> qs /\
  exists evs,
    trace w' = trace w ++ evs /\ batches evs = n /\ updates evs = n.
Proof.
  revert w qs' n w'. induction qs as [|q rest IH]; intros w qs' n w' Hrun.
  - injection Hrun as <- <- <-. split; [done|]. split; [done|].
    exists []. by rewrite app_nil_r.
  - cbn [TweepyCrawler.crawl_queries] in Hrun.
    destruct (_has_more c q).
    + unfold mbind at 1, M_bind at 1 in Hrun.
      destruct (crawl_query c q w) as [[[q1 b]|e] w1] eqn:Hq; [|done].
      unfold mbind, M_bind in Hrun.
      destruct (crawl_queries c rest w1) as [[[rest1 n1]|e] w2] eqn:Hrest;
        [|done].
      injection Hrun as <- <- <-.
      destruct (crawl_query_shape _ _ _ _ _ _ Hq)
        as (Hid & Htext & evs1 & Htr1 & Hb1 & Hu1).
      destruct (IH _ _ _ _ Hrest) as (Hids & Htexts & evs2 & Htr2 & Hb2 & Hu2).
      split; [by rewrite !fmap_cons, Hid, Hids|].
      split; [by rewrite !fmap_cons, Htext, Htexts|].
      exists (evs1 ++ evs2). rewrite Htr2, Htr1, <- app_assoc.
      split; [done|]. rewrite updates_app, batches_app.
      destruct b; lia.
    + unfold mbind, M_bind in Hrun.
      destruct (crawl_queries c rest w) as [[[rest1 n1]|e] w2] eqn:Hrest;
        [|done].
      injection Hrun as <- <- <-.
      destruct (IH _ _ _ _ Hrest) as (Hids & Htexts & evs2 & Htr2 & Hb2 & Hu2).
      split; [by rewrite !fmap_cons, Hids|].
      split; [by rewrite !fmap_cons, Htexts|].
      by exists evs2.
Qed.

Lemma crawl_keeps_task c c' more w w' :
  crawl c w = (Ok (c', more), w') ->
  t_name (c_task c') = t_name (c_task c) /\ c_historical c' = c_historical c.
Proof.
  unfold TweepyCrawler.crawl, mbind, M_bind. intros Hrun.
  destruct (crawl_queries c (t_queries (c_task c)) w)
    as [[[qs n]|e] w1]; [|done].
  by injection Hrun as <- <- <-.
Qed.

(** X7.  A call of [crawl] that returns leaves the crawler with the same
    task, mode and last run and the same queries by id and text, in the
    same order: only cursors change.  It answers [True] exactly when at
    least one request of this call brought a non-empty batch, and it
    called [update_query_metadata] once for each such batch. *)
Theorem crawl_result (c c' : Crawler) (more : bool) (w w' : World) :
  crawl c w = (Ok (c', more), w') ->
  t_name (c_task c') = t_name (c_task c) /\
  t_timeout (c_task c') = t_timeout (c_task c) /\
  t_language (c_task c') = t_language (c_task c) /\
  c_historical c' = c_historical c /\
  c_last_run c' = c_last_run c /\
  q_id <$> t_queries (c_task c') = q_id <$> t_queries (c_task c) /\
  q_text <$> t_queries (c_task c') = q_text <$> t_queries (c_task c) /\
  exists evs,
    trace w' = trace w ++ evs /\
    (more = true <-> (0 < batches evs)%nat) /\
    updates evs = batches evs.
Proof.
  unfold TweepyCrawler.crawl, mbind, M_bind. intros Hrun.
  destruct (crawl_queries c (t_queries (c_task c)) w)
    as [[[qs n]|e] w1] eqn:Hqs; [|done].
  injection Hrun as <- <- <-.
  destruct (crawl_queries_shape _ _ _ _ _ _ Hqs)
    as (Hids & Htexts & evs & Htr & Hb & Hu).
  do 5 (split; [done|]). split; [done|]. split; [done|].
  exists evs. split; [done|]. split; [|lia].
  rewrite bool_decide_eq_true. lia.
Qed.

End CrawlResult.

Lemma crawl_result_witness :
  t_name (c_task (ex_crawler true [ex_query PyNone (PyInt 4)])) = "t" /\
  t_timeout (c_task (ex_crawler true [ex_query PyNone (PyInt 4)])) = 60 /\
  t_language (c_task (ex_crawler true [ex_query PyNone (PyInt 4)])) = Some "en" /\
  c_historical (ex_crawler true [ex_query PyNone (PyInt 4)]) = true /\
  c_last_run (ex_crawler true [ex_query PyNone (PyInt 4)]) = None /\
  q_id <$> t_queries (c_task (ex_crawler true [ex_query PyNone (PyInt 4)]))
  = ["t::q"] /\
  q_text <$> t_queries (c_task (ex_crawler true [ex_query PyNone (PyInt 4)]))
  = ["q"] /\
  exists evs,
    trace (TweepyCrawler.crawl two_results detect_en
             (ex_crawler true [ex_query PyNone PyNone])
             (new_world empty_store)).2
    = trace (new_world empty_store) ++ evs /\
    (true = true <-> (0 < batches evs)%nat) /\
    updates evs = batches evs.
Proof.
  apply (crawl_result two_results detect_en
           (ex_crawler true [ex_query PyNone PyNone])
           (ex_crawler true [ex_query PyNone (PyInt 4)]) true
           (new_world empty_store)
           (TweepyCrawler.crawl two_results detect_en
              (ex_crawler true [ex_query PyNone PyNone])
              (new_world empty_store)).2).
  vm_compute. reflexivity.
Defined.

(** ** The working set of the driver *)

Section WorkingSet.

Import TweepyCrawler.

Variable search_tweets : nat -> SearchOptions -> outcome (list Status).
Variable detect_language : string -> string.
Variable clock : nat -> Z.

Abbreviation round := (CrawlerApp.round search_tweets detect_language clock).
Abbreviation loop := (CrawlerApp.loop search_tweets detect_language clock).
Abbreviation task_names crawlers := ((fun c => t_name (c_task c)) <$> crawlers).

Lemma in_timeout_returns c w :
  exists waiting w0,
    in_timeout clock c w = (Ok waiting, w0) /\ db w0 = db w /\
    trace w0 = trace w /\ requests w0 = requests w.
Proof.
  unfold in_timeout. destruct (c_last_run c); by do 2 eexists.
Qed.

(** X8.  A pass of the driver never enlarges or reorders the working set:
    the tasks of the crawlers it keeps for the next pass are, in order,
    among those it was given, and each kept crawler runs in the mode the
    command was started in. *)
Theorem round_working_set (historical : bool) (crawlers next_step : list Crawler)
    (w w' : World) :
  round historical crawlers w = (Ok next_step, w') ->
  task_names next_step `sublist_of` task_names crawlers /\
  Forall (fun c => c_historical c = historical) next_step.
Proof.
  revert next_step w w'.
  induction crawlers as [|c rest IH]; intros next_step w w' Hrun.
  - injection Hrun as <- <-. split; constructor.
  - cbn [CrawlerApp.round] in Hrun.
    destruct (in_timeout_returns (set_historical historical c) w)
      as (waiting & w0 & Hwait & _).
    erewrite bind_ok in Hrun by exact Hwait.
    destruct waiting.
    + unfold mbind, M_bind in Hrun.
      destruct (round historical rest w0) as [[next|e] w1] eqn:Hrest; [|done].
      injection Hrun as <- <-.
      destruct (IH _ _ _ Hrest) as [Hsub Hmode].
      split; [rewrite !fmap_cons; by apply sublist_skip|].
      by constructor.
    + erewrite bind_ok in Hrun by reflexivity.
      unfold mbind at 1, M_bind at 1 in Hrun.
      destruct (crawl search_tweets detect_language
                  (set_historical historical c) _)
        as [[[c' more]|e] w1] eqn:Hcrawl; [|done].
      destruct (crawl_keeps_task _ _ _ _ _ _ _ Hcrawl) as [Hname Hhist].
      destruct more.
      * unfold mbind, M_bind, now in Hrun.
        match type of Hrun with
        | context [round historical rest ?w2] =>
            destruct (round historical rest w2) as [[next|e] w3] eqn:Hrest;
              [|done]
        end.
        injection Hrun as <- <-.
        destruct (IH _ _ _ Hrest) as [Hsub Hmode].
        split.
        { rewrite !fmap_cons. cbn [set_last_run c_task]. rewrite Hname.
          by apply sublist_skip. }
        constructor; [exact Hhist|done].
      * destruct (IH _ _ _ Hrun) as [Hsub Hmode].
        split; [rewrite fmap_cons; by apply sublist_cons|done].
Qed.

End WorkingSet.

Lemma round_working_set_witness :
  (fun c => t_name (c_task c)) <$> next_step_after_first_round
  `sublist_of`
  (fun c => t_name (c_task c)) <$> [ex_crawler true [ex_query PyNone PyNone]] /\
  Forall (fun c => c_historical c = true) next_step_after_first_round.
Proof.
  apply (round_working_set first_then_nothing detect_en ticking true
           [ex_crawler true [ex_query PyNone PyNone]]
           next_step_after_first_round (new_world empty_store)
           after_first_round).
  vm_compute. reflexivity.
Defined.

(** ** Nothing to fetch *)

Section NothingToFetch.

Import TweepyCrawler.

Variable search_tweets : nat -> SearchOptions -> outcome (list Status).
Variable detect_language : string -> string.
Variable clock : nat -> Z.

Hypothesis search_empty : forall n opts, search_tweets n opts = Ok [].

(** The cursor of the crawled direction is absent or a number. *)
Abbreviation requestable c q :=
  (_has_more c q = true -> exists opts, search_options c q = Ok opts).

Lemma crawl_queries_nothing c qs w :
  Forall (fun q => requestable c q) qs ->
  exists qs' w',
    crawl_queries search_tweets detect_language c qs w = (Ok (qs', 0%nat), w') /\
    db w' = db w /\ updates (trace w') = updates (trace w) /\
    commits (trace w') = commits (trace w).
Proof.
  intros Hqs. revert w. induction Hqs as [|q rest Hq _ IH]; intros w.
  - by do 2 eexists.
  - cbn [crawl_queries]. destruct (_has_more c q) eqn:Hmore.
    + destruct (Hq eq_refl) as [opts Hopts].
      assert (Hstep : crawl_query search_tweets detect_language c q w
                = (Ok (set_max_id (PyStr "finished") q, false),
                   mkWorld (db w) (trace w ++ [EvSearch (q_id q) opts 0])
                           (S (requests w)) (ticks w))).
      { unfold crawl_query, next_results, lift, api_search, mbind, M_bind.
        rewrite Hopts, search_empty. reflexivity. }
      erewrite bind_ok by exact Hstep.
      destruct (IH (mkWorld (db w) (trace w ++ [EvSearch (q_id q) opts 0])
                      (S (requests w)) (ticks w)))
        as (qs' & w' & Hrest & Hdb & Hu & Hc).
      erewrite bind_ok by exact Hrest.
      do 2 eexists. split; [reflexivity|]. split; [done|].
      cbn [trace] in Hu, Hc. split.
      * rewrite Hu, updates_app. unfold updates at 2. simpl. lia.
      * rewrite Hc. unfold commits. rewrite List.filter_app, length_app.
        simpl. lia.
    + destruct (IH w) as (qs' & w' & Hrest & Hdb & Hu & Hc).
      erewrite bind_ok by exact Hrest. by do 2 eexists.
Qed.

Lemma round_nothing historical crawlers w :
  Forall (fun c => c_last_run c = None /\
                   Forall (fun q => requestable (set_historical historical c) q)
                          (t_queries (c_task c))) crawlers ->
  exists w',
    CrawlerApp.round search_tweets detect_language clock historical crawlers w
    = (Ok [], w') /\
    db w' = db w /\ updates (trace w') = updates (trace w) /\
    commits (trace w') = commits (trace w).
Proof.
  intros Hcs. revert w. induction Hcs as [|c rest [Hlast Hqs] _ IH]; intros w.
  - by eexists.
  - cbn [CrawlerApp.round].
    assert (Hwait : in_timeout clock (set_historical historical c) w
                    = (Ok false, w)).
    { unfold in_timeout. cbn [set_historical c_last_run]. by rewrite Hlast. }
    erewrite bind_ok by exact Hwait. cbv beta iota.
    erewrite bind_ok by reflexivity.
    set (w0 := mkWorld _ _ _ _).
    destruct (crawl_queries_nothing (set_historical historical c)
                (t_queries (c_task c)) w0 Hqs)
      as (qs' & w1 & Hrun & Hdb & Hu & Hc).
    assert (Hcrawl : crawl search_tweets detect_language
                       (set_historical historical c) w0
                     = (Ok (set_task (set_queries qs' (c_task c))
                              (set_historical historical c), false), w1)).
    { unfold crawl. erewrite bind_ok by exact Hrun. reflexivity. }
    erewrite bind_ok by exact Hcrawl. cbv beta iota.
    destruct (IH w1) as (w' & Hrest & Hdb' & Hu' & Hc').
    exists w'. split; [done|]. split; [by rewrite Hdb', Hdb|].
    subst w0. cbn [trace] in Hu, Hc. split.
    + rewrite Hu', Hu, updates_app. unfold updates at 2. simpl. lia.
    + rewrite Hc', Hc. unfold commits. rewrite List.filter_app, length_app.
      simpl. lia.
Qed.

(** X9.  When the provider answers every request with an empty page, and
    the crawlers have not run before and hold cursors a request can be
    built from, the first pass retires every crawler and the driver loop
    ends: it returns after that one pass, in which no cursor record was
    updated and nothing was committed but by the driver, once, at the end
    of the pass. *)
Theorem nothing_to_fetch (fuel : nat) (historical : bool)
    (crawler : Crawler) (crawlers : list Crawler) (w : World) :
  Forall (fun c => c_last_run c = None /\
                   Forall (fun q => requestable (set_historical historical c) q)
                          (t_queries (c_task c))) (crawler :: crawlers) ->
  exists w',
    CrawlerApp.loop search_tweets detect_language clock (S fuel) historical
      (crawler :: crawlers) w = (Ok true, w') /\
    db w' = CrawledDataStore.commit (db w) /\
    updates (trace w') = updates (trace w) /\
    commits (trace w') = S (commits (trace w)) /\
    last (trace w') = Some (EvCommit PerRound).
Proof.
  intros Hcs.
  destruct (round_nothing historical (crawler :: crawlers) w Hcs)
    as (w1 & Hround & Hdb & Hu & Hc).
  cbn [CrawlerApp.loop]. erewrite bind_ok by exact Hround.
  erewrite bind_ok by reflexivity.
  destruct fuel; (eexists; split; [reflexivity|]); cbn [db trace];
    (split; [by rewrite Hdb|]); (split; [|split]).
  1, 4: rewrite updates_app, Hu; unfold updates at 2; simpl; lia.
  1, 3: unfold commits in *; rewrite List.filter_app, length_app, Hc;
    simpl; lia.
  1, 2: by rewrite last_snoc.
Qed.

End NothingToFetch.

Lemma nothing_to_fetch_witness :
  exists w',
    CrawlerApp.loop no_results detect_en ticking 3 true
      [ex_crawler true [ex_query PyNone (PyStr "100")]]
      (new_world (meta_store PyNone (PyStr "100"))) = (Ok true, w') /\
    db w' = CrawledDataStore.commit (db (new_world (meta_store PyNone (PyStr "100")))) /\
    updates (trace w') = updates (trace (new_world (meta_store PyNone (PyStr "100")))) /\
    commits (trace w') = S (commits (trace (new_world (meta_store PyNone (PyStr "100"))))) /\
    last (trace w') = Some (EvCommit PerRound).
Proof.
  apply (nothing_to_fetch no_results detect_en ticking (fun _ _ => eq_refl)
           2 true (ex_crawler true [ex_query PyNone (PyStr "100")]) []
           (new_world (meta_store PyNone (PyStr "100")))).
  repeat constructor. intros _. by eexists.
Defined.

(** ** Tasks without a crawler *)

Section NoCrawler.

Variable search_tweets : nat -> SearchOptions -> outcome (list Status).
Variable detect_language : string -> string.
Variable clock : nat -> Z.

Lemma restore_tasks_apis tasks s :
  t_api <$> (Project.restore_tasks tasks s).1 = t_api <$> tasks.
Proof.
  revert s. induction tasks as [|task tasks IH]; intros s; [done|].
  rewrite restore_tasks_cons; cbn [fst]. rewrite !fmap_cons, IH. f_equal.
  unfold CrawledDataStore.restore_query_metadata.
  by destruct (CrawledDataStore.restore_queries (t_queries task) s).
Qed.

Lemma make_crawlers_raises tasks :
  TwitterUser ∈ t_api <$> tasks ->
  CrawlerApp.make_crawlers tasks = Raise "KeyError: 'Api.TwitterUser.Crawler'".
Proof.
  induction tasks as [|task tasks IH]; intros Hin.
  { by apply elem_of_nil in Hin. }
  cbn [CrawlerApp.make_crawlers]. unfold CrawlerApp.Api_crawler.
  rewrite fmap_cons in Hin.
  destruct (t_api task) eqn:Hapi; [|done].
  apply elem_of_cons in Hin as [Heq|Hin]; [done|].
  unfold mbind, outcome_bind. by rewrite (IH Hin).
Qed.

(** X10.  The configuration names a crawler class for [TwitterStatus] only:
    when one of the tasks of the project has the api [TwitterUser], the
    [tweets] command fails with the [KeyError] of the lookup, after the
    cursors were restored and before any request is sent, and the store is
    closed. *)
Theorem user_task_has_no_crawler (fuel : nat) (historical : bool)
    (tasks : list CrawlTask) (w : World) :
  TwitterUser ∈ t_api <$> tasks ->
  (CrawlerApp.crawl search_tweets detect_language clock fuel historical
     tasks w).1 = Raise "KeyError: 'Api.TwitterUser.Crawler'" /\
  trace (CrawlerApp.crawl search_tweets detect_language clock fuel historical
           tasks w).2 = trace w ++ [EvClose] /\
  requests (CrawlerApp.crawl search_tweets detect_language clock fuel
              historical tasks w).2 = requests w /\
  view (db (CrawlerApp.crawl search_tweets detect_language clock fuel
              historical tasks w).2)
  = durable (Project.restore_tasks tasks (db w)).2.
Proof.
  intros Hin.
  assert (Hrun :
    CrawlerApp.crawl search_tweets detect_language clock fuel historical
      tasks w
    = (Raise "KeyError: 'Api.TwitterUser.Crawler'",
       CrawlerApp.close_db
         (mkWorld (Project.restore_tasks tasks (db w)).2 (trace w)
                  (requests w) (ticks w)))).
  { unfold CrawlerApp.crawl, finally, Project.crawl_db, mbind, M_bind, lift.
    pose proof (restore_tasks_apis tasks (db w)) as Hapis.
    destruct (Project.restore_tasks tasks (db w)) as [tasks' s'].
    cbn [fst snd] in *.
    by rewrite make_crawlers_raises by (by rewrite Hapis). }
  rewrite Hrun. done.
Qed.

End NoCrawler.

Lemma user_task_has_no_crawler_witness :
  (CrawlerApp.crawl no_results detect_en ticking 5 false
     [ex_task_named "t1";
      mkCrawlTask (Some "en") TwitterUser "users" 60 ∅ []]
     (new_world empty_store)).1
  = Raise "KeyError: 'Api.TwitterUser.Crawler'" /\
  trace (CrawlerApp.crawl no_results detect_en ticking 5 false
           [ex_task_named "t1";
            mkCrawlTask (Some "en") TwitterUser "users" 60 ∅ []]
           (new_world empty_store)).2
  = trace (new_world empty_store) ++ [EvClose] /\
  requests (CrawlerApp.crawl no_results detect_en ticking 5 false
              [ex_task_named "t1";
               mkCrawlTask (Some "en") TwitterUser "users" 60 ∅ []]
              (new_world empty_store)).2
  = requests (new_world empty_store) /\
  view (db (CrawlerApp.crawl no_results detect_en ticking 5 false
              [ex_task_named "t1";
               mkCrawlTask (Some "en") TwitterUser "users" 60 ∅ []]
              (new_world empty_store)).2)
  = durable (Project.restore_tasks
               [ex_task_named "t1";
                mkCrawlTask (Some "en") TwitterUser "users" 60 ∅ []]
               (db (new_world empty_store))).2.
Proof.
  apply (user_task_has_no_crawler no_results detect_en ticking 5 false
           [ex_task_named "t1";
            mkCrawlTask (Some "en") TwitterUser "users" 60 ∅ []]
           (new_world empty_store)).
  rewrite !fmap_cons. apply elem_of_cons. right. apply elem_of_cons. by left.
Defined.

(** ** Merging entities, continued *)

Section MergeMore.

Import AnalyticDataStore.

(** X11.  [User.update] never changes the id, name, screen name or
    description of the stored user; it stamps the update time, replaces
    both counters by those of the incoming snapshot whatever they are, and
    leaves a metadata map in which every key of the incoming map has the
    incoming value and every other key its stored value. *)
Theorem User_update_fields (current_timestamp : Z) (self other : User) :
  usr_id (User_update current_timestamp self other) = usr_id self /\
  usr_name (User_update current_timestamp self other) = usr_name self /\
  usr_screen_name (User_update current_timestamp self other)
  = usr_screen_name self /\
  usr_description (User_update current_timestamp self other)
  = usr_description self /\
  usr_last_updated (User_update current_timestamp self other)
  = current_timestamp /\
  usr_friend_count (User_update current_timestamp self other)
  = usr_friend_count other /\
  usr_follower_count (User_update current_timestamp self other)
  = usr_follower_count other /\
  exists merged,
    usr_user_metadata (User_update current_timestamp self other) = Some merged /\
    forall key,
      merged !! key
      = match usr_user_metadata other ≫= (fun m => m !! key) with
        | Some v => Some v
        | None => usr_user_metadata self ≫= (fun m => m !! key)
        end.
Proof.
  do 5 (split; [done|]).
  split.
  { unfold User_update; simpl. destruct (usr_friend_count self); [|done].
    case_bool_decide; congruence. }
  split.
  { unfold User_update; simpl. destruct (usr_follower_count self); [|done].
    case_bool_decide; congruence. }
  eexists. split; [reflexivity|]. intros key.
  destruct (usr_user_metadata other) as [mo|],
           (usr_user_metadata self) as [ms|]; simpl;
    rewrite ?lookup_union, ?lookup_empty;
    repeat match goal with
           | |- context [?m !! key] => destruct (m !! key)
           end; done.
Qed.

(** X12.  [Post.update] never changes the id, author, creation time, source
    or reply flag of the stored post; the favourite count never goes down
    and no hashtag is lost.  Merging two snapshots in either order leaves
    the same favourite count and the same set of hashtags, and merging a
    snapshot a second time changes neither them nor the text. *)
Theorem Post_update_algebra (p a b : Post) :
  (p_id (Post_update p a) = p_id p /\
   p_user_id (Post_update p a) = p_user_id p /\
   p_created_at (Post_update p a) = p_created_at p /\
   p_source (Post_update p a) = p_source p /\
   p_is_reply (Post_update p a) = p_is_reply p) /\
  (p_favorite_count p <= p_favorite_count (Post_update p a) /\
   tags p ⊆ tags (Post_update p a)) /\
  (p_favorite_count (Post_update (Post_update p a) b)
   = p_favorite_count (Post_update (Post_update p b) a) /\
   tags (Post_update (Post_update p a) b)
   = tags (Post_update (Post_update p b) a)) /\
  (p_favorite_count (Post_update (Post_update p a) a)
   = p_favorite_count (Post_update p a) /\
   tags (Post_update (Post_update p a) a) = tags (Post_update p a) /\
   p_text (Post_update (Post_update p a) a) = p_text (Post_update p a)).
Proof.
  assert (Htags : forall x y, tags (Post_update x y) = tags x ∪ tags y).
  { intros x y. unfold tags, Post_update; simpl.
    apply list_to_set_elements_L. }
  split; [done|]. split; [|split].
  - split; [simpl; lia|]. rewrite Htags. apply union_subseteq_l.
  - split; [simpl; lia|]. rewrite !Htags.
    rewrite <- !(assoc_L (∪)). f_equal. apply (comm_L (∪)).
  - split; [simpl; lia|]. split.
    + rewrite !Htags. rewrite <- (assoc_L (∪)). f_equal.
      apply (idemp_L (∪)).
    + simpl. by destruct (p_text a).
Qed.

Lemma add_or_update_post_lookup obj s :
  posts_keyed s ->
  posts (add_or_update_post obj s) !! p_id obj
  = Some (match posts s !! p_id obj with
          | None => obj
          | Some stored => Post_update stored obj
          end) /\
  (forall id, id <> p_id obj ->
     posts (add_or_update_post obj s) !! id = posts s !! id) /\
  users (add_or_update_post obj s) = users s /\
  posts_keyed (add_or_update_post obj s).
Proof.
  intros Hkeyed. unfold add_or_update_post.
  destruct (posts s !! p_id obj) as [stored|] eqn:Hstored; simpl.
  - pose proof (Hkeyed _ _ Hstored) as Hid. rewrite Hid.
    split; [by rewrite lookup_insert_eq|].
    split; [intros id Hne; by rewrite lookup_insert_ne|].
    split; [done|].
    intros id p. unfold posts_keyed in Hkeyed. cbn [posts].
    destruct (decide (id = p_id obj)) as [->|Hne].
    + rewrite lookup_insert_eq. intros [= <-]. simpl. congruence.
    + rewrite lookup_insert_ne by done. apply Hkeyed.
  - split; [by rewrite lookup_insert_eq|].
    split; [intros id Hne; by rewrite lookup_insert_ne|].
    split; [done|].
    intros id p. unfold posts_keyed in Hkeyed. cbn [posts].
    destruct (decide (id = p_id obj)) as [->|Hne].
    + rewrite lookup_insert_eq. intros [= <-]. simpl. congruence.
    + rewrite lookup_insert_ne by done. apply Hkeyed.
Qed.

(** X13.  In a post table whose rows are filed under their own id,
    [add_or_update] of a post files the post itself under its id when the
    id is new and the merge of the stored row with it otherwise; every
    other post and every user stay as they were, and the rows are still
    filed under their own id. *)
Theorem add_or_update_post_frame (obj : Post) (s : AnalyticStore) :
  posts_keyed s ->
  posts (add_or_update_post obj s) !! p_id obj
  = Some (match posts s !! p_id obj with
          | None => obj
          | Some stored => Post_update stored obj
          end) /\
  (forall id, id <> p_id obj ->
     posts (add_or_update_post obj s) !! id = posts s !! id) /\
  users (add_or_update_post obj s) = users s /\
  posts_keyed (add_or_update_post obj s).
Proof.
  intros Hkeyed.
  destruct (add_or_update_post_lookup obj s Hkeyed) as (H1 & H2 & H3 & H4).
  repeat split; assumption.
Qed.

End MergeMore.

Section Ingest.

Import AnalyticDataStore.

Lemma tags_Post_update x y : tags (Post_update x y) = tags x ∪ tags y.
Proof. unfold tags, Post_update; simpl. apply list_to_set_elements_L. Qed.

Lemma merges_stored (snapshots : list Post) (s : AnalyticStore)
    (id : string) (cur : Post) :
  posts_keyed s ->
  posts s !! id = Some cur ->
  Forall (fun p => p_id p = id) snapshots ->
  exists stored,
    posts (foldl (fun s p => add_or_update_post p s) s snapshots) !! id
    = Some stored /\
    p_favorite_count stored
    = foldl Z.max (p_favorite_count cur) (p_favorite_count <$> snapshots) /\
    tags stored = tags cur ∪ ⋃ (tags <$> snapshots) /\
    p_user_id stored = p_user_id cur /\
    p_created_at stored = p_created_at cur /\
    p_source stored = p_source cur /\
    p_is_reply stored = p_is_reply cur.
Proof.
  intros Hkeyed Hcur Hall. revert s cur Hkeyed Hcur.
  induction Hall as [|p rest Hp _ IH]; intros s cur Hkeyed Hcur.
  - exists cur. split; [done|]. split; [done|]. split; [|done].
    simpl. by rewrite (right_id_L ∅ (∪)).
  - cbn [foldl].
    destruct (add_or_update_post_lookup p s Hkeyed) as (Hnew & _ & _ & Hkeyed').
    rewrite Hp, Hcur in Hnew.
    destruct (IH _ _ Hkeyed' Hnew)
      as (stored & Hst & Hfav & Htags & Hu & Hc & Hs & Hr).
    exists stored. split; [done|].
    split; [by rewrite Hfav|].
    split; [|done].
    rewrite Htags, tags_Post_update, fmap_cons. simpl.
    by rewrite (assoc_L (∪)).
Qed.

(** With nothing in the queue, [add_or_update] and [commit] leave what the
    call leaves on the saved rows, whether the post had a row or not. *)
Lemma commit_add_or_update_post p u :
  new_users u = [] -> new_posts u = [] ->
  AnalyticQueue.commit (AnalyticQueue.add_or_update_post p u)
  = Ok (mkAnalyticWork (add_or_update_post p (saved u)) [] []).
Proof.
  intros Hu Hp.
  unfold AnalyticQueue.commit, AnalyticQueue.add_or_update_post,
    add_or_update_post.
  destruct (posts (saved u) !! p_id p) as [cur|] eqn:Hcur;
    cbn [saved new_users new_posts]; rewrite Hu, Hp; simpl.
  - reflexivity.
  - by rewrite Hcur.
Qed.

Lemma ingest_posts_saved snapshots u :
  new_users u = [] -> new_posts u = [] ->
  ingest_posts snapshots u
  = Ok (mkAnalyticWork
          (foldl (fun s p => add_or_update_post p s) (saved u) snapshots)
          [] []).
Proof.
  revert u. induction snapshots as [|p rest IH]; intros u Hu Hp.
  - destruct u; simpl in *. by subst.
  - cbn [ingest_posts foldl]. rewrite commit_add_or_update_post by done.
    change (ingest_posts rest
              (mkAnalyticWork (add_or_update_post p (saved u)) [] [])
            = Ok (mkAnalyticWork
                    (foldl (fun s p => add_or_update_post p s)
                       (add_or_update_post p (saved u)) rest) [] [])).
    by rewrite IH.
Qed.

(** Without a commit, every call for a post that has no row queues it. *)
Lemma queued_posts snapshots u id :
  posts (saved u) !! id = None ->
  Forall (fun p => p_id p = id) snapshots ->
  foldl (fun u p => AnalyticQueue.add_or_update_post p u) u snapshots
  = mkAnalyticWork (saved u) (new_users u) (new_posts u ++ snapshots).
Proof.
  intros Hnone Hall. revert u Hnone.
  induction Hall as [|p rest Hp _ IH]; intros u Hnone.
  - rewrite app_nil_r. by destruct u.
  - cbn [foldl]. unfold AnalyticQueue.add_or_update_post at 2.
    rewrite Hp, Hnone. rewrite IH by done.
    cbn [saved new_users new_posts]. by rewrite <- app_assoc.
Qed.

(** X14.  The [etl] loop on the snapshots of one post, oldest first, each
    passed to [add_or_update] and committed, on a store that does not have
    the post and has nothing queued: every commit succeeds, and the row
    that is left has the greatest favourite count of all snapshots and the
    hashtags of all snapshots together, while the author, creation time,
    source and reply flag stay those of the first snapshot.  The commits
    matter: with one commit after all the calls, a second snapshot is
    queued beside the first and the commit raises [IntegrityError]. *)
Theorem ingest_posts_converges (first : Post) (later : list Post)
    (u : AnalyticWork) :
  posts_keyed (saved u) ->
  new_users u = [] ->
  new_posts u = [] ->
  posts (saved u) !! p_id first = None ->
  Forall (fun p => p_id p = p_id first) later ->
  exists u' stored,
    ingest_posts (first :: later) u = Ok u' /\
    new_users u' = [] /\ new_posts u' = [] /\
    posts (saved u') !! p_id first = Some stored /\
    p_favorite_count stored
    = foldl Z.max (p_favorite_count first) (p_favorite_count <$> later) /\
    tags stored = tags first ∪ ⋃ (tags <$> later) /\
    p_user_id stored = p_user_id first /\
    p_created_at stored = p_created_at first /\
    p_source stored = p_source first /\
    p_is_reply stored = p_is_reply first /\
    (later <> [] ->
     ingest_posts_uncommitted (first :: later) u = Raise "IntegrityError").
Proof.
  intros Hkeyed Hu Hp Hnone Hall.
  destruct (add_or_update_post_lookup first (saved u) Hkeyed)
    as (Hnew & _ & _ & Hkeyed').
  rewrite Hnone in Hnew.
  destruct (merges_stored later _ _ first Hkeyed' Hnew Hall)
    as (stored & Hst & Hrest).
  eexists _, stored. split; [by apply ingest_posts_saved|].
  split; [done|]. split; [done|]. split; [exact Hst|].
  destruct Hrest as (? & ? & ? & ? & ? & ?).
  repeat (split; [done|]).
  intros Hlater. destruct later as [|second later]; [done|].
  pose proof Hall as Hall'. apply Forall_cons in Hall' as [Hid _].
  unfold ingest_posts_uncommitted.
  rewrite (queued_posts (first :: second :: later) u (p_id first));
    [|done|by constructor].
  unfold AnalyticQueue.commit. rewrite Hu, Hp.
  cbn [saved new_users new_posts app AnalyticQueue.flush_users
       AnalyticQueue.flush_posts mbind outcome_bind users posts].
  rewrite Hnone, Hid. by rewrite lookup_insert_eq.
Qed.

End Ingest.

Lemma ingest_posts_converges_witness :
  exists u' stored,
    ingest_posts
      [ex_post None ["a"; "b"] 5; ex_post (Some (ex_doc "p")) ["b"; "c"] 3]
      empty_analytic_work = Ok u' /\
    new_users u' = [] /\ new_posts u' = [] /\
    posts (saved u') !! "Twitter::7" = Some stored /\
    p_favorite_count stored = foldl Z.max 5 [3] /\
    tags stored
    = tags (ex_post None ["a"; "b"] 5)
      ∪ ⋃ [tags (ex_post (Some (ex_doc "p")) ["b"; "c"] 3)] /\
    p_user_id stored = "Twitter::42" /\
    p_created_at stored = 0 /\
    p_source stored = "web" /\
    p_is_reply stored = false /\
    ([ex_post (Some (ex_doc "p")) ["b"; "c"] 3] <> [] ->
     ingest_posts_uncommitted
       [ex_post None ["a"; "b"] 5; ex_post (Some (ex_doc "p")) ["b"; "c"] 3]
       empty_analytic_work = Raise "IntegrityError").
Proof.
  apply (ingest_posts_converges (ex_post None ["a"; "b"] 5)
           [ex_post (Some (ex_doc "p")) ["b"; "c"] 3] empty_analytic_work).
  - intros id p Hp. cbn [empty_analytic_work saved] in Hp.
    unfold empty_analytic_store in Hp; cbn [posts] in Hp.
    by rewrite lookup_empty in Hp.
  - reflexivity.
  - reflexivity.
  - apply lookup_empty.
  - repeat constructor.
Defined.

Lemma add_or_update_post_frame_witness :
  posts (AnalyticDataStore.add_or_update_post (ex_post None ["a"] 1)
           empty_analytic_store) !! "Twitter::7"
  = Some (ex_post None ["a"] 1) /\
  (forall id, id <> "Twitter::7" ->
     posts (AnalyticDataStore.add_or_update_post (ex_post None ["a"] 1)
              empty_analytic_store) !! id
     = posts empty_analytic_store !! id) /\
  users (AnalyticDataStore.add_or_update_post (ex_post None ["a"] 1)
           empty_analytic_store) = users empty_analytic_store /\
  posts_keyed (AnalyticDataStore.add_or_update_post (ex_post None ["a"] 1)
                 empty_analytic_store).
Proof.
  apply (add_or_update_post_frame (ex_post None ["a"] 1) empty_analytic_store).
  intros id p Hp. unfold empty_analytic_store in Hp; cbn [posts] in Hp.
  by rewrite lookup_empty in Hp.
Defined.

(** ** Expanding a user *)

Section ExpandUser.

Import CrawledDataStore TwitterUserCrawler.

Variable user_timeline : string -> list (outcome (list Status)).
Variable friends_of : string -> list (outcome (list Z)).
Variable detect_language : string -> string.
Variable language : string.



End ExpandUser.


(** ** Progress across a restart *)

Section Resume.

Import CrawledDataStore TweepyCrawler.

Variable search_tweets : nat -> SearchOptions -> outcome (list Status).
Variable detect_language : string -> string.

(** After a non-empty batch the record of the query holds the new cursors
    and is committed. *)
Lemma crawl_query_batch c q w w1 st rest :
  next_results search_tweets c q w = (Ok (st :: rest), w1) ->
  exists w',
    crawl_query search_tweets detect_language c q w
    = (Ok (if c_historical c
           then set_max_id (PyInt (foldl Z.min (s_id st) (s_id <$> rest))) q
           else set_since_id (PyInt (foldl Z.max (s_id st) (s_id <$> rest))) q,
           true), w') /\
    query_metadata (durable (db w')) !! q_id q
    = Some (to_metadata
              (if c_historical c
               then set_max_id (PyInt (foldl Z.min (s_id st) (s_id <$> rest))) q
               else set_since_id
                      (PyInt (foldl Z.max (s_id st) (s_id <$> rest))) q)).
Proof.
  intros Hnext. unfold crawl_query.
  erewrite bind_ok by exact Hnext.
  rewrite bool_decide_true by (simpl; lia).
  destruct (process_results_first detect_language c st rest w1)
    as (w2 & Hpr & _).
  erewrite bind_ok by exact Hpr.
  destruct (c_historical c); cbv beta iota; simpl;
    (eexists; split;
     [unfold db_update_query_metadata, db_commit, sleep, emit, modify_db,
        mbind, M_bind, mret, M_ret; reflexivity|]);
    simpl; by rewrite lookup_insert_eq.
Qed.

(** X16.  Historical progress survives a restart: when a historical
    request of a query brought a non-empty batch, a process started
    afterwards, whose project builds the query anew with both cursors
    ['undefined'], restores from the reopened store a query whose next
    historical request asks for ids below the least id of that batch. *)
Theorem historical_progress_survives_restart (c : Crawler) (q : Query)
    (w w1 : World) (st : Status) (rest : list Status) :
  c_historical c = true ->
  next_results search_tweets c q w = (Ok (st :: rest), w1) ->
  exists w' q',
    crawl_query search_tweets detect_language c q w = (Ok (q', true), w') /\
    search_options c
      (restore_query
         (mkQuery (q_id q) (q_text q) (PyStr "undefined") (PyStr "undefined"))
         (reopen (db w'))).1
    = Ok (mkSearchOptions
            (if c_ignore_retweets c then q_text q +:+ " -filter:retweets"
             else q_text q)
            500 (t_language (c_task c))
            (Some (foldl Z.min (s_id st) (s_id <$> rest) - 1)) None).
Proof.
  intros Hh Hnext.
  destruct (crawl_query_batch c q w w1 st rest Hnext) as (w' & Hrun & Hrec).
  rewrite Hh in Hrun, Hrec.
  exists w', (set_max_id (PyInt (foldl Z.min (s_id st) (s_id <$> rest))) q).
  split; [exact Hrun|].
  set (m := foldl Z.min (s_id st) (s_id <$> rest)) in *.
  assert (Hfind : find_metadata (q_id q) (reopen (db w'))
                  = Some (mkQueryMetadata (q_id q) (column_text (q_since_id q))
                            (PyStr (pretty m)))).
  { unfold find_metadata, reopen; cbn [view query_metadata].
    by rewrite lookup_fmap, Hrec. }
  assert (Hrestored :
    (restore_query
       (mkQuery (q_id q) (q_text q) (PyStr "undefined") (PyStr "undefined"))
       (reopen (db w'))).1
    = mkQuery (q_id q) (q_text q) (column_text (q_since_id q))
              (PyStr (pretty m))).
  { unfold restore_query; cbn [to_metadata qm_id q_id]. by rewrite Hfind. }
  rewrite Hrestored.
  unfold search_options. rewrite Hh. cbn [q_max_id q_text is_not_None andb].
  pose proof (pretty_not_sentinel m "undefined" eq_refl) as Hns.
  cbn [column_text] in Hns. rewrite Hns. cbn [negb].
  cbn [py_int]. by rewrite int_of_string_pretty.
Qed.

End Resume.

Lemma historical_progress_survives_restart_witness :
  exists w' q',
    TweepyCrawler.crawl_query two_results detect_en (ex_crawler true [])
      (ex_query PyNone PyNone) (new_world empty_store) = (Ok (q', true), w') /\
    TweepyCrawler.search_options (ex_crawler true [])
      (CrawledDataStore.restore_query
         (mkQuery "t::q" "q" (PyStr "undefined") (PyStr "undefined"))
         (reopen (db w'))).1
    = Ok (mkSearchOptions "q" 500 (Some "en")
            (Some (foldl Z.min 9 [4] - 1)) None).
Proof.
  apply (historical_progress_survives_restart two_results detect_en
           (ex_crawler true []) (ex_query PyNone PyNone)
           (new_world empty_store)
           (TweepyCrawler.next_results two_results (ex_crawler true [])
              (ex_query PyNone PyNone) (new_world empty_store)).2
           (ex_status 9) [ex_status 4]).
  - reflexivity.
  - reflexivity.
Defined.

(** ** The users command *)

Section UsersCommand.

Import TwitterUserCrawler.

Variable user_timeline : string -> list (outcome (list Status)).
Variable friends_of : string -> list (outcome (list Z)).
Variable detect_language : string -> string.
Variable language : string.

Hypothesis classified :
  forall user_id e,
    Raise e ∈ user_timeline user_id \/ Raise e ∈ friends_of user_id ->
    classify e <> UnknownError.



End UsersCommand.


(** ** Committed rows are never lost *)

Section Durable.

Import CrawledDataStore TweepyCrawler.

Lemma keeps_refl t : keeps t t.
Proof. split; [|done]. intros id row Hrow. by exists row. Qed.

Lemma keeps_trans t1 t2 t3 : keeps t1 t2 -> keeps t2 t3 -> keeps t1 t3.
Proof.
  intros [H1 H2] [H3 H4]. split; [|by etrans].
  intros id row Hrow.
  destruct (H1 id row Hrow) as (row' & Hrow' & Hflag).
  destruct (H3 id row' Hrow') as (row'' & Hrow'' & Hflag').
  exists row''. split; [done|]. congruence.
Qed.

Lemma keeps_rows_refl s : keeps_rows s s.
Proof. apply keeps_refl. Qed.

Lemma keeps_rows_trans s1 s2 s3 :
  keeps_rows s1 s2 -> keeps_rows s2 s3 -> keeps_rows s1 s3.
Proof. apply keeps_trans. Qed.

Lemma grows_unchanged {A : Type} (m : M A) :
  (forall w, db (m w).2 = db w) -> durable_grows m.
Proof.
  intros Hdb w Hcov. rewrite Hdb. split; [done|apply keeps_rows_refl].
Qed.

Lemma grows_bind {A B : Type} (m : M A) (f : A -> M B) :
  durable_grows m -> (forall a, durable_grows (f a)) -> durable_grows (m ≫= f).
Proof.
  intros Hm Hf w Hcov. destruct (Hm w Hcov) as [Hcov1 Hk1].
  unfold mbind, M_bind. destruct (m w) as [[a|e] w1]; simpl in *; [|done].
  destruct (Hf a w1 Hcov1) as [Hcov2 Hk2].
  split; [done|]. by eapply keeps_rows_trans.
Qed.

Lemma grows_modify_db (f : Session -> Session) :
  (forall s, covered s -> covered (f s) /\ keeps_rows s (f s)) ->
  durable_grows (modify_db f).
Proof. intros Hf w Hcov. by apply Hf. Qed.

Lemma commit_grows s : covered s -> covered (commit s) /\ keeps_rows s (commit s).
Proof. intros Hcov. split; [apply keeps_refl|exact Hcov]. Qed.

Lemma close_grows s : covered s -> covered (close s) /\ keeps_rows s (close s).
Proof. intros Hcov. split; apply keeps_refl. Qed.

(** A merge that leaves the flag of the row it lands on alone keeps the
    committed rows in sight. *)
Lemma merge_object_grows obj s :
  (forall cur, find (o_id obj) s = Some cur ->
               o_expanded obj = None \/ o_expanded obj = o_expanded cur) ->
  covered s -> covered (merge_object obj s) /\ keeps_rows s (merge_object obj s).
Proof.
  intros Hflag [H1 H2]. split; [|apply keeps_refl].
  split; [|done]. intros id row Hrow. cbn [durable merge_object] in Hrow.
  destruct (H1 id row Hrow) as (row' & Hrow' & Hsame).
  destruct (decide (id = o_id obj)) as [->|Hne].
  - exists (merged_row obj s). split; [by apply find_merge_object|].
    unfold merged_row, find. rewrite Hrow'. cbn [o_expanded].
    destruct (Hflag row' Hrow') as [->|Heq]; [done|].
    rewrite Heq, <- Hsame. by destruct (o_expanded row').
  - exists row'. split; [|done].
    change (find id (merge_object obj s) = Some row').
    by rewrite find_merge_object_ne.
Qed.

Lemma merge_metadata_grows qm s :
  covered s ->
  covered (merge_metadata qm s) /\ keeps_rows s (merge_metadata qm s).
Proof.
  intros [H1 H2]. split; [|apply keeps_refl].
  split; [done|]. unfold merge_metadata; cbn [view durable query_metadata].
  etrans; [exact H2|]. apply dom_insert_subseteq.
Qed.

(** [add] of a user, or of an object built without [expanded], as the
    crawler builds them. *)
Lemma grows_db_add obj :
  o_expanded obj = None \/ o_api obj = TwitterUser ->
  durable_grows (db_add obj).
Proof.
  intros Hobj w Hcov. rewrite db_add_ok; cbn [snd db].
  rewrite add_unfold; cbn [snd]. apply merge_object_grows; [|done].
  assert (Hid : o_id (incoming obj (db w)) = o_id obj) by apply add_id.
  rewrite Hid. intros cur Hcur.
  destruct (decide (o_api obj = TwitterUser)) as [Hu|Hu].
  - right. rewrite (incoming_user obj _ Hu), Hcur. done.
  - left. rewrite (incoming_other obj _ Hu). by destruct Hobj.
Qed.

Lemma grows_db_commit site : durable_grows (db_commit site).
Proof.
  apply grows_bind; [apply grows_modify_db, commit_grows|].
  intros _. by apply grows_unchanged.
Qed.

Lemma restore_query_grows q s :
  covered s ->
  covered (restore_query q s).2 /\ keeps_rows s (restore_query q s).2.
Proof.
  intros Hcov. unfold restore_query.
  destruct (find_metadata _ s); cbn [snd]; [split; [done|apply keeps_rows_refl]|].
  match goal with
  | |- context [merge_metadata ?qm s] =>
      destruct (merge_metadata_grows qm s Hcov) as [Hc Hk];
      destruct (commit_grows _ Hc) as [Hc' Hk']
  end.
  split; [done|]. by eapply keeps_rows_trans.
Qed.

Lemma restore_queries_grows qs s :
  covered s ->
  covered (restore_queries qs s).2 /\ keeps_rows s (restore_queries qs s).2.
Proof.
  revert s. induction qs as [|q qs IH]; intros s Hcov.
  - split; [done|apply keeps_rows_refl].
  - rewrite restore_queries_cons; cbn [snd].
    destruct (restore_query_grows q s Hcov) as [Hc Hk].
    destruct (IH _ Hc) as [Hc' Hk'].
    split; [done|]. by eapply keeps_rows_trans.
Qed.

Lemma restore_tasks_grows tasks s :
  covered s ->
  covered (Project.restore_tasks tasks s).2 /\
  keeps_rows s (Project.restore_tasks tasks s).2.
Proof.
  revert s. induction tasks as [|task tasks IH]; intros s Hcov.
  - split; [done|apply keeps_rows_refl].
  - rewrite restore_tasks_cons; cbn [snd].
    rewrite restore_query_metadata_session.
    destruct (restore_queries_grows (t_queries task) s Hcov) as [Hc Hk].
    destruct (IH _ Hc) as [Hc' Hk'].
    split; [done|]. by eapply keeps_rows_trans.
Qed.

Variable search_tweets : nat -> SearchOptions -> outcome (list Status).
Variable detect_language : string -> string.
Variable clock : nat -> Z.

Lemma grows_process_results c results m s :
  durable_grows (process_results detect_language c results m s).
Proof.
  revert m s. induction results as [|st rest IH]; intros m s.
  - by apply grows_unchanged.
  - cbn [process_results]. apply grows_bind.
    + unfold process_status. destruct (skipped c _); [by apply grows_unchanged|].
      apply grows_bind; [apply grows_db_add; by left|]; intros _.
      apply grows_bind; [apply grows_db_add; by left|]; intros _.
      apply grows_db_commit.
    + intros _. apply grows_bind; [by apply grows_unchanged|].
      intros [m' s']. apply IH.
Qed.

Lemma grows_crawl_query c q :
  durable_grows (crawl_query search_tweets detect_language c q).
Proof.
  unfold crawl_query. apply grows_bind.
  { unfold next_results. apply grows_bind; [by apply grows_unchanged|].
    intros opts. apply grows_unchanged. intros w. unfold api_search.
    by destruct (search_tweets (requests w) opts). }
  intros results. case_bool_decide; [|by apply grows_unchanged].
  apply grows_bind; [apply grows_process_results|]; intros [m s].
  apply grows_bind.
  { unfold db_update_query_metadata.
    apply grows_bind; [apply grows_modify_db, merge_metadata_grows|].
    intros _. by apply grows_unchanged. }
  intros _. apply grows_bind; [apply grows_db_commit|]; intros _.
  apply grows_bind; [by apply grows_unchanged|].
  intros _. by apply grows_unchanged.
Qed.

Lemma grows_crawl c : durable_grows (crawl search_tweets detect_language c).
Proof.
  unfold crawl. apply grows_bind; [|intros [qs n]; by apply grows_unchanged].
  induction (t_queries (c_task c)) as [|q rest IH];
    [by apply grows_unchanged|].
  cbn [crawl_queries]. destruct (_has_more c q).
  - apply grows_bind; [apply grows_crawl_query|]; intros [q' b].
    apply grows_bind; [apply IH|]; intros [rest' n]. by apply grows_unchanged.
  - apply grows_bind; [apply IH|]; intros [rest' n]. by apply grows_unchanged.
Qed.

Lemma grows_in_timeout c : durable_grows (in_timeout clock c).
Proof.
  apply grows_unchanged. intros w. unfold in_timeout.
  by destruct (c_last_run c).
Qed.

Lemma grows_round historical crawlers :
  durable_grows
    (CrawlerApp.round search_tweets detect_language clock historical crawlers).
Proof.
  induction crawlers as [|c rest IH]; [by apply grows_unchanged|].
  cbn [CrawlerApp.round].
  apply grows_bind; [apply grows_in_timeout|]; intros [|].
  - apply grows_bind; [apply IH|]; intros next. by apply grows_unchanged.
  - apply grows_bind; [by apply grows_unchanged|]; intros _.
    apply grows_bind; [apply grows_crawl|]; intros [c' [|]]; [|apply IH].
    apply grows_bind; [by apply grows_unchanged|]; intros current.
    apply grows_bind; [apply IH|]; intros next. by apply grows_unchanged.
Qed.

Lemma grows_loop fuel historical crawlers :
  durable_grows
    (CrawlerApp.loop search_tweets detect_language clock fuel historical
       crawlers).
Proof.
  revert crawlers. induction fuel as [|fuel IH]; intros [|c rest];
    cbn [CrawlerApp.loop]; try by apply grows_unchanged.
  apply grows_bind; [apply grows_round|]; intros next.
  apply grows_bind; [apply grows_db_commit|]; intros _. apply IH.
Qed.

(** X18.  A run of the [tweets] command never deletes a committed row
    and never changes its [expanded] flag: started on a session that sees
    the committed rows with their flags, as a store that was just opened
    does, it ends, whether the loop returns, runs out or is cut short by an
    exception, with every raw object that was committed before still
    committed under its id with the flag it had, and every cursor record
    still there under its id.  The other columns of a row may have been
    replaced by a newer snapshot.  Closing the store drops what was not
    committed: the session then sees what is committed and nothing else. *)
Theorem run_keeps_committed_rows (fuel : nat) (historical : bool)
    (tasks : list CrawlTask) (w : World) :
  covered (db w) ->
  keeps_rows (db w)
    (db (CrawlerApp.crawl search_tweets detect_language clock fuel historical
           tasks w).2) /\
  view (db (CrawlerApp.crawl search_tweets detect_language clock fuel
              historical tasks w).2)
  = durable (db (CrawlerApp.crawl search_tweets detect_language clock fuel
                   historical tasks w).2).
Proof.
  intros Hcov. unfold CrawlerApp.crawl, finally.
  assert (Hbody : durable_grows
            (tasks' ← Project.crawl_db tasks;
             crawlers ← lift (CrawlerApp.make_crawlers tasks');
             CrawlerApp.loop search_tweets detect_language clock fuel
               historical crawlers)).
  { apply grows_bind.
    - intros w0 Hcov0. unfold Project.crawl_db.
      pose proof (restore_tasks_grows tasks (db w0) Hcov0) as Hres.
      by destruct (Project.restore_tasks tasks (db w0)).
    - intros tasks'. apply grows_bind; [by apply grows_unchanged|].
      intros crawlers. apply grows_loop. }
  destruct (Hbody w Hcov) as [Hc Hk].
  match goal with
  | |- context [let '(r, w') := ?body w in _] =>
      change (body w) with
        ((tasks' ← Project.crawl_db tasks;
          crawlers ← lift (CrawlerApp.make_crawlers tasks');
          CrawlerApp.loop search_tweets detect_language clock fuel
            historical crawlers) w) in *
  end.
  destruct ((tasks' ← Project.crawl_db tasks;
             crawlers ← lift (CrawlerApp.make_crawlers tasks');
             CrawlerApp.loop search_tweets detect_language clock fuel
               historical crawlers) w) as [r w1]; cbn [snd] in *.
  split; [|done].
  destruct (close_grows _ Hc) as [_ Hk']. by eapply keeps_rows_trans.
Qed.

End Durable.

Lemma run_keeps_committed_rows_witness :
  keeps_rows (db (new_world two_users_store))
    (db (CrawlerApp.crawl unauthorized detect_en ticking 5 false
           [ex_task_named "t1"] (new_world two_users_store)).2) /\
  view (db (CrawlerApp.crawl unauthorized detect_en ticking 5 false
              [ex_task_named "t1"] (new_world two_users_store)).2)
  = durable (db (CrawlerApp.crawl unauthorized detect_en ticking 5 false
                   [ex_task_named "t1"] (new_world two_users_store)).2).
Proof.
  apply (run_keeps_committed_rows unauthorized detect_en ticking 5 false
           [ex_task_named "t1"] (new_world two_users_store)).
  split; [|done]. intros id row Hrow. by exists row.
Defined.

(** ** Classifying a failure *)

Section Classify.

Import TwitterUserCrawler.

Lemma append_cons (a : ascii) (s t : string) :
  String a s +:+ t = String a (s +:+ t).
Proof. reflexivity. Qed.

Lemma prefix_spec (needle s : string) :
  String.prefix needle s = true <-> exists after, s = needle +:+ after.
Proof.
  revert s. induction needle as [|a needle IH]; intros s.
  - split; [intros _; by exists s|intros _; by destruct s].
  - destruct s as [|b s]; simpl.
    + split; [done|]. by intros [after Heq].
    + destruct (Ascii.ascii_dec a b) as [->|Hne].
      * rewrite IH.
        split; intros [after Heq]; exists after;
          rewrite append_cons in *; congruence.
      * split; [done|]. intros [after Heq].
        rewrite append_cons in Heq. congruence.
Qed.

Lemma contains_spec (needle s : string) :
  contains needle s = true <-> occurs_in needle s.
Proof.
  induction s as [|a s IH]; cbn [contains].
  - rewrite orb_false_r, prefix_spec. split.
    + intros [after Heq]. by exists "", after.
    + intros ([|b before] & after & Heq); [by exists after|done].
  - rewrite orb_true_iff, prefix_spec, IH. split.
    + intros [[after Heq]|(before & after & Heq)].
      * by exists "", after.
      * exists (String a before), after. by rewrite append_cons, Heq.
    + intros ([|b before] & after & Heq).
      * left. by exists after.
      * right. exists before, after.
        rewrite append_cons in Heq. congruence.
Qed.

Lemma contains_false (needle s : string) :
  contains needle s = false <-> ~ occurs_in needle s.
Proof.
  rewrite <- contains_spec. by destruct (contains needle s).
Qed.

(** X19.  The handler classifies a failure by what its message contains,
    in this order of precedence: authorization when ["status code = 401"]
    or ["Not authorized"] occurs in it; otherwise not-found when
    ["status code = 404"] occurs; otherwise timeout when ["TimeoutError"]
    occurs; and unknown, the only kind that exits the process, exactly when
    none of the four occurs. *)
Theorem classify_spec (e : string) :
  (classify e = AuthorizationError <->
   occurs_in "status code = 401" e \/ occurs_in "Not authorized" e) /\
  (classify e = NotFoundError <->
   ~ (occurs_in "status code = 401" e \/ occurs_in "Not authorized" e) /\
   occurs_in "status code = 404" e) /\
  (classify e = TransientTimeout <->
   ~ (occurs_in "status code = 401" e \/ occurs_in "Not authorized" e) /\
   ~ occurs_in "status code = 404" e /\ occurs_in "TimeoutError" e) /\
  (classify e = UnknownError <->
   ~ occurs_in "status code = 401" e /\ ~ occurs_in "Not authorized" e /\
   ~ occurs_in "status code = 404" e /\ ~ occurs_in "TimeoutError" e).
Proof.
  unfold classify.
  destruct (contains "status code = 401" e) eqn:H401;
    destruct (contains "Not authorized" e) eqn:Hauth;
    destruct (contains "status code = 404" e) eqn:H404;
    destruct (contains "TimeoutError" e) eqn:Htime;
    rewrite ?contains_spec, ?contains_false in *; simpl;
    repeat split; try done; try tauto.
Qed.

End Classify.
